(** * cheetah: the request dispatch pipeline

    A shallow embedding of [cheetah.ts] (the [fetch] entry point and the
    private [#handle] pipeline) and of [x/env.ts], together with the
    properties of the dispatch pipeline proved about them.

    Conventions of the embedding:
    - a JavaScript string is a [string]; every character stands for one
      UTF-16 code unit, so [String.length] is the [.length] of the source;
    - a JavaScript object used as a dictionary ([responseHeaders], [query],
      [cookies], [headers]) is a [gmap] keyed by strings;
    - [throw] / [try] / [catch] and the order of the observable steps of a
      dispatch are carried by a small writer-and-error monad [M]: a
      computation yields the list of [Event]s it performed and either a
      value or the thrown value;
    - user callbacks (plugins, handlers) are functions from what they can
      read to the [res.*] calls they perform and their completion.

    Left out, because nothing below depends on them: the printing of
    [#log], the members [waitUntil], [req.geo] and the body readers of
    [context.req] (which only handlers call), and the router, which is not
    part of these sources and appears as the function [router_match].
    The property name [__proto__], which JavaScript objects treat
    specially, is taken to be an ordinary key of the query and cookie
    dictionaries; the properties about these dictionaries set it aside. *)

From Stdlib Require Import ZArith NArith String Ascii List Bool Lia DecimalString.
From stdpp Require Import base option gmap strings.
Import ListNotations.

Set Warnings "-register-all".

Local Open Scope string_scope.
Local Open Scope list_scope.
Local Open Scope Z_scope.

(* ====================================================================== *)
(** * JavaScript values                                                     *)
(* ====================================================================== *)

(** Numbers that the pipeline itself produces are integers or [NaN]
    ([parseInt], status codes, lengths). *)
Inductive JsNumber : Type :=
| NaN
| Int (z : Z).

(** Host objects that can be staged as a response body. *)
Inductive HostKind : Type := KBlob | KStream | KFormData | KBuffer.

Inductive JsValue : Type :=
| JUndefined
| JNull
| JBool (b : bool)
| JNum (n : JsNumber)
| JStr (s : string)
| JArr (items : list JsValue)
| JObj (fields : list (string * JsValue))
| JHost (k : HostKind) (size : nat).

(** [if (v)]: the falsy values are [undefined], [null], [false], [0], [NaN]
    and the empty string. *)
Definition truthy (v : JsValue) : bool :=
  match v with
  | JUndefined | JNull => false
  | JBool b => b
  | JNum NaN => false
  | JNum (Int z) => negb (z =? 0)
  | JStr s => negb (String.eqb s EmptyString)
  | JArr _ | JObj _ | JHost _ _ => true
  end.

(** [typeof v === 'string'] *)
Definition is_string (v : JsValue) : bool :=
  match v with JStr _ => true | _ => false end.

Fixpoint assoc {A : Type} (k : string) (l : list (string * A)) : option A :=
  match l with
  | [] => None
  | (k', a) :: l' => if String.eqb k k' then Some a else assoc k l'
  end.

(** [v.code]: an object yields the field (or [undefined]); a string, a number,
    a boolean, an array or a host object has no [code] property, own or
    inherited, so the read yields [undefined]. *)
Definition prop_code (v : JsValue) : JsValue :=
  match v with
  | JObj fields => default JUndefined (assoc "code" fields)
  | _ => JUndefined
  end.

(** [n.toString()] for a length. *)
Definition toString (n : nat) : string :=
  NilEmpty.string_of_uint (Nat.to_uint n).

(* ====================================================================== *)
(** * Host primitives                                                       *)
(* ====================================================================== *)

(** The built-in functions the pipeline calls.  They belong to the host
    runtime, not to the repository, so the development is parametric in
    them; [ascii_host] below gives their standard behaviour on the ASCII
    fragment so that the model can be run. *)
Class Host : Type := {
  (** [isNaN(s)], that is [isNaN(Number(s))] *)
  isNaN_Number : string -> bool;
  (** [isNaN(parseFloat(s))] *)
  isNaN_parseFloat : string -> bool;
  (** [parseInt(s)] *)
  parseInt : string -> JsNumber;
  (** [JSON.stringify(v)]; [None] is the [undefined] result *)
  JSON_stringify : JsValue -> option string;
}.

(* ====================================================================== *)
(** * Thrown values, events and the dispatch monad                          *)
(* ====================================================================== *)

Inductive Thrown : Type :=
| Exception (code : Z)          (** [new Exception(code)] *)
| DeadlineError                 (** thrown by [deadline] *)
| OtherError (e : JsValue).     (** anything else *)

Definition TypeError : Thrown := OtherError (JStr "TypeError").

Inductive Completion (A : Type) : Type :=
| Return (a : A)
| Throw (t : Thrown).
Arguments Return {A} a.
Arguments Throw {A} t.

Inductive Stage : Type := beforeParsing | beforeHandling | beforeResponding.
Inductive Part : Type := PHeaders | PQuery | PCookies | PBody.
Inductive BodyKind : Type := AsFormData | AsJson | AsText.

(** The observable steps of one dispatch. *)
Inductive Event : Type :=
| EvHook (st : Stage) (key : string) (i : nat)   (** the [i]-th plugin under [key] is called *)
| EvValidate (p : Part)                          (** the validator is asked about a part *)
| EvBodyRead (k : BodyKind) (delay : N)          (** a body read under [deadline(_, delay)] *)
| EvHandler (i : nat)                            (** [route[i]] is called *)
| EvCachePut.                                    (** [cache.put] is scheduled *)

Definition M (A : Type) : Type := list Event * Completion A.

Definition ret {A} (a : A) : M A := ([], Return a).
Definition throw {A} (t : Thrown) : M A := ([], Throw t).
Definition emit (e : Event) : M unit := ([e], Return tt).

Definition bind {A B} (m : M A) (f : A -> M B) : M B :=
  match m with
  | (l, Return a) => let '(l', r) := f a in (l ++ l', r)
  | (l, Throw t) => (l, Throw t)
  end.

(** [try { m } catch (err) { h err }] *)
Definition try_catch {A} (m : M A) (h : Thrown -> M A) : M A :=
  match m with
  | (l, Throw t) => let '(l', r) := h t in (l ++ l', r)
  | (l, Return a) => (l, Return a)
  end.

Arguments bind {A B} m f : simpl never.
Arguments try_catch {A} m h : simpl never.

Declare Scope dispatch_scope.
Delimit Scope dispatch_scope with dispatch.
Notation "x <- m ;; k" := (bind m (fun x => k))
  (at level 100, m at next level, right associativity) : dispatch_scope.
Notation "m ;;; k" := (bind m (fun _ => k))
  (at level 100, right associativity) : dispatch_scope.
Local Open Scope dispatch_scope.

Definition trace {A} (m : M A) : list Event := fst m.
Definition outcome {A} (m : M A) : Completion A := snd m.

(* ====================================================================== *)
(** * Response state and the [res.*] mutators                               *)
(* ====================================================================== *)

(** The variables [responseCode], [responseHeaders], [responseBody] and
    [requiresFormatting] captured by the closures of [context.res]. *)
Record ResState : Type := {
  responseCode : Z;
  responseHeaders : gmap string string;
  responseBody : JsValue;
  requiresFormatting : bool;
}.

Definition set_code (c : Z) (s : ResState) : ResState :=
  {| responseCode := c; responseHeaders := responseHeaders s;
     responseBody := responseBody s; requiresFormatting := requiresFormatting s |}.

Definition set_headers (h : gmap string string) (s : ResState) : ResState :=
  {| responseCode := responseCode s; responseHeaders := h;
     responseBody := responseBody s; requiresFormatting := requiresFormatting s |}.

Definition set_header (name value : string) (s : ResState) : ResState :=
  set_headers (<[name := value]> (responseHeaders s)) s.

Definition set_body (b : JsValue) (s : ResState) : ResState :=
  {| responseCode := responseCode s; responseHeaders := responseHeaders s;
     responseBody := b; requiresFormatting := requiresFormatting s |}.

(** [responseBody = b; requiresFormatting = false] *)
Definition stage_body (b : JsValue) (s : ResState) : ResState :=
  {| responseCode := responseCode s; responseHeaders := responseHeaders s;
     responseBody := b; requiresFormatting := false |}.

(** [if (code) responseCode = code] *)
Definition code_given (code : option Z) (s : ResState) : ResState :=
  match code with
  | Some c => if c =? 0 then s else set_code c s
  | None => s
  end.

(** [responseHeaders[name]] used as a condition. *)
Definition header_truthy (h : gmap string string) (name : string) : bool :=
  match h !! name with
  | Some v => negb (String.eqb v EmptyString)
  | None => false
  end.

(** [if (!responseHeaders['content-type']) responseHeaders['content-type'] = v] *)
Definition default_content_type (v : string) (s : ResState) : ResState :=
  if header_truthy (responseHeaders s) "content-type" then s
  else set_header "content-type" v s.

(** Upper-casing of one ASCII letter, for [charAt(0).toUpperCase()]. *)
Definition upper (c : ascii) : ascii :=
  let n := nat_of_ascii c in
  if (Nat.leb 97 n && Nat.leb n 122)%bool then ascii_of_nat (n - 32) else c.

Definition capitalize (s : string) : string :=
  match s with
  | EmptyString => EmptyString
  | String c r => String (upper c) r
  end.

Definition string_truthy (s : string) : bool := negb (String.eqb s EmptyString).

(** The [options] argument of [res.cookie]; [expiresAt] holds the text of
    [expiresAt.toUTCString()]. *)
Record CookieOptions : Type := {
  expiresAt : option string;
  maxAge : option Z;
  domain : option string;
  path : option string;
  secure : bool;
  httpOnly : bool;
  sameSite : option string;
}.

Definition cookie_text (name value : string) (options : option CookieOptions) : string :=
  let cookie := name +:+ "=" +:+ value +:+ ";" in
  match options with
  | None => cookie
  | Some o =>
      let cookie := match expiresAt o with
                    | Some d => cookie +:+ " expires=" +:+ d +:+ ";"
                    | None => cookie end in
      let cookie := match maxAge o with
                    | Some a => if a =? 0 then cookie
                                else cookie +:+ " max-age=" +:+ NilZero.string_of_int (Z.to_int a) +:+ ";"
                    | None => cookie end in
      let cookie := match domain o with
                    | Some d => if string_truthy d then cookie +:+ " domain=" +:+ d +:+ ";" else cookie
                    | None => cookie end in
      let cookie := match path o with
                    | Some p => if string_truthy p then cookie +:+ " path=" +:+ p +:+ ";" else cookie
                    | None => cookie end in
      let cookie := if secure o then cookie +:+ " secure;" else cookie in
      let cookie := if httpOnly o then cookie +:+ " httpOnly;" else cookie in
      match sameSite o with
      | Some ss => if string_truthy ss then cookie +:+ " sameSite=" +:+ capitalize ss +:+ ";" else cookie
      | None => cookie
      end
  end.

(** One call of a member of [context.res]. *)
Inductive ResCall : Type :=
| res_code (code : Z)
| res_cookie (name value : string) (options : option CookieOptions)
| res_header (name value : string)
| res_redirect (destination : string) (code : option Z)
| res_blob (size : nat) (code : option Z)
| res_stream (code : option Z)
| res_formData (code : option Z)
| res_buffer (byteLength : nat) (code : option Z)
| res_json (json : JsValue) (code : option Z)
| res_text (text : string) (code : option Z).

Section WithHost.
Context `{host : Host}.

(** The effect of one [res.*] call; [res.json] throws when
    [JSON.stringify] yields [undefined], whose [.length] cannot be read. *)
Definition apply_call (call : ResCall) (s : ResState) : Completion ResState :=
  match call with
  | res_code code => Return (set_code code s)
  | res_cookie name value options =>
      Return (set_header "set-cookie" (cookie_text name value options) s)
  | res_header name value => Return (set_header name value s)
  | res_redirect destination code =>
      Return (set_code (default 307 code) (set_header "location" destination s))
  | res_blob size code =>
      Return (code_given code
                (set_header "content-length" (toString size) (stage_body (JHost KBlob size) s)))
  | res_stream code => Return (code_given code (stage_body (JHost KStream 0) s))
  | res_formData code => Return (code_given code (stage_body (JHost KFormData 0) s))
  | res_buffer byteLength code =>
      Return (code_given code
                (set_header "content-length" (toString byteLength)
                   (stage_body (JHost KBuffer byteLength) s)))
  | res_json json code =>
      match JSON_stringify json with
      | Some text =>
          Return (code_given code
                    (set_header "content-length" (toString (String.length text))
                       (default_content_type "application/json; charset=utf-8"
                          (stage_body (JStr text) s))))
      | None => Throw TypeError
      end
  | res_text text code =>
      Return (code_given code
                (set_header "content-length" (toString (String.length text))
                   (default_content_type "text/plain; charset=utf-8"
                      (stage_body (JStr text) s))))
  end.

Fixpoint apply_calls (calls : list ResCall) (s : ResState) : Completion ResState :=
  match calls with
  | [] => Return s
  | call :: rest =>
      match apply_call call s with
      | Return s' => apply_calls rest s'
      | Throw t => Throw t
      end
  end.

End WithHost.

(* ====================================================================== *)
(** * Requests, promises and [deadline]                                     *)
(* ====================================================================== *)

(** A promise as the pipeline observes it: it settles after [ms]
    milliseconds with a value or a rejection, or it never settles. *)
Inductive Promise (A : Type) : Type :=
| Settles (ms : N) (r : Completion A)
| Never.
Arguments Settles {A} ms r.
Arguments Never {A}.

(** [deadline(p, delay)] of the standard library: the result of [p] when it
    settles before the delay has elapsed, a [DeadlineError] otherwise. *)
Definition deadline {A} (p : Promise A) (delay : N) : Completion A :=
  match p with
  | Settles ms r => if (ms <? delay)%N then r else Throw DeadlineError
  | Never => Throw DeadlineError
  end.

(** The incoming request together with its parsed URL.  [req_headers] are
    the entries of [request.headers] in iteration order (names already
    lower-cased by the host); the three promises are what
    [request.formData()], [request.json()] and [request.text()] return. *)
Record Request : Type := {
  method : string;
  req_headers : list (string * string);
  pathname : string;
  searchParams : list (string * string);
  formData : Promise (list (string * JsValue));
  json : Promise JsValue;
  text : Promise string;
}.

(** [request.headers.get(name)] and [request.headers.has(name)] *)
Definition headers_get (r : Request) (name : string) : option string :=
  assoc name (req_headers r).

Definition headers_has (r : Request) (name : string) : bool :=
  match headers_get r name with Some _ => true | None => false end.

Record Response : Type := {
  body : JsValue;                       (** [JNull] for a bodyless response *)
  status : Z;
  headers : gmap string string;
}.

(** [response.ok] *)
Definition ok (r : Response) : bool := (200 <=? status r) && (status r <=? 299).

(* ====================================================================== *)
(** * Schemas and validators                                                *)
(* ====================================================================== *)

(** What is handed to the validator: one of the parsed dictionaries, or the
    parsed body. *)
Inductive Subject : Type :=
| SDict (d : gmap string JsValue)
| SValue (v : JsValue).

(** One sub-schema.  [zod_typeName] is [schema._def?.typeName],
    [typebox_kind] is the value under the schema's first own symbol, and
    [safeParse] is the schema's own [safeParse(value).success] when it has
    that method. *)
Record SubSchema : Type := {
  zod_typeName : option string;
  typebox_kind : option string;
  safeParse : option (Subject -> bool);
}.

Record Schema : Type := {
  schema_headers : option SubSchema;
  schema_query : option SubSchema;
  schema_cookies : option SubSchema;
  schema_body : option SubSchema;
  transform : bool;
}.

Record Validator : Type := {
  name : string;
  check : option (SubSchema -> Subject -> bool);
}.

(** [this.#validator.name === 'typebox' && this.#validator.check
      ? this.#validator.check(schema, value)
      : schema.safeParse(value).success] *)
Definition isValid (v : Validator) (schema : SubSchema) (value : Subject) : Completion bool :=
  match (if String.eqb (name v) "typebox" then check v else None) with
  | Some chk => Return (chk schema value)
  | None =>
      match safeParse schema with
      | Some parse => Return (parse value)
      | None => Throw TypeError
      end
  end.

(** [if (!isValid) throw new Exception(400)], with the validator call
    recorded. *)
Definition validate (p : Part) (v : Validator) (schema : SubSchema) (value : Subject) : M unit :=
  emit (EvValidate p) ;;;
  match isValid v schema value with
  | Return true => ret tt
  | Return false => throw (Exception 400)
  | Throw t => throw t
  end.

Definition is_object_schema (s : SubSchema) : bool :=
  match zod_typeName s with Some n => String.eqb n "ZodObject" | None => false end
  || match typebox_kind s with Some k => String.eqb k "Object" | None => false end.

Definition is_string_schema (s : SubSchema) : bool :=
  match zod_typeName s with Some n => String.eqb n "ZodString" | None => false end
  || match typebox_kind s with Some k => String.eqb k "String" | None => false end.

(* ====================================================================== *)
(** * Context, callbacks, routes and the application                        *)
(* ====================================================================== *)

Inductive Runtime : Type := deno | cloudflare.

(** What a plugin or a handler can read from [context]: the fields of
    [context.req], with [ctx_raw] for the request behind [req.raw()] and
    the body readers, [context.env] and [context.runtime]. *)
Record Context : Type := {
  ctx_env : gmap string JsValue;
  ctx_runtime : Runtime;
  ctx_ip : option string;
  ctx_raw : Request;
  ctx_body : JsValue;
  ctx_cookies : gmap string JsValue;
  ctx_headers : gmap string string;
  ctx_params : gmap string string;
  ctx_query : gmap string JsValue;
}.

(** A [beforeHandling] or [beforeResponding] plugin, or a route handler: the
    [res.*] calls it performs, in order, and how it completes. *)
Definition Callback : Type := Context -> list ResCall * Completion JsValue.

(** A [beforeParsing] plugin receives the raw request. *)
Definition RawCallback : Type := Request -> Completion JsValue.

(** An element of a route: a schema object or a handler function. *)
Inductive Route : Type :=
| RSchema (s : Schema)
| RHandler (h : Callback).

Record CacheConfig : Type := { cache_name : string; duration : Z }.

(** The three outcomes of calling the [notFound] handler from inside the
    [try] block without awaiting it. *)
Inductive NotFoundResult : Type :=
| NFResponse (r : Response)     (** a response, or a promise fulfilled with one *)
| NFThrows (t : Thrown)         (** a synchronous throw *)
| NFRejects (t : Thrown).       (** a promise that rejects *)

(** The private fields of a [cheetah] instance.  [router_match] is
    [this.#router.match]; every registry of [plugins] lists its keys in
    the order [for ... in] visits them. *)
Record App : Type := {
  router_match : string -> string -> option (gmap string string * list Route);
  runtime : Runtime;
  cors : option string;
  cache : option CacheConfig;
  validator : option Validator;
  notFound : option (Request -> NotFoundResult);
  error : option (Thrown -> Request -> Completion Response);
  plugins_beforeParsing : list (string * list RawCallback);
  plugins_beforeHandling : list (string * list Callback);
  plugins_beforeResponding : list (string * list Callback);
}.

(* ====================================================================== *)
(** * String operations used by the parsers                                 *)
(* ====================================================================== *)

(** [s.includes(c)] for a one-character needle. *)
Fixpoint includes (c : ascii) (s : string) : bool :=
  match s with
  | EmptyString => false
  | String d r => Ascii.eqb c d || includes c r
  end.

(** [s.split(c)] for a one-character separator; [cur] is the piece
    being read. *)
Fixpoint split_at (c : ascii) (s : string) (cur : string) : list string :=
  match s with
  | EmptyString => [cur]
  | String d r =>
      if Ascii.eqb c d then cur :: split_at c r EmptyString
      else split_at c r (cur +:+ String d EmptyString)
  end.

Definition split (c : ascii) (s : string) : list string := split_at c s EmptyString.

(** The class [\s] of a regular expression, on code units below 256. *)
Definition is_space (c : ascii) : bool :=
  let n := nat_of_ascii c in
  (Nat.leb 9 n && Nat.leb n 13) || Nat.eqb n 32 || Nat.eqb n 160.

(** The characters [.] does not match, on code units below 256. *)
Definition is_line_terminator (c : ascii) : bool :=
  let n := nat_of_ascii c in Nat.eqb n 10 || Nat.eqb n 13.

(** [s.split(/;\s*/)]: [skip] holds while the white space after a [;] is
    being consumed. *)
Fixpoint split_semicolons (s : string) (cur : string) (skip : bool) : list string :=
  match s with
  | EmptyString => [cur]
  | String d r =>
      if skip && is_space d then split_semicolons r cur true
      else if Ascii.eqb d ";" then cur :: split_semicolons r EmptyString true
      else split_semicolons r (cur +:+ String d EmptyString) false
  end.

(** The first two elements of [pair.split(/=(.+)/)]: the text before the
    first [=] that is followed by a character [.] matches, and the longest
    run of such characters after it; [undefined] when there is no match. *)
Fixpoint until_line_terminator (s : string) : string :=
  match s with
  | EmptyString => EmptyString
  | String d r => if is_line_terminator d then EmptyString else String d (until_line_terminator r)
  end.

Fixpoint split_pair (s : string) (key : string) : string * JsValue :=
  match s with
  | EmptyString => (key, JUndefined)
  | String d r =>
      if Ascii.eqb d "=" then
        match r with
        | String e _ =>
            if is_line_terminator e then split_pair r (key +:+ "=")
            else (key, JStr (until_line_terminator r))
        | EmptyString => (key +:+ "=", JUndefined)
        end
      else split_pair r (key +:+ String d EmptyString)
  end.

(** Lower-casing of ASCII letters, for [key.toLowerCase()] on header
    names. *)
Definition lower (c : ascii) : ascii :=
  let n := nat_of_ascii c in
  if (Nat.leb 65 n && Nat.leb n 90)%bool then ascii_of_nat (n + 32) else c.

Fixpoint toLowerCase (s : string) : string :=
  match s with
  | EmptyString => EmptyString
  | String c r => String (lower c) (toLowerCase r)
  end.

(** [pathname[0]]: the first character as a string, or [undefined]. *)
Definition first_char (s : string) : option string :=
  match s with
  | EmptyString => None
  | String c _ => Some (String c EmptyString)
  end.

(** [obj[key] = value] on an object kept as a field list. *)
Fixpoint obj_set (key : string) (value : JsValue) (fields : list (string * JsValue))
  : list (string * JsValue) :=
  match fields with
  | [] => [(key, value)]
  | (k, v) :: rest =>
      if String.eqb k key then (k, value) :: rest else (k, v) :: obj_set key value rest
  end.

(* ====================================================================== *)
(** * The stages of [#handle]                                               *)
(* ====================================================================== *)

Section Pipeline.
Context `{host : Host}.

(** ** Plugins *)

(** The guard of the three plugin loops:
    [key !== '*' && url.pathname[0] !== key + '/' && url.pathname !== key],
    under which the key is skipped ([continue]). *)
Definition plugin_skipped (key pathname : string) : bool :=
  negb (String.eqb key "*")
  && negb (match first_char pathname with
           | Some c => String.eqb c (key +:+ "/")
           | None => false
           end)
  && negb (String.eqb pathname key).

Definition plugin_applies (key pathname : string) : bool :=
  negb (plugin_skipped key pathname).

(** Lifting of a completion into the monad. *)
Definition lift {A} (c : Completion A) : M A := ([], c).

(** Calling a context callback: its [res.*] calls are applied in order to
    the response state, then it returns or throws. *)
Definition invoke (f : Callback) (c : Context) (s : ResState) : M (JsValue * ResState) :=
  let '(calls, completion) := f c in
  s' <- lift (apply_calls calls s) ;;
  result <- lift completion ;;
  ret (result, s').

(** [for (let i = 0; i < length; ++i) await plugins[key][i](request)] *)
Fixpoint run_raw_hooks (key : string) (i : nat) (hooks : list RawCallback)
    (request : Request) : M unit :=
  match hooks with
  | [] => ret tt
  | h :: rest =>
      emit (EvHook beforeParsing key i) ;;;
      _ <- lift (h request) ;;
      run_raw_hooks key (S i) rest request
  end.

Fixpoint run_raw_plugins (registry : list (string * list RawCallback))
    (request : Request) : M unit :=
  match registry with
  | [] => ret tt
  | (key, hooks) :: rest =>
      if plugin_skipped key (pathname request) then run_raw_plugins rest request
      else run_raw_hooks key 0 hooks request ;;; run_raw_plugins rest request
  end.

(** [for (let i = 0; i < length; ++i) await plugins[key][i](context)] *)
Fixpoint run_hooks (st : Stage) (key : string) (i : nat) (hooks : list Callback)
    (c : Context) (s : ResState) : M ResState :=
  match hooks with
  | [] => ret s
  | h :: rest =>
      emit (EvHook st key i) ;;;
      r <- invoke h c s ;;
      run_hooks st key (S i) rest c (snd r)
  end.

Fixpoint run_plugins (st : Stage) (registry : list (string * list Callback))
    (c : Context) (s : ResState) : M ResState :=
  match registry with
  | [] => ret s
  | (key, hooks) :: rest =>
      if plugin_skipped key (pathname (ctx_raw c)) then run_plugins st rest c s
      else s' <- run_hooks st key 0 hooks c s ;; run_plugins st rest c s'
  end.

(** ** Validation *)

(** The names under which a plain object has a value before any
    assignment: [constructor], which it inherits, and [__proto__], its
    prototype.  Every other inherited name has a capital letter, so that no
    lower-cased name equals it. *)
Definition inherited_name (key : string) : bool :=
  String.eqb key "constructor" || String.eqb key "__proto__".

(** The header loop: at most 50 entries are visited, and an entry is stored
    under its lower-cased name unless [headers[name]] is truthy already: a
    non-empty value stored before, or the value the object inherits. *)
Definition parse_headers (request : Request) : gmap string string :=
  fold_left
    (fun (headers : gmap string string) '(key, value) =>
       if inherited_name (toLowerCase key) || header_truthy headers (toLowerCase key)
       then headers
       else <[toLowerCase key := value]> headers)
    (firstn 50 (req_headers request)) ∅.

(** The coercion of one query value. *)
Definition coerce (value : string) : JsValue :=
  if String.eqb value EmptyString || String.eqb value "true" then JBool true
  else if String.eqb value "false" then JBool false
  else if includes "," value then JArr (map JStr (split "," value))
  else if negb (isNaN_Number value) && negb (isNaN_parseFloat value) then JNum (parseInt value)
  else if String.eqb value "undefined" then JUndefined
  else if String.eqb value "null" then JNull
  else JStr value.

(** [for (const [key, value] of url.searchParams) query[key] = ...] *)
Definition parse_query (request : Request) : gmap string JsValue :=
  fold_left
    (fun (query : gmap string JsValue) '(key, value) => <[key := coerce value]> query)
    (searchParams request) ∅.

(** The [split / map / reduce] chain followed by [delete cookies['']]. *)
Definition parse_cookie_text (cookiesHeader : string) : gmap string JsValue :=
  delete EmptyString
    (fold_left
       (fun (acc : gmap string JsValue) '(key, value) => <[key := value]> acc)
       (map (fun pair => split_pair pair EmptyString)
            (split_semicolons cookiesHeader EmptyString false))
       ∅).

(** The [try { ... } catch (_err) { cookies = {} }] block of the cookie
    stage. *)
Definition parse_cookies (request : Request) : M (gmap string JsValue) :=
  try_catch
    (let cookiesHeader := default EmptyString (headers_get request "cookies") in
     if (1000 <? String.length cookiesHeader)%nat then throw (Exception 413)
     else ret (parse_cookie_text cookiesHeader))
    (fun _err => ret ∅).

(** [request.headers.get('content-type') === 'multipart/form-data'] *)
Definition is_multipart (request : Request) : bool :=
  match headers_get request "content-type" with
  | Some v => String.eqb v "multipart/form-data"
  | None => false
  end.

(** The [try { ... } catch (err) { throw new Exception(...) }] block of the
    body stage. *)
Definition read_body (schema : Schema) (body_schema : SubSchema) (request : Request)
  : M JsValue :=
  try_catch
    (if is_object_schema body_schema then
       if transform schema && is_multipart request then
         emit (EvBodyRead AsFormData 3000) ;;;
         entries <- lift (deadline (formData request) 3000) ;;
         ret (JObj (fold_left (fun body '(key, value) => obj_set key value body) entries []))
       else
         emit (EvBodyRead AsJson 3000) ;;;
         lift (deadline (json request) 3000)
     else if is_string_schema body_schema then
       emit (EvBodyRead AsText 3000) ;;;
       t <- lift (deadline (text request) 3000) ;;
       ret (JStr t)
     else ret JUndefined)
    (fun err => throw (Exception (match err with DeadlineError => 413 | _ => 400 end))).

(** The values the validation stage leaves in [headers], [query],
    [cookies] and [body]. *)
Record Parsed : Type := {
  parsed_headers : gmap string string;
  parsed_query : gmap string JsValue;
  parsed_cookies : gmap string JsValue;
  parsed_body : JsValue;
}.

(** [if (this.#validator && schema) { ... }] *)
Definition validation (v : option Validator) (schema : option Schema) (request : Request)
  : M Parsed :=
  match v, schema with
  | Some v, Some schema =>
      headers <- match schema_headers schema with
                 | Some sub =>
                     let headers := parse_headers request in
                     validate PHeaders v sub (SDict (JStr <$> headers)) ;;; ret headers
                 | None => ret ∅
                 end ;;
      query <- match schema_query schema with
               | Some sub =>
                   let query := parse_query request in
                   validate PQuery v sub (SDict query) ;;; ret query
               | None => ret ∅
               end ;;
      cookies <- match schema_cookies schema with
                 | Some sub =>
                     cookies <- parse_cookies request ;;
                     validate PCookies v sub (SDict cookies) ;;; ret cookies
                 | None => ret ∅
                 end ;;
      body <- match schema_body schema with
              | Some sub =>
                  body <- read_body schema sub request ;;
                  validate PBody v sub (SValue body) ;;; ret body
              | None => ret JUndefined
              end ;;
      ret {| parsed_headers := headers; parsed_query := query;
             parsed_cookies := cookies; parsed_body := body |}
  | _, _ =>
      ret {| parsed_headers := ∅; parsed_query := ∅; parsed_cookies := ∅;
             parsed_body := JUndefined |}
  end.

(** ** Route handling *)

(** One turn of the handler loop up to its test: the call of the handler,
    then [if (result) responseBody = result]. *)
Definition call_handler (h : Callback) (c : Context) (s : ResState) : M ResState :=
  r <- invoke h c s ;;
  let '(result, s) := r in
  ret (if truthy result then set_body result s else s).

(** The handler loop; [i] is the index of the head of [route] in the
    matched route. *)
Fixpoint run_handlers (route : list Route) (i : nat) (c : Context) (s : ResState)
  : M ResState :=
  match route with
  | [] => ret s
  | RSchema _ :: rest => run_handlers rest (S i) c s
  | RHandler h :: rest =>
      emit (EvHandler i) ;;;
      s <- call_handler h c s ;;
      if truthy (responseBody s) then ret s
      else run_handlers rest (S i) c s
  end.

(** ** Constructing the response *)

(** [new Response(body, { headers: responseHeaders, status: responseCode })]:
    the record of what the constructor is given.  The constructor of the
    host refuses a status outside 200..599, and a body together with the
    status 204, 205 or 304. *)
Definition new_Response (b : JsValue) (s : ResState) : Response :=
  {| body := b; status := responseCode s; headers := responseHeaders s |}.

(** The number read from a value typed [{ code: number }]. *)
Definition to_status (v : JsValue) : Z :=
  match v with JNum (Int z) => z | _ => 0 end.

Definition is_nullish (v : JsValue) : bool :=
  match v with JUndefined | JNull => true | _ => false end.

(** [if (responseCode !== 200 && responseCode !== 301)
      delete responseHeaders['cache-control']] *)
Definition strip_cache_control (s : ResState) : ResState :=
  if negb (responseCode s =? 200) && negb (responseCode s =? 301)
  then set_headers (delete "cache-control" (responseHeaders s)) s
  else s.

Definition construct_response (s : ResState) : M Response :=
  let s := strip_cache_control s in
  if header_truthy (responseHeaders s) "location" then ret (new_Response JNull s)
  else if negb (truthy (responseBody s)) then ret (new_Response JNull s)
  else if requiresFormatting s && negb (is_nullish (responseBody s)) then
    if is_string (responseBody s) then
      let s := set_header "content-length"
                 (toString (String.length (match responseBody s with JStr t => t | _ => EmptyString end))) s in
      let s := default_content_type "text/plain; charset=utf-8" s in
      ret (new_Response (responseBody s) s)
    else
      match JSON_stringify (responseBody s) with
      | None => throw TypeError
      | Some serialized =>
          let s := set_body (JStr serialized) s in
          let s := set_header "content-length" (toString (String.length serialized)) s in
          let s := default_content_type "application/json; charset=utf-8" s in
          let s := if truthy (prop_code (responseBody s))
                   then set_code (to_status (prop_code (responseBody s))) s
                   else s in
          ret (new_Response (responseBody s) s)
      end
  else ret (new_Response (responseBody s) s).

(** ** The request handler [#handle] *)

(** [...(this.#cors && { 'access-control-allow-origin': this.#cors })] *)
Definition cors_headers (app : App) : gmap string string :=
  match cors app with
  | Some origin =>
      if string_truthy origin then {[ "access-control-allow-origin" := origin ]} else ∅
  | None => ∅
  end.

Definition is_preflight (request : Request) : bool :=
  String.eqb (method request) "OPTIONS"
  && headers_has request "origin"
  && headers_has request "access-control-request-method".

Definition preflight_response (app : App) (request : Request) : Response :=
  {| body := JNull;
     status := 204;
     headers :=
       <["access-control-max-age" := "600"]>
       (<["access-control-allow-credentials" := "false"]>
       (<["access-control-allow-headers" :=
            default "*" (headers_get request "access-control-request-headers")]>
       (<["access-control-allow-methods" := "*"]>
       (cors_headers app)))) |}.

(** The initial [responseHeaders].  The template [`max-age=${this.#cache ?? 0}`]
    prints the configuration object itself when a cache is configured. *)
Definition initial_headers (app : App) (request : Request) : gmap string string :=
  if String.eqb (method request) "GET" then
    <["cache-control" :=
        "max-age=" +:+ match cache app with Some _ => "[object Object]" | None => "0" end]>
    (cors_headers app)
  else cors_headers app.

Definition initial_state (app : App) (request : Request) : ResState :=
  {| responseCode := 200; responseHeaders := initial_headers app request;
     responseBody := JNull; requiresFormatting := true |}.

(** [typeof route[0] !== 'function' ? route[0] : null] *)
Definition schema_of (route : list Route) : option Schema :=
  match route with
  | RSchema s :: _ => Some s
  | _ => None
  end.

Definition handle (app : App) (request : Request) (env : gmap string JsValue)
    (ip : option string) (params : gmap string string) (route : list Route)
  : M Response :=
  if is_preflight request then ret (preflight_response app request)
  else
    run_raw_plugins (plugins_beforeParsing app) request ;;;
    parsed <- validation (validator app) (schema_of route) request ;;
    let context :=
      {| ctx_env := env; ctx_runtime := runtime app; ctx_ip := ip; ctx_raw := request;
         ctx_body := parsed_body parsed; ctx_cookies := parsed_cookies parsed;
         ctx_headers := parsed_headers parsed; ctx_params := params;
         ctx_query := parsed_query parsed |} in
    s <- run_plugins beforeHandling (plugins_beforeHandling app) context
           (initial_state app request) ;;
    s <- run_handlers route 0 context s ;;
    s <- run_plugins beforeResponding (plugins_beforeResponding app) context s ;;
    construct_response s.

(* ====================================================================== *)
(** * The fetch handler                                                     *)
(* ====================================================================== *)

(** Modelled from the spec: [Exception.ts], the class of the structured
    exception, is not among the sources.  Its [response(request)] method
    "produces a JSON [{message, code}] body matching that code": the body is
    the serialization of an object with the two fields, and the status is
    the code the exception carries.  The text of the message for a code is
    a parameter. *)
Definition Exception_response (message : Z -> string) (code : Z) : Response :=
  {| body := default JUndefined
               (JStr <$> JSON_stringify
                  (JObj [("message", JStr (message code)); ("code", JNum (Int code))]));
     status := code;
     headers := {[ "content-type" := "application/json; charset=utf-8" ]} |}.

(** The response built in the last branch of the [catch] block. *)
Definition fallback_response : Response :=
  {| body := default JUndefined
               (JStr <$> JSON_stringify
                  (JObj [("message", JStr "Something Went Wrong"); ("code", JNum (Int 500))]));
     status := 500;
     headers := {[ "content-type" := "application/json; charset=utf-8;" ]} |}.

(** The [catch (err)] block of [fetch]. *)
Definition translate (message : Z -> string) (app : App) (request : Request) (err : Thrown)
  : M Response :=
  match err with
  | Exception code => ret (Exception_response message code)
  | _ =>
      match error app with
      | Some handler => lift (handler err request)
      | None => ret fallback_response
      end
  end.

(** The second argument of [fetch]: the bindings, or the connection
    information whose [remoteAddr.hostname] is the peer address. *)
Record FetchEnv : Type := {
  remoteAddr : option string;
  bindings : gmap string JsValue;
}.

(** [env?.remoteAddr ? env.remoteAddr.hostname
      : request.headers.get('cf-connecting-ip') ?? undefined] *)
Definition resolve_ip (request : Request) (env : FetchEnv) : option string :=
  match remoteAddr env with
  | Some hostname => Some hostname
  | None => headers_get request "cf-connecting-ip"
  end.

(** [this.#cache && request.method === 'GET' && this.#runtime === 'cloudflare'] *)
Definition cache_enabled (app : App) (request : Request) : bool :=
  match cache app, runtime app with
  | Some _, cloudflare => String.eqb (method request) "GET"
  | _, _ => false
  end.

(** [fetch(request, env, context)].  [has_context] tells whether the third
    argument was given and [cached] is what [cache.match(request)] yields
    (the cache of the host is taken to answer).
    A thrown completion of [fetch] is a rejection of the promise it
    returns.  The calls of [#log], which only print, are left out. *)
Definition fetch (message : Z -> string) (app : App) (request : Request) (env : FetchEnv)
    (has_context : bool) (cached : option Response) : M Response :=
  let ip := resolve_ip request env in
  match (if cache_enabled app request then cached else None) with
  | Some cachedResponse => ret cachedResponse
  | None =>
      match router_match app (method request) (pathname request) with
      | None =>
          match notFound app with
          | Some handler =>
              (* [return this.#notFound(request)]: a synchronous throw is
                 caught by the [catch] block, a rejected promise is not *)
              match handler request with
              | NFResponse r => ret r
              | NFThrows t => try_catch (throw t) (translate message app request)
              | NFRejects t => throw t
              end
          | None => try_catch (throw (Exception 404)) (translate message app request)
          end
      | Some (params, route) =>
          try_catch
            (response <- handle app request (bindings env) ip params route ;;
             (if cache_enabled app request && ok response
                 && match runtime app with cloudflare => true | deno => false end
                 && has_context
              then emit EvCachePut else ret tt) ;;;
             ret response)
            (translate message app request)
      end
  end.

End Pipeline.

(* ====================================================================== *)
(** * The built-in functions on the ASCII fragment                          *)
(* ====================================================================== *)

Module Builtins.

Definition is_digit (c : ascii) : bool :=
  let n := nat_of_ascii c in Nat.leb 48 n && Nat.leb n 57.

Definition hex_value (c : ascii) : option Z :=
  let n := nat_of_ascii c in
  if Nat.leb 48 n && Nat.leb n 57 then Some (Z.of_nat (n - 48))
  else if Nat.leb 97 n && Nat.leb n 102 then Some (Z.of_nat (n - 87))
  else if Nat.leb 65 n && Nat.leb n 70 then Some (Z.of_nat (n - 55))
  else None.

Definition digit_value (radix : Z) (c : ascii) : option Z :=
  match hex_value c with
  | Some d => if d <? radix then Some d else None
  | None => None
  end.

Fixpoint trim_start (s : string) : string :=
  match s with
  | String c r => if is_space c then trim_start r else s
  | EmptyString => EmptyString
  end.

Fixpoint all_space (s : string) : bool :=
  match s with
  | String c r => is_space c && all_space r
  | EmptyString => true
  end.

(** Skips a run of decimal digits; [None] when there is none. *)
Fixpoint skip_digits (s : string) (seen : bool) : option string :=
  match s with
  | String c r => if is_digit c then skip_digits r true else if seen then Some s else None
  | EmptyString => if seen then Some s else None
  end.

Definition skip_sign (s : string) : string :=
  match s with
  | String c r => if Ascii.eqb c "+" || Ascii.eqb c "-" then r else s
  | EmptyString => s
  end.

(** Skips an exponent part when there is a complete one. *)
Definition skip_exponent (s : string) : string :=
  match s with
  | String c r =>
      if Ascii.eqb c "e" || Ascii.eqb c "E" then
        match skip_digits (skip_sign r) false with
        | Some rest => rest
        | None => s
        end
      else s
  | EmptyString => s
  end.

Definition skip_prefix (p s : string) : option string :=
  if String.prefix p s then Some (String.substring (String.length p) (String.length s - String.length p) s)
  else None.

(** Skips the longest unsigned decimal literal at the head of [s]. *)
Definition skip_unsigned_decimal (s : string) : option string :=
  match skip_prefix "Infinity" s with
  | Some rest => Some rest
  | None =>
      match skip_digits s false with
      | Some rest =>
          match rest with
          | String "." r =>
              Some (skip_exponent (default r (skip_digits r false)))
          | _ => Some (skip_exponent rest)
          end
      | None =>
          match s with
          | String "." r =>
              match skip_digits r false with
              | Some rest => Some (skip_exponent rest)
              | None => None
              end
          | _ => None
          end
      end
  end.

(** Skips the digits of a literal in the given radix. *)
Fixpoint skip_radix_digits (radix : Z) (s : string) (seen : bool) : option string :=
  match s with
  | String c r =>
      match digit_value radix c with
      | Some _ => skip_radix_digits radix r true
      | None => if seen then Some s else None
      end
  | EmptyString => if seen then Some s else None
  end.

Definition skip_non_decimal (s : string) : option string :=
  match s with
  | String "0" (String c r) =>
      if Ascii.eqb c "x" || Ascii.eqb c "X" then skip_radix_digits 16 r false
      else if Ascii.eqb c "o" || Ascii.eqb c "O" then skip_radix_digits 8 r false
      else if Ascii.eqb c "b" || Ascii.eqb c "B" then skip_radix_digits 2 r false
      else None
  | _ => None
  end.

(** [isNaN(Number(s))]: the text between the surrounding white space is
    neither empty nor a numeric literal. *)
Definition isNaN_Number (s : string) : bool :=
  let t := trim_start s in
  if all_space t then false
  else
    match skip_non_decimal t with
    | Some rest => negb (all_space rest)
    | None =>
        match skip_unsigned_decimal (skip_sign t) with
        | Some rest => negb (all_space rest)
        | None => true
        end
    end.

(** [isNaN(parseFloat(s))]: no prefix of the trimmed text is a decimal
    literal. *)
Definition isNaN_parseFloat (s : string) : bool :=
  match skip_unsigned_decimal (skip_sign (trim_start s)) with
  | Some _ => false
  | None => true
  end.

Fixpoint read_digits (radix : Z) (s : string) (acc : option Z) : option Z :=
  match s with
  | String c r =>
      match digit_value radix c with
      | Some d => read_digits radix r (Some (default 0 acc * radix + d))
      | None => acc
      end
  | EmptyString => acc
  end.

(** [parseInt(s)] without a radix argument. *)
Definition parseInt (s : string) : JsNumber :=
  let t := trim_start s in
  let negative := match t with String "-" _ => true | _ => false end in
  let t := skip_sign t in
  let '(radix, t) :=
    match t with
    | String "0" (String c r) =>
        if Ascii.eqb c "x" || Ascii.eqb c "X" then (16, r) else (10, t)
    | _ => (10, t)
    end in
  match read_digits radix t None with
  | Some n => Int (if negative then - n else n)
  | None => NaN
  end.

(** The double quote character. *)
Definition dquote : ascii := ascii_of_nat 34.

Definition hex_digit (n : nat) : ascii :=
  if Nat.ltb n 10 then ascii_of_nat (48 + n) else ascii_of_nat (87 + n).

(** The escaping of one character inside a JSON string. *)
Definition quote_char (c : ascii) : string :=
  let n := nat_of_ascii c in
  if Ascii.eqb c dquote then String "\" (String dquote EmptyString)
  else if Ascii.eqb c "\" then "\\"
  else if Nat.eqb n 8 then "\b"
  else if Nat.eqb n 9 then "\t"
  else if Nat.eqb n 10 then "\n"
  else if Nat.eqb n 12 then "\f"
  else if Nat.eqb n 13 then "\r"
  else if Nat.ltb n 32 then
    "\u00" +:+ String (hex_digit (n / 16)) (String (hex_digit (n mod 16)) EmptyString)
  else String c EmptyString.

Fixpoint quote_chars (s : string) : string :=
  match s with
  | String c r => quote_char c +:+ quote_chars r
  | EmptyString => EmptyString
  end.

Definition quote (s : string) : string :=
  String dquote (quote_chars s) +:+ String dquote EmptyString.

Fixpoint somes {A} (l : list (option A)) : list A :=
  match l with
  | Some a :: r => a :: somes r
  | None :: r => somes r
  | [] => []
  end.

(** [JSON.stringify(v)] on the values of the model; a host object has no
    enumerable property of its own. *)
Fixpoint JSON_stringify (v : JsValue) : option string :=
  match v with
  | JUndefined => None
  | JNull => Some "null"
  | JBool b => Some (if b then "true" else "false")
  | JNum NaN => Some "null"
  | JNum (Int z) => Some (NilZero.string_of_int (Z.to_int z))
  | JStr s => Some (quote s)
  | JArr items =>
      Some ("[" +:+ String.concat "," (map (fun x => default "null" (JSON_stringify x)) items)
            +:+ "]")
  | JObj fields =>
      Some ("{" +:+ String.concat ","
                      (somes (map (fun kv => match kv with
                                             | (k, x) =>
                                                 match JSON_stringify x with
                                                 | Some t => Some (quote k +:+ ":" +:+ t)
                                                 | None => None
                                                 end
                                             end) fields))
            +:+ "}")
  | JHost _ _ => Some "{}"
  end.

End Builtins.

#[export] Instance ascii_host : Host := {|
  isNaN_Number := Builtins.isNaN_Number;
  isNaN_parseFloat := Builtins.isNaN_parseFloat;
  parseInt := Builtins.parseInt;
  JSON_stringify := Builtins.JSON_stringify;
|}.

(** Reason phrases used when the model is run. *)
Definition reason_phrase (code : Z) : string :=
  if code =? 400 then "Bad Request"
  else if code =? 404 then "Not Found"
  else if code =? 413 then "Payload Too Large"
  else "Error".

(* ====================================================================== *)
(** * The environment accessor of [x/env.ts]                                *)
(* ====================================================================== *)

Module X.

(** Objects are told apart by their identity. *)
Definition ref : Type := nat.

(** A value as the accessor handles it: an object, known by its identity,
    or any other value. *)
Inductive EnvValue : Type :=
| EnvObject (r : ref)
| EnvOther (v : JsValue).

(** [if (ENV)]: an object is truthy, another value by the rules of the
    language ([undefined] and [null] are not). *)
Definition env_truthy (e : EnvValue) : bool :=
  match e with
  | EnvObject _ => true
  | EnvOther v => truthy v
  end.

(** What the accessor reads from its argument: [c.runtime] and the value
    of [c.__app.env], which is read as it is, an object or not. *)
Record Context : Type := {
  runtime : Runtime;
  app_env : EnvValue;
}.

(** The module state: the variable [ENV] ([undefined] when the module is
    loaded), the objects allocated so far and the variables of the process
    as [Deno.env] holds them. *)
Record World : Type := {
  ENV : EnvValue;
  heap : gmap ref (gmap string JsValue);
  process_env : gmap string JsValue;
}.

(** [Deno.env.toObject()]: a new object holding a snapshot of the process
    variables. *)
Definition toObject (w : World) : ref * World :=
  let r := fresh (dom (heap w)) in
  (r, {| ENV := ENV w; heap := <[r := process_env w]> (heap w);
         process_env := process_env w |}).

Definition set_ENV (e : EnvValue) (w : World) : World :=
  {| ENV := e; heap := heap w; process_env := process_env w |}.

(** [env(c)]: the value returned and the state left. *)
Definition env (c : Context) (w : World) : EnvValue * World :=
  if env_truthy (ENV w) then (ENV w, w)
  else
    let '(e, w) := match runtime c with
                   | deno => let '(r, w) := toObject w in (EnvObject r, w)
                   | cloudflare => (app_env c, w)
                   end in
    (e, set_ENV e w).

(** What the rest of the program can do between two calls: everything
    except the variable [ENV], which is private to the module. *)
Definition interfere (f : World -> World) (w : World) : World :=
  {| ENV := ENV w; heap := heap (f w); process_env := process_env (f w) |}.

(** Successive calls [env(c1); env(c2); ...], each followed by some
    interference of the rest of the program. *)
Fixpoint env_calls (cs : list (Context * (World -> World))) (w : World) : list EnvValue :=
  match cs with
  | [] => []
  | (c, f) :: rest =>
      let '(e, w) := env c w in
      e :: env_calls rest (interfere f w)
  end.

(** The state of a module just loaded, a context whose bindings are
    missing and one that has them. *)
Definition loaded : World :=
  {| ENV := EnvOther JUndefined; heap := ∅; process_env := ∅ |}.

Definition unbound_context : Context :=
  {| runtime := cloudflare; app_env := EnvOther JUndefined |}.

Definition bound_context (r : ref) : Context :=
  {| runtime := cloudflare; app_env := EnvObject r |}.

End X.

(* ====================================================================== *)
(** * Specification-side definitions                                        *)
(* ====================================================================== *)

Section Specification.
Context `{host : Host}.

(** ** Query coercion, as the specification words it *)

(** "A value that parses fully as a number": both the conversion of the
    whole text and the float parse yield a number. *)
Definition parses_as_number (value : string) : Prop :=
  isNaN_Number value = false /\ isNaN_parseFloat value = false.

(** The seven rules in their priority order: a rule applies only when none
    of the rules before it does. *)
Inductive Coerces : string -> JsValue -> Prop :=
| coerces_true value :
    value = EmptyString \/ value = "true" ->
    Coerces value (JBool true)
| coerces_false value :
    value = "false" ->
    Coerces value (JBool false)
| coerces_list value :
    value <> EmptyString -> value <> "true" -> value <> "false" ->
    includes "," value = true ->
    Coerces value (JArr (map JStr (split "," value)))
| coerces_number value :
    value <> EmptyString -> value <> "true" -> value <> "false" ->
    includes "," value = false ->
    parses_as_number value ->
    Coerces value (JNum (parseInt value))
| coerces_undefined value :
    includes "," value = false -> ~ parses_as_number value ->
    value = "undefined" ->
    Coerces value JUndefined
| coerces_null value :
    includes "," value = false -> ~ parses_as_number value ->
    value = "null" ->
    Coerces value JNull
| coerces_raw value :
    value <> EmptyString -> value <> "true" -> value <> "false" ->
    includes "," value = false -> ~ parses_as_number value ->
    value <> "undefined" -> value <> "null" ->
    Coerces value (JStr value).

(** ** The handler chain *)

(** The handlers of a route with their positions, schema objects left
    out. *)
Fixpoint handlers_of (route : list Route) (i : nat) : list (nat * Callback) :=
  match route with
  | [] => []
  | RSchema _ :: rest => handlers_of rest (S i)
  | RHandler h :: rest => (i, h) :: handlers_of rest (S i)
  end.

(** A [res.*] call that sets the response body. *)
Definition sets_body (call : ResCall) : bool :=
  match call with
  | res_blob _ _ | res_stream _ | res_formData _ | res_buffer _ _
  | res_json _ _ | res_text _ _ => true
  | res_code _ | res_cookie _ _ _ | res_header _ _ | res_redirect _ _ => false
  end.

(** The stopping rule as the specification states it: the handler
    returned a non-empty value, or it set the response body through a
    [res.*] call. *)
Definition stops_as_stated (h : Callback) (c : Context) : bool :=
  match snd (h c) with
  | Return v => truthy v
  | Throw _ => false
  end
  || existsb sets_body (fst (h c)).

(** The handlers of [hs] are called in turn from state [s]; each completes
    and leaves an empty response body, and the last leaves state [s']. *)
Inductive passes (c : Context) : list (nat * Callback) -> ResState -> ResState -> Prop :=
| passes_nil s : passes c [] s s
| passes_cons i h hs s s1 s2 :
    outcome (call_handler h c s) = Return s1 ->
    truthy (responseBody s1) = false ->
    passes c hs s1 s2 ->
    passes c ((i, h) :: hs) s s2.

(** The handler chain as the specification states it: once a handler has
    returned a non-empty value or has set the response body through a
    [res.*] call, no later handler is called. *)
Definition chain_stops_as_stated (route : list Route) (c : Context) (s : ResState) : Prop :=
  forall pre j h post,
    handlers_of route 0 = pre ++ (j, h) :: post ->
    stops_as_stated h c = true ->
    forall k, In k (map fst post) -> ~ In (EvHandler k) (trace (run_handlers route 0 c s)).

(** ** Body reads *)

(** How the read of kind [k] fails under [deadline(_, delay)], if it
    does. *)
Definition read_failure (request : Request) (k : BodyKind) (delay : N) : option Thrown :=
  match k with
  | AsFormData =>
      match deadline (formData request) delay with Throw t => Some t | Return _ => None end
  | AsJson =>
      match deadline (json request) delay with Throw t => Some t | Return _ => None end
  | AsText =>
      match deadline (text request) delay with Throw t => Some t | Return _ => None end
  end.

(** A trace without body reads. *)
Definition quiet (l : list Event) : Prop :=
  forall k delay, ~ In (EvBodyRead k delay) l.

End Specification.

(* ====================================================================== *)
(** * Sample requests, contexts and applications                            *)
(* ====================================================================== *)

Definition sample_request (m p : string) (hs : list (string * string)) : Request :=
  {| method := m; req_headers := hs; pathname := p; searchParams := [];
     formData := Never; json := Never; text := Never |}.

Definition sample_context (r : Request) : Context :=
  {| ctx_env := ∅; ctx_runtime := deno; ctx_ip := None; ctx_raw := r;
     ctx_body := JUndefined; ctx_cookies := ∅; ctx_headers := ∅; ctx_params := ∅;
     ctx_query := ∅ |}.

(** An application on the [deno] runtime with the given validator and
    plugins, one route for every method and path, and nothing else
    configured. *)
Definition sample_app (v : option Validator) (route : list Route)
    (before_handling : list (string * list Callback)) : App :=
  {| router_match := fun _ _ => Some (∅, route);
     runtime := deno; cors := None; cache := None; validator := v;
     notFound := None; error := None;
     plugins_beforeParsing := [];
     plugins_beforeHandling := before_handling;
     plugins_beforeResponding := [] |}.

Definition no_env : FetchEnv := {| remoteAddr := None; bindings := ∅ |}.

(** A handler that performs the given calls and returns the given value. *)
Definition handler (calls : list ResCall) (result : JsValue) : Callback :=
  fun _ => (calls, Return result).

(** A validator that accepts everything, and one that accepts nothing. *)
Definition accept_all : Validator :=
  {| name := "typebox"; check := Some (fun _ _ => true) |}.

Definition reject_all : Validator :=
  {| name := "typebox"; check := Some (fun _ _ => false) |}.

Definition object_schema : SubSchema :=
  {| zod_typeName := None; typebox_kind := Some "Object"; safeParse := None |}.

Definition string_schema : SubSchema :=
  {| zod_typeName := None; typebox_kind := Some "String"; safeParse := None |}.

Definition cookie_schema : Schema :=
  {| schema_headers := None; schema_query := None; schema_cookies := Some object_schema;
     schema_body := None; transform := false |}.

Definition body_schema (sub : SubSchema) : Schema :=
  {| schema_headers := None; schema_query := None; schema_cookies := None;
     schema_body := Some sub; transform := false |}.

(** A cookie header of 1001 characters. *)
Definition long_cookie : string :=
  "a=" +:+ String.concat EmptyString (repeat "x" 999).

(** The value [{ code: 404, msg: 'x' }]. *)
Definition not_found_body : JsValue :=
  JObj [("code", JNum (Int 404)); ("msg", JStr "x")].

(** A preflight request, and an application whose validator rejects
    everything and whose plugin and handler set status 500. *)
Definition preflight_request : Request :=
  sample_request "OPTIONS" "/items"
    [("origin", "https://example.org"); ("access-control-request-method", "PUT")].

Definition guarded_route : list Route :=
  [RSchema cookie_schema; RHandler (handler [res_code 500] (JStr "never"))].

Definition guarded_app : App :=
  sample_app (Some reject_all) guarded_route [("*", [handler [res_code 500] JUndefined])].

(** A handler that sets the empty text as the body, and one that returns
    a text. *)
Definition empty_text_handler : Callback := handler [res_text EmptyString None] JUndefined.
Definition second_handler : Callback := handler [] (JStr "second").

Definition blank_state : ResState :=
  {| responseCode := 200; responseHeaders := ∅; responseBody := JNull;
     requiresFormatting := true |}.

Definition root_context : Context := sample_context (sample_request "GET" "/" []).

(** A request whose JSON body never arrives, one whose body is not JSON,
    and a route that validates an object body. *)
Definition stalled_request : Request :=
  {| method := "POST"; req_headers := []; pathname := "/items"; searchParams := [];
     formData := Never; json := Never; text := Never |}.

Definition malformed_request : Request :=
  {| method := "POST"; req_headers := []; pathname := "/items"; searchParams := [];
     formData := Never;
     json := Settles 12 (Throw (OtherError (JStr "SyntaxError")));
     text := Settles 12 (Return "{") |}.

Definition body_route : list Route :=
  [RSchema (body_schema object_schema); RHandler (handler [] (JStr "ok"))].

Definition body_app : App := sample_app (Some accept_all) body_route [].

(** A handler that throws something that is not an [Exception]. *)
Definition failing_handler : Callback :=
  fun _ => ([], Throw (OtherError (JStr "boom"))).

(** What answers a thrown value: for an [Exception] a response with the
    status of its code and the JSON text of [{message, code}] as body; for
    any other value the response the configured error handler returns, and
    without such a handler a response with status 500 and the JSON text of
    [{message: 'Something Went Wrong', code: 500}] as body. *)
Definition answers `{host : Host} (message : Z -> string) (app : App) (request : Request)
    (t : Thrown) (r : Response) : Prop :=
  match t with
  | Exception code =>
      status r = code
      /\ body r = default JUndefined
                    (JStr <$> JSON_stringify
                       (JObj [("message", JStr (message code)); ("code", JNum (Int code))]))
  | _ =>
      match error app with
      | Some handler => handler t request = Return r
      | None =>
          status r = 500
          /\ body r = default JUndefined
                        (JStr <$> JSON_stringify
                           (JObj [("message", JStr "Something Went Wrong");
                                  ("code", JNum (Int 500))]))
      end
  end.

(** An application whose only handler throws and whose error handler
    throws in turn, and one whose error handler answers. *)
Definition failing_error_app : App :=
  {| router_match := fun _ _ => Some (∅, [RHandler failing_handler]);
     runtime := deno; cors := None; cache := None; validator := None;
     notFound := None;
     error := Some (fun _ _ => Throw (OtherError (JStr "no handler for this")));
     plugins_beforeParsing := []; plugins_beforeHandling := [];
     plugins_beforeResponding := [] |}.

Definition apology : Response :=
  {| body := JStr "sorry"; status := 500; headers := ∅ |}.

Definition answering_app : App :=
  {| router_match := fun _ _ => Some (∅, [RHandler failing_handler]);
     runtime := deno; cors := None; cache := None; validator := None;
     notFound := None;
     error := Some (fun _ _ => Return apology);
     plugins_beforeParsing := []; plugins_beforeHandling := [];
     plugins_beforeResponding := [] |}.

(** An application without routes whose not-found handler returns a
    promise that rejects. *)
Definition rejecting_app : App :=
  {| router_match := fun _ _ => None;
     runtime := deno; cors := None; cache := None; validator := None;
     notFound := Some (fun _ => NFRejects (OtherError (JStr "lost")));
     error := None;
     plugins_beforeParsing := []; plugins_beforeHandling := [];
     plugins_beforeResponding := [] |}.

(** An application with one plugin under the prefix [/api] at each of the
    three stages; every plugin would set status 500. *)
Definition prefixed_app : App :=
  {| router_match := fun _ _ => Some (∅, [RHandler (handler [] (JStr "ok"))]);
     runtime := deno; cors := None; cache := None; validator := None;
     notFound := None; error := None;
     plugins_beforeParsing := [("/api", [fun _ => Return JUndefined])];
     plugins_beforeHandling := [("/api", [handler [res_code 500] JUndefined])];
     plugins_beforeResponding := [("/api", [handler [res_code 500] JUndefined])] |}.

(* ====================================================================== *)
(** * Registration: the constructor, [use] and the route methods            *)
(* ====================================================================== *)

(** [new Error(message)] *)
Definition Error (message : string) : Thrown := OtherError (JStr message).

(** A plugin object: the callbacks it defines. *)
Record PluginMethods : Type := {
  on_beforeParsing : option RawCallback;
  on_beforeHandling : option Callback;
  on_beforeResponding : option Callback;
}.

(** An argument of [use]: a prefix, a collection (its [routes], each a
    method, a url and the handlers) or a plugin.  By the signature of [use]
    a prefix begins with a slash. *)
Inductive UseItem : Type :=
| UsePrefix (prefix : string)
| UseCollection (routes : list (string * string * list Route))
| UsePlugin (plugin : PluginMethods).

(** The fields of an instance that registration writes.  [added] lists the
    calls of [this.#router.add], in order.  A registry of plugins lists its
    keys in the order of their creation, which is the order [for ... in]
    visits them (a key is [*] or begins with a slash, so none is an array
    index). *)
Record Registry : Type := {
  base : option string;
  detected : Runtime;
  added : list (string * string * list Route);
  beforeParsing_plugins : list (string * list RawCallback);
  beforeHandling_plugins : list (string * list Callback);
  beforeResponding_plugins : list (string * list Callback);
}.

(** The constructor, as far as registration goes: [config.base === '/'] is
    no base, and the runtime is [deno] when [globalThis.Deno] exists,
    [cloudflare] when [WebSocketPair] is a function, unknown otherwise. *)
Definition constructor (config_base : option string) (has_Deno has_WebSocketPair : bool)
  : Completion Registry :=
  let base := match config_base with
              | Some b => if String.eqb b "/" then None else Some b
              | None => None
              end in
  let registry rt :=
    {| base := base; detected := rt; added := [];
       beforeParsing_plugins := []; beforeHandling_plugins := [];
       beforeResponding_plugins := [] |} in
  if has_Deno then Return (registry deno)
  else if has_WebSocketPair then Return (registry cloudflare)
  else Throw (Error "Unknown Runtime").

(** [this.#base ? this.#base + path : path] *)
Definition with_base (r : Registry) (path : string) : string :=
  match base r with
  | Some b => if string_truthy b then b +:+ path else path
  | None => path
  end.

(** [this.#router.add(method, path, handlers)] *)
Definition router_add (m path : string) (handlers : list Route) (r : Registry) : Registry :=
  {| base := base r; detected := detected r;
     added := added r ++ [(m, path, handlers)];
     beforeParsing_plugins := beforeParsing_plugins r;
     beforeHandling_plugins := beforeHandling_plugins r;
     beforeResponding_plugins := beforeResponding_plugins r |}.

(** The route methods [get], [delete], [post], [put], [patch] and [head]. *)
Module Methods.
Definition get (url : string) (handler : list Route) (r : Registry) : Registry :=
  router_add "GET" (with_base r url) handler r.
Definition delete (url : string) (handler : list Route) (r : Registry) : Registry :=
  router_add "DELETE" (with_base r url) handler r.
Definition post (url : string) (handler : list Route) (r : Registry) : Registry :=
  router_add "POST" (with_base r url) handler r.
Definition put (url : string) (handler : list Route) (r : Registry) : Registry :=
  router_add "PUT" (with_base r url) handler r.
Definition patch (url : string) (handler : list Route) (r : Registry) : Registry :=
  router_add "PATCH" (with_base r url) handler r.
Definition head (url : string) (handler : list Route) (r : Registry) : Registry :=
  router_add "HEAD" (with_base r url) handler r.
End Methods.

(** [if (plugins[prefix]) plugins[prefix].push(hook) else plugins[prefix] = [hook]] *)
Fixpoint push_plugin {A : Type} (prefix : string) (hook : A) (plugins : list (string * list A))
  : list (string * list A) :=
  match plugins with
  | [] => [(prefix, [hook])]
  | (key, hooks) :: rest =>
      if String.eqb key prefix then (key, hooks ++ [hook]) :: rest
      else (key, hooks) :: push_plugin prefix hook rest
  end.

Definition push_if {A : Type} (prefix : string) (hook : option A)
    (plugins : list (string * list A)) : list (string * list A) :=
  match hook with
  | Some h => push_plugin prefix h plugins
  | None => plugins
  end.

(** [for (const key in item) ...]: every callback of the plugin is
    registered under the prefix, in the registry of its stage. *)
Definition register_plugin (prefix : string) (plugin : PluginMethods) (r : Registry) : Registry :=
  {| base := base r; detected := detected r; added := added r;
     beforeParsing_plugins :=
       push_if prefix (on_beforeParsing plugin) (beforeParsing_plugins r);
     beforeHandling_plugins :=
       push_if prefix (on_beforeHandling plugin) (beforeHandling_plugins r);
     beforeResponding_plugins :=
       push_if prefix (on_beforeResponding plugin) (beforeResponding_plugins r) |}.

(** The loop over the routes of a collection; a url [/] and a prefix [/]
    become empty, the prefix for the rest of the call of [use]. *)
Fixpoint add_collection (routes : list (string * string * list Route)) (prefix : string)
    (r : Registry) : string * Registry :=
  match routes with
  | [] => (prefix, r)
  | (m, url, handlers) :: rest =>
      let url := if String.eqb url "/" then EmptyString else url in
      let prefix := if String.eqb prefix "/" then EmptyString else prefix in
      add_collection rest prefix (router_add m (with_base r (prefix +:+ url)) handlers r)
  end.

(** The loop of [use]; [prefix] is the variable of that name. *)
Fixpoint use_from (items : list UseItem) (prefix : option string) (r : Registry)
  : Completion Registry :=
  match items with
  | [] => Return r
  | UsePrefix p :: rest => use_from rest (Some p) r
  | UseCollection routes :: rest =>
      match prefix with
      | Some p =>
          if string_truthy p then
            let '(p, r) := add_collection routes p r in
            use_from rest (Some p) r
          else Throw (Error "Please define a prefix when attaching a collection!")
      | None => Throw (Error "Please define a prefix when attaching a collection!")
      end
  | UsePlugin plugin :: rest =>
      let p := match prefix with
               | Some p => if string_truthy p then p else "*"
               | None => "*"
               end in
      use_from rest (Some p) (register_plugin p plugin r)
  end.

Definition use (items : list UseItem) (r : Registry) : Completion Registry :=
  use_from items None r.

(** The keys of the three registries. *)
Definition plugin_keys (r : Registry) : list string :=
  map fst (beforeParsing_plugins r) ++ map fst (beforeHandling_plugins r)
  ++ map fst (beforeResponding_plugins r).

(* ====================================================================== *)
(** * Further notions used by the properties                                *)
(* ====================================================================== *)

(** In what follows a [Response] stands for the call of its constructor:
    the body, the status and the headers it is given. *)

(** The statuses the constructor of a response accepts together with a
    body: those from 200 to 599, the null body statuses 204, 205 and 304
    apart.  Any other status it refuses, by throwing. *)
Definition body_status_ok (code : Z) : bool :=
  (200 <=? code) && (code <=? 599)
  && negb ((code =? 204) || (code =? 205) || (code =? 304)).

(** The kinds of steps. *)
Definition is_hook (st : Stage) (e : Event) : Prop :=
  match e with
  | EvHook st' _ _ => st' = st
  | _ => False
  end.

Definition is_validation (e : Event) : Prop :=
  match e with
  | EvValidate _ | EvBodyRead _ _ => True
  | _ => False
  end.

Definition is_handler (e : Event) : Prop :=
  match e with
  | EvHandler _ => True
  | _ => False
  end.

(** The header a [res.*] call may write, besides [content-type]. *)
Definition writes_header (name : string) (call : ResCall) : bool :=
  match call with
  | res_code _ | res_stream _ | res_formData _ => false
  | res_cookie _ _ _ => String.eqb name "set-cookie"
  | res_header n _ => String.eqb name n
  | res_redirect _ _ => String.eqb name "location"
  | res_blob _ _ | res_buffer _ _ => String.eqb name "content-length"
  | res_json _ _ | res_text _ _ =>
      String.eqb name "content-length" || String.eqb name "content-type"
  end.

(** A [cookies] header in the usual form: [name=value] pairs separated by a
    semicolon and a space. *)
Definition cookie_pair (kv : string * string) : string := fst kv +:+ "=" +:+ snd kv.

Definition cookie_header (pairs : list (string * string)) : string :=
  String.concat "; " (map cookie_pair pairs).

Fixpoint all_chars (p : ascii -> bool) (s : string) : bool :=
  match s with
  | EmptyString => true
  | String c r => p c && all_chars p r
  end.

(** A name without separator, equals sign or white space, and a value
    without separator or line terminator; neither is empty.  The name
    [__proto__] is left aside: an assignment under it does not create a
    property. *)
Definition cookie_name_ok (k : string) : bool :=
  string_truthy k
  && all_chars (fun c => negb (Ascii.eqb c ";") && negb (Ascii.eqb c "=")
                         && negb (is_space c)) k.

Definition cookie_value_ok (v : string) : bool :=
  string_truthy v
  && all_chars (fun c => negb (Ascii.eqb c ";") && negb (is_line_terminator c)) v.

Definition cookie_ok (kv : string * string) : bool :=
  cookie_name_ok (fst kv) && cookie_value_ok (snd kv)
  && negb (String.eqb (fst kv) "__proto__").

(** The steps of a complete validation, in their order; [k] is the kind
    of the body read. *)
Definition validation_steps (k : BodyKind) : list Event :=
  [EvValidate PHeaders; EvValidate PQuery; EvValidate PCookies;
   EvBodyRead k 3000; EvValidate PBody].

(** Requests and schemas for the examples. *)
Definition full_schema : Schema :=
  {| schema_headers := Some object_schema; schema_query := Some object_schema;
     schema_cookies := Some object_schema; schema_body := Some string_schema;
     transform := false |}.

Definition text_request : Request :=
  {| method := "POST"; req_headers := [("Content-Type", "text/plain"); ("x-a", "1")];
     pathname := "/notes"; searchParams := [("page", "2"); ("page", "3")];
     formData := Never; json := Never; text := Settles 5 (Return "hello") |}.

(** [res.header(name, _)] *)
Definition is_header_call (name : string) (call : ResCall) : bool :=
  match call with
  | res_header n _ => String.eqb n name
  | _ => false
  end.

(** An item of a cookie header: no separator, and a first character that
    is not white space. *)
Definition item_ok (item : string) : Prop :=
  all_chars (fun c => negb (Ascii.eqb c ";")) item = true
  /\ exists d r, item = String d r /\ is_space d = false.

(** The calls of the plugins of a stage when none of them throws: for every
    key that applies, in the order of the registry, one call of each of its
    plugins, in their order. *)
Definition plugin_calls {A : Type} (st : Stage) (registry : list (string * list A))
    (path : string) : list Event :=
  flat_map (fun entry : string * list A =>
              if plugin_skipped (fst entry) path then []
              else map (EvHook st (fst entry)) (seq 0 (length (snd entry))))
           registry.

(** A slash alone counts as nothing when paths are joined. *)
Definition unslash (s : string) : string :=
  if String.eqb s "/" then EmptyString else s.

(** The path under which a route of a collection is added. *)
Definition collection_route (r : Registry) (prefix : string)
    (route : string * string * list Route) : string * string * list Route :=
  let '(m, url, handlers) := route in
  (m, with_base r (unslash prefix +:+ unslash url), handlers).

(** The keys of a registry of plugins are distinct and none is empty. *)
Definition keys_wf {A : Type} (plugins : list (string * list A)) : Prop :=
  NoDup (map fst plugins) /\ Forall (fun key => key <> EmptyString) (map fst plugins).

Definition registry_wf (r : Registry) : Prop :=
  keys_wf (beforeParsing_plugins r) /\ keys_wf (beforeHandling_plugins r)
  /\ keys_wf (beforeResponding_plugins r).

(** A callback that, whatever its context, writes no header [k]. *)
Definition keeps_header (k : string) (f : Callback) : Prop :=
  forall c, existsb (writes_header k) (fst (f c)) = false.

(** An application with an allowed origin and a cache, on any runtime. *)
Definition open_app : App :=
  {| router_match := fun _ _ => Some (∅, [RHandler (handler [res_code 201] (JStr "ok"))]);
     runtime := deno; cors := Some "*";
     cache := Some {| cache_name := "pages"; duration := 60 |};
     validator := None; notFound := None; error := None;
     plugins_beforeParsing := [];
     plugins_beforeHandling := [("*", [handler [res_header "x-seen" "1"] JUndefined])];
     plugins_beforeResponding := [] |}.

(** Sample data for the examples of this part. *)
Definition zod_validator : Validator := {| name := "zod"; check := None |}.

Definition checked_route : list Route :=
  [RSchema cookie_schema; RHandler (handler [] (JStr "ok"))].

Definition checked_app : App := sample_app (Some accept_all) checked_route [].

Definition traced_request : Request :=
  sample_request "GET" "/" [("accept", "*/*"); ("x-trace", "first")].

Definition powered_state : ResState := set_header "x-powered-by" "cheetah" blank_state.

Definition typed_state : ResState :=
  set_header "content-type" "text/plain; charset=utf-8" blank_state.


Definition plugin_staged_state : ResState := stage_body (JStr "from a plugin") blank_state.

Definition overriding_handler : Callback :=
  handler [res_text "staged" None] (JArr [JNum (Int 1); JNum (Int 2)]).

(** An application on the [cloudflare] runtime with a cache. *)
Definition cached_app : App :=
  {| router_match := fun _ _ => Some (∅, [RHandler (handler [] (JStr "ok"))]);
     runtime := cloudflare; cors := None;
     cache := Some {| cache_name := "pages"; duration := 60 |};
     validator := None; notFound := None; error := None;
     plugins_beforeParsing := []; plugins_beforeHandling := [];
     plugins_beforeResponding := [] |}.

Definition empty_registry : Registry :=
  {| base := None; detected := deno; added := [];
     beforeParsing_plugins := []; beforeHandling_plugins := [];
     beforeResponding_plugins := [] |}.

Definition logging_plugin : PluginMethods :=
  {| on_beforeParsing := Some (fun _ => Return JUndefined);
     on_beforeHandling := Some (handler [res_header "x-seen" "1"] JUndefined);
     on_beforeResponding := None |}.

Definition items_collection : list (string * string * list Route) :=
  [("GET", "/", [RHandler (handler [] (JStr "list"))]);
   ("POST", "/new", [RHandler (handler [] (JStr "created"))])].

(* ====================================================================== *)
(** * Properties                                                            *)
(* ====================================================================== *)

(** ** The environment accessor *)

Module XFacts.
Import X.

Lemma env_sets_ENV (c : Context) (w : World) :
  ENV (snd (env c w)) = fst (env c w).
Proof.
  unfold env. destruct (env_truthy (ENV w)); [reflexivity|].
  destruct (runtime c); [|reflexivity].
  destruct (toObject w) as [r w']. reflexivity.
Qed.

Lemma env_memo (c : Context) (w : World) :
  env_truthy (ENV w) = true -> env c w = (ENV w, w).
Proof. intros E. unfold env. rewrite E. reflexivity. Qed.

Lemma env_calls_memo (cs : list (Context * (World -> World))) :
  forall w : World, env_truthy (ENV w) = true -> Forall (eq (ENV w)) (env_calls cs w).
Proof.
  induction cs as [|[c f] cs IH]; intros w E; simpl.
  - constructor.
  - rewrite (env_memo c w E). constructor; [reflexivity|].
    apply (IH (interfere f w)). exact E.
Qed.

(** On the [deno] runtime a call returns an object, whatever the state. *)
Lemma env_deno_truthy (c : Context) (w : World) :
  runtime c = deno -> env_truthy (fst (env c w)) = true.
Proof.
  intros R. unfold env. destruct (env_truthy (ENV w)) eqn:E; [exact E|].
  rewrite R. destruct (toObject w) as [r w']. reflexivity.
Qed.

(** C10.  A call of [env] that returns an object, or any truthy value,
    fixes it: a second call with any other context returns the value of
    that call and leaves the state as it is, and so does every later call,
    whatever contexts are passed and whatever the program did to the
    process variables and to the objects in between. *)
Theorem env_memoized (c c' : Context) (w : World) :
  env_truthy (fst (env c w)) = true ->
  env c' (snd (env c w)) = (fst (env c w), snd (env c w))
  /\ forall (f : World -> World) (cs : list (Context * (World -> World))),
       Forall (eq (fst (env c w))) (env_calls cs (interfere f (snd (env c w)))).
Proof.
  intros T. rewrite <- (env_sets_ENV c w) in T. split.
  - rewrite <- (env_sets_ENV c w) at 1. apply env_memo. exact T.
  - intros f cs. rewrite <- (env_sets_ENV c w).
    apply (env_calls_memo cs (interfere f (snd (env c w)))). exact T.
Qed.

Lemma env_memoized_witness :
  env (bound_context 8%nat) (snd (env (bound_context 7%nat) loaded))
  = (fst (env (bound_context 7%nat) loaded), snd (env (bound_context 7%nat) loaded))
  /\ forall (f : World -> World) (cs : list (Context * (World -> World))),
       Forall (eq (fst (env (bound_context 7%nat) loaded)))
              (env_calls cs (interfere f (snd (env (bound_context 7%nat) loaded)))).
Proof. apply (env_memoized (bound_context 7%nat) (bound_context 8%nat) loaded). reflexivity. Defined.

(** A first call that finds no bindings returns [undefined] and fixes
    nothing: the next call, with another context, returns the bindings of
    that context and not what the first call returned. *)
Lemma env_not_fixed_by_undefined :
  fst (env unbound_context loaded) = EnvOther JUndefined
  /\ fst (env (bound_context 8%nat) (snd (env unbound_context loaded))) = EnvObject 8%nat
  /\ env (bound_context 8%nat) (snd (env unbound_context loaded))
     <> (fst (env unbound_context loaded), snd (env unbound_context loaded)).
Proof. repeat split. discriminate. Qed.

(** Without the memo two contexts would yield two objects: on the first
    call the object depends on the context. *)
Example env_first_call_depends_on_context :
  fst (env (bound_context 7%nat) loaded) = EnvObject 7%nat
  /\ fst (env (bound_context 8%nat) loaded) = EnvObject 8%nat
  /\ fst (env (bound_context 8%nat) (snd (env (bound_context 7%nat) loaded))) = EnvObject 7%nat.
Proof. repeat split. Qed.

End XFacts.

(** ** The dispatch monad *)

Lemma bind_Return {A B} (l : list Event) (a : A) (f : A -> M B) :
  bind (l, Return a) f = (l ++ fst (f a), snd (f a)).
Proof. unfold bind. destruct (f a); reflexivity. Qed.

Lemma bind_Throw {A B} (l : list Event) (t : Thrown) (f : A -> M B) :
  bind (l, Throw t) f = (l, Throw t).
Proof. reflexivity. Qed.

Lemma bind_ret {A B} (a : A) (f : A -> M B) : bind (ret a) f = f a.
Proof. unfold ret. rewrite bind_Return. simpl. destruct (f a); reflexivity. Qed.

Lemma bind_throw {A B} (t : Thrown) (f : A -> M B) : bind (throw t) f = throw t.
Proof. reflexivity. Qed.

Lemma bind_emit {B} (e : Event) (k : M B) :
  bind (emit e) (fun _ => k) = (e :: fst k, snd k).
Proof. unfold emit. rewrite bind_Return. reflexivity. Qed.

Lemma bind_inv {A B} (m : M A) (f : A -> M B) (l : list Event) (r : Completion B) :
  bind m f = (l, r) ->
  (exists t, m = (l, Throw t) /\ r = Throw t)
  \/ (exists l1 a l2, m = (l1, Return a) /\ f a = (l2, r) /\ l = l1 ++ l2).
Proof.
  destruct m as [l1 [a|t]]; unfold bind.
  - destruct (f a) as [l2 r2] eqn:E. intros [= <- <-]. right. eauto 6.
  - intros [= <- <-]. left. eauto.
Qed.

Lemma try_catch_Return {A} (l : list Event) (a : A) (h : Thrown -> M A) :
  try_catch (l, Return a) h = (l, Return a).
Proof. reflexivity. Qed.

Lemma try_catch_Throw {A} (l : list Event) (t : Thrown) (h : Thrown -> M A) :
  try_catch (l, Throw t) h = (l ++ fst (h t), snd (h t)).
Proof. unfold try_catch. destruct (h t); reflexivity. Qed.

Lemma in_trace_bind {A B} (m : M A) (f : A -> M B) (e : Event) :
  In e (trace (bind m f)) ->
  In e (trace m) \/ exists a, outcome m = Return a /\ In e (trace (f a)).
Proof.
  destruct m as [l [a|t]]; unfold trace, outcome, bind; simpl.
  - destruct (f a) as [l' r] eqn:E. simpl. rewrite in_app_iff.
    intros [H|H]; [left; exact H | right; exists a; rewrite E; auto].
  - auto.
Qed.

Lemma outcome_bind_Return {A B} (m : M A) (f : A -> M B) (a : A) :
  outcome m = Return a -> outcome (bind m f) = outcome (f a).
Proof.
  destruct m as [l r]; unfold outcome, bind; simpl. intros ->. destruct (f a); reflexivity.
Qed.

Lemma outcome_bind_Throw {A B} (m : M A) (f : A -> M B) (t : Thrown) :
  outcome m = Throw t -> outcome (bind m f) = Throw t.
Proof. destruct m as [l r]; unfold outcome, bind; simpl. intros ->. reflexivity. Qed.

Lemma trace_bind_Throw {A B} (m : M A) (f : A -> M B) (t : Thrown) :
  outcome m = Throw t -> trace (bind m f) = trace m.
Proof. destruct m as [l r]; unfold outcome, trace, bind; simpl. intros ->. reflexivity. Qed.

Lemma invoke_trace `{host : Host} (f : Callback) (c : Context) (s : ResState) :
  trace (invoke f c s) = [].
Proof.
  unfold invoke. destruct (f c) as [calls completion]. unfold lift.
  destruct (apply_calls calls s) as [s'|t]; [|reflexivity].
  rewrite bind_Return. destruct completion as [r|t]; reflexivity.
Qed.

(** ** Plugins: which keys apply *)

Lemma first_char_slash (key pathname : string) :
  (match first_char pathname with
   | Some c => String.eqb c (key +:+ "/")
   | None => false
   end) = true
  <-> key = EmptyString /\ exists rest, pathname = String "/" rest.
Proof.
  destruct pathname as [|c rest]; unfold first_char.
  - split; [discriminate | intros [_ [r [=]]]].
  - rewrite String.eqb_eq. split.
    + destruct key as [|k key]; simpl.
      * intros [= ->]. eauto.
      * destruct key; simpl; intros [=].
    + intros [-> [r [= -> ->]]]. reflexivity.
Qed.

(** The keys under which the plugins of a stage run: the wildcard, the
    path itself, and the empty key for a path that starts with a slash. *)
Lemma plugin_applies_iff (key pathname : string) :
  plugin_applies key pathname = true
  <-> key = "*" \/ pathname = key
      \/ (key = EmptyString /\ exists rest, pathname = String "/" rest).
Proof.
  unfold plugin_applies, plugin_skipped.
  rewrite negb_true_iff, !andb_false_iff, !negb_false_iff, !String.eqb_eq.
  rewrite first_char_slash. tauto.
Qed.

Lemma length_append (s1 s2 : string) :
  String.length (s1 +:+ s2) = (String.length s1 + String.length s2)%nat.
Proof. induction s1 as [|c s1 IH]; simpl; [reflexivity | rewrite IH; reflexivity]. Qed.

(** A key that is a proper prefix of the path does not apply, although the
    path begins with it. *)
Lemma proper_prefix_skipped (key rest : string) :
  key <> "*" -> key <> EmptyString -> rest <> EmptyString ->
  plugin_applies key (key +:+ rest) = false.
Proof.
  intros Hstar Hkey Hrest.
  destruct (plugin_applies key (key +:+ rest)) eqn:E; [|reflexivity].
  apply plugin_applies_iff in E. destruct E as [E|[E|[E _]]]; try contradiction.
  exfalso. apply Hrest.
  assert (L : String.length (key +:+ rest) = String.length key) by (rewrite E; reflexivity).
  rewrite length_append in L.
  destruct rest; [reflexivity|simpl in L; lia].
Qed.

(** The keys that apply are among those the path begins with, the
    wildcard apart. *)
Lemma plugin_applies_prefix (key pathname : string) :
  plugin_applies key pathname = true ->
  key = "*" \/ pathname = key \/ String.prefix key pathname = true.
Proof.
  intros H. apply plugin_applies_iff in H. destruct H as [H|[H|[-> _]]]; auto.
  right. right. destruct pathname; reflexivity.
Qed.

(** Only the plugins of a key that applies are called. *)
Lemma run_hooks_key (st : Stage) (key : string) (hooks : list Callback) (c : Context)
    `{host : Host} :
  forall i s e, In e (trace (run_hooks st key i hooks c s)) ->
                exists j, e = EvHook st key j.
Proof.
  induction hooks as [|h rest IH]; intros i s e; simpl; [intros []|].
  intros Hin. apply in_trace_bind in Hin. destruct Hin as [[<-|[]]|(_ & _ & Hin)]; [eauto|].
  apply in_trace_bind in Hin. destruct Hin as [Hin|(r & _ & Hin)].
  - rewrite invoke_trace in Hin. destruct Hin.
  - eapply IH. exact Hin.
Qed.

Lemma run_plugins_only_applying (st : Stage) (registry : list (string * list Callback))
    (c : Context) `{host : Host} :
  forall s st' key i,
    In (EvHook st' key i) (trace (run_plugins st registry c s)) ->
    plugin_applies key (pathname (ctx_raw c)) = true.
Proof.
  induction registry as [|[k hooks] rest IH]; intros s st' key i; simpl; [intros []|].
  destruct (plugin_skipped k (pathname (ctx_raw c))) eqn:E; [apply IH|].
  intros Hin. apply in_trace_bind in Hin. destruct Hin as [Hin|(s' & _ & Hin)].
  - destruct (run_hooks_key st k hooks c 0%nat s _ Hin) as [j [= -> -> ->]].
    unfold plugin_applies. rewrite E. reflexivity.
  - eapply IH. exact Hin.
Qed.

(** C3.  At the failing input, the prefix [/api] registered for a request
    to [/api/users]: the path begins with the prefix, yet the guard of the
    plugin loops skips the key, so that no plugin registered under it is
    called at any of the three stages; the dispatch calls the handler
    only. *)
Theorem prefix_plugins_never_run :
  String.prefix "/api" "/api/users" = true
  /\ plugin_applies "/api" "/api/users" = false
  /\ (forall (hooks : list RawCallback),
        run_raw_plugins [("/api", hooks)] (sample_request "GET" "/api/users" []) = ret tt)
  /\ (forall (st : Stage) (hooks : list Callback) (s : ResState),
        run_plugins st [("/api", hooks)]
          (sample_context (sample_request "GET" "/api/users" [])) s = ret s)
  /\ (exists r,
        fetch reason_phrase prefixed_app (sample_request "GET" "/api/users" [])
          no_env false None
        = ([EvHandler 0], Return r)
        /\ status r = 200).
Proof.
  split; [reflexivity|]. split; [reflexivity|].
  split; [reflexivity|]. split; [reflexivity|].
  eexists. split; [vm_compute; reflexivity | reflexivity].
Qed.

(** The same plugins are called when the path is the key itself. *)
Example exact_path_plugins_run :
  trace (fetch reason_phrase prefixed_app (sample_request "GET" "/api" []) no_env false None)
  = [EvHook beforeParsing "/api" 0; EvHook beforeHandling "/api" 0; EvHandler 0;
     EvHook beforeResponding "/api" 0].
Proof. vm_compute. reflexivity. Qed.

(** ** Query coercion *)

Section QueryCoercion.
Context `{host : Host}.

Lemma parses_as_number_iff (value : string) :
  parses_as_number value
  <-> negb (isNaN_Number value) && negb (isNaN_parseFloat value) = true.
Proof.
  unfold parses_as_number.
  rewrite andb_true_iff, !negb_true_iff. reflexivity.
Qed.

Lemma not_parses_as_number_iff (value : string) :
  ~ parses_as_number value
  <-> negb (isNaN_Number value) && negb (isNaN_parseFloat value) = false.
Proof.
  rewrite parses_as_number_iff.
  destruct (negb (isNaN_Number value) && negb (isNaN_parseFloat value)); split;
    congruence.
Qed.

Lemma coerce_Coerces (value : string) : Coerces value (coerce value).
Proof.
  unfold coerce.
  destruct (String.eqb_spec value EmptyString) as [->|N0]; [constructor; auto|].
  destruct (String.eqb_spec value "true") as [->|N1]; [constructor; auto|].
  destruct (String.eqb_spec value "false") as [->|N2]; [constructor; auto|].
  simpl.
  destruct (includes "," value) eqn:Hc; [constructor; auto|].
  destruct (negb (isNaN_Number value) && negb (isNaN_parseFloat value)) eqn:Hn.
  { apply coerces_number; auto. apply parses_as_number_iff; exact Hn. }
  apply not_parses_as_number_iff in Hn.
  destruct (String.eqb_spec value "undefined") as [E3|N3]; [apply coerces_undefined; auto|].
  destruct (String.eqb_spec value "null") as [E4|N4]; [apply coerces_null; auto|].
  apply coerces_raw; auto.
Qed.

Lemma Coerces_coerce (value : string) (r : JsValue) :
  Coerces value r -> coerce value = r.
Proof.
  intros H. unfold coerce. destruct H as
    [value [-> | ->] | value -> | value N0 N1 N2 Hc | value N0 N1 N2 Hc Hn
    | value Hc Hn -> | value Hc Hn -> | value N0 N1 N2 Hc Hn N3 N4];
    try reflexivity.
  - apply String.eqb_neq in N0, N1, N2. rewrite N0, N1, N2. simpl.
    rewrite Hc. reflexivity.
  - apply String.eqb_neq in N0, N1, N2. rewrite N0, N1, N2. simpl.
    rewrite Hc. apply parses_as_number_iff in Hn. rewrite Hn. reflexivity.
  - apply not_parses_as_number_iff in Hn. simpl. simpl in Hc. rewrite Hn.
    reflexivity.
  - apply not_parses_as_number_iff in Hn. simpl. rewrite Hn. reflexivity.
  - apply String.eqb_neq in N0, N1, N2, N3, N4. rewrite N0, N1, N2, N3, N4. simpl.
    rewrite Hc. apply not_parses_as_number_iff in Hn. rewrite Hn. reflexivity.
Qed.

(** C4.  The coercion of a query value is the relation of the seven
    prioritised rules: every value is coerced to exactly one result (the
    coercion is total and deterministic), and that result is the one the
    first applicable rule gives. *)
Theorem query_coercion_priority (value : string) :
  (forall r : JsValue, Coerces value r <-> coerce value = r)
  /\ (exists r : JsValue, Coerces value r)
  /\ (forall r r' : JsValue, Coerces value r -> Coerces value r' -> r = r').
Proof.
  split; [|split].
  - intros r. split; [apply Coerces_coerce | intros <-; apply coerce_Coerces].
  - exists (coerce value). apply coerce_Coerces.
  - intros r r' H H'. apply Coerces_coerce in H, H'. congruence.
Qed.

(** Every pair of the query string is stored under its key with the coerced
    value; for a repeated key the last pair wins. *)
Lemma parse_query_last (request : Request) (init : list (string * string))
    (key value : string) :
  searchParams request = init ++ [(key, value)] ->
  parse_query request !! key = Some (coerce value).
Proof.
  intros E. unfold parse_query. rewrite E, fold_left_app. simpl.
  apply lookup_insert_eq.
Qed.

End QueryCoercion.

(** The examples of the specification, with the built-in functions on
    ASCII text. *)
Example coerce_examples :
  map coerce ["true"; EmptyString; "false"; "a,b,c"; "42"; "undefined"; "null"; "hello"]
  = [JBool true; JBool true; JBool false; JArr [JStr "a"; JStr "b"; JStr "c"];
     JNum (Int 42); JUndefined; JNull; JStr "hello"].
Proof. reflexivity. Qed.

(** The number is the leading integer, not the float the text denotes. *)
Example coerce_leading_integer :
  map coerce ["3.7"; "1e3"; "0x1A"; "-7"] =
  [JNum (Int 3); JNum (Int 1); JNum (Int 26); JNum (Int (-7))].
Proof. reflexivity. Qed.

(** The query [?x=1,2&y=true&z=hello]. *)
Example parse_query_example :
  parse_query {| method := "GET"; req_headers := []; pathname := "/";
                 searchParams := [("x", "1,2"); ("y", "true"); ("z", "hello")];
                 formData := Never; json := Never; text := Never |}
  = <["z" := JStr "hello"]> (<["y" := JBool true]>
      (<["x" := JArr [JStr "1"; JStr "2"]]> ∅)).
Proof. reflexivity. Qed.

(** ** Preflight requests *)

Section Preflight.
Context `{host : Host}.

Lemma cors_headers_lookup (app : App) :
  cors_headers app !! "access-control-allow-origin"
  = match cors app with
    | Some origin => if string_truthy origin then Some origin else None
    | None => None
    end.
Proof.
  unfold cors_headers. destruct (cors app) as [origin|]; [|apply lookup_empty].
  destruct (string_truthy origin); [apply lookup_singleton_eq | apply lookup_empty].
Qed.

(** C8.  A request with method [OPTIONS] that carries an [origin] and an
    [access-control-request-method] header is answered by [#handle] with
    status 204, no body and the five CORS headers (the allowed origin only
    when one is configured, the requested headers echoed or [*]); the
    dispatch performs no step at all: no plugin is called, nothing is
    validated and no handler is called.  [fetch] returns that response for
    every matched route. *)
Theorem preflight_short_circuit (app : App) (request : Request)
    (env : gmap string JsValue) (ip : option string)
    (params : gmap string string) (route : list Route) :
  method request = "OPTIONS" ->
  headers_has request "origin" = true ->
  headers_has request "access-control-request-method" = true ->
  handle app request env ip params route = ([], Return (preflight_response app request))
  /\ status (preflight_response app request) = 204
  /\ body (preflight_response app request) = JNull
  /\ headers (preflight_response app request) !! "access-control-allow-origin"
     = match cors app with
       | Some origin => if string_truthy origin then Some origin else None
       | None => None
       end
  /\ headers (preflight_response app request) !! "access-control-allow-methods" = Some "*"
  /\ headers (preflight_response app request) !! "access-control-allow-headers"
     = Some (default "*" (headers_get request "access-control-request-headers"))
  /\ headers (preflight_response app request) !! "access-control-allow-credentials" = Some "false"
  /\ headers (preflight_response app request) !! "access-control-max-age" = Some "600"
  /\ forall (message : Z -> string) (fenv : FetchEnv) (has_context : bool)
            (cached : option Response),
       router_match app (method request) (pathname request) = Some (params, route) ->
       bindings fenv = env ->
       fetch message app request fenv has_context cached = ([], Return (preflight_response app request)).
Proof.
  intros Hm Ho Ha. set (response := preflight_response app request).
  assert (P : is_preflight request = true).
  { unfold is_preflight. rewrite Hm, Ho, Ha. reflexivity. }
  assert (H : forall ip', handle app request env ip' params route = ([], Return response)).
  { intros ip'. unfold handle. rewrite P. reflexivity. }
  split; [apply H|].
  split; [reflexivity|]. split; [reflexivity|].
  unfold response, preflight_response; simpl.
  split.
  { rewrite !lookup_insert_ne by discriminate. apply cors_headers_lookup. }
  split.
  { rewrite !lookup_insert_ne by discriminate. apply lookup_insert_eq. }
  split.
  { rewrite !lookup_insert_ne by discriminate. apply lookup_insert_eq. }
  split.
  { rewrite !lookup_insert_ne by discriminate. apply lookup_insert_eq. }
  split.
  { apply lookup_insert_eq. }
  intros message fenv has_context cached Hr He. unfold fetch.
  rewrite Hr, He, H.
  assert (C : cache_enabled app request = false).
  { unfold cache_enabled. rewrite Hm. destruct (cache app), (runtime app); reflexivity. }
  rewrite C. reflexivity.
Qed.

End Preflight.

(** A preflight request to an application whose validator rejects
    everything and whose plugin and handler would set status 500. *)
Lemma preflight_short_circuit_witness :
  handle guarded_app preflight_request ∅ None ∅ guarded_route
  = ([], Return (preflight_response guarded_app preflight_request))
  /\ status (preflight_response guarded_app preflight_request) = 204.
Proof.
  pose proof (preflight_short_circuit guarded_app preflight_request ∅ None ∅ guarded_route
                eq_refl eq_refl eq_refl) as H.
  split; [apply H | apply H].
Defined.

(** ** The cookie stage *)

(** The header [a=1; b=2], and a header with a pair without value, a pair
    without name and a value that contains the separator. *)
Example parse_cookie_text_examples :
  parse_cookie_text "a=1; b=2" = <["b" := JStr "2"]> (<["a" := JStr "1"]> ∅)
  /\ parse_cookie_text "a=1;flag; =x; t=u=v"
     = <["t" := JStr "u=v"]> (<["flag" := JUndefined]> (<["a" := JStr "1"]> ∅)).
Proof. split; vm_compute; reflexivity. Qed.

(** Nothing thrown inside the [try] block of the cookie stage leaves it. *)
Lemma parse_cookies_returns (request : Request) :
  exists cookies, parse_cookies request = ret cookies.
Proof.
  unfold parse_cookies.
  destruct (1000 <? String.length (default EmptyString (headers_get request "cookies")))%nat;
    eexists; reflexivity.
Qed.

(** The 413 thrown for a header of more than 1000 characters is caught by
    the [catch] clause of the same block, which installs the empty
    dictionary. *)
Lemma oversized_cookies_swallowed (request : Request) (cookiesHeader : string) :
  headers_get request "cookies" = Some cookiesHeader ->
  (1000 < String.length cookiesHeader)%nat ->
  parse_cookies request = ret ∅.
Proof.
  intros E L. unfold parse_cookies. rewrite E. simpl.
  apply Nat.ltb_lt in L. rewrite L. reflexivity.
Qed.

Lemma oversized_cookies_swallowed_witness :
  parse_cookies (sample_request "GET" "/" [("cookies", long_cookie)]) = ret ∅.
Proof.
  apply (oversized_cookies_swallowed _ long_cookie); [reflexivity|].
  vm_compute. lia.
Defined.

(** C1.  At the failing input, a route with a cookie schema and a request
    whose [cookies] header has 1001 characters: the dispatch does not fail
    with 413.  The cookies are the empty dictionary, the validator is asked
    about them, the handler runs and the response has status 200; with a
    validator that rejects the empty dictionary the status is 400. *)
Theorem oversized_cookie_header_not_rejected :
  String.length long_cookie = 1001%nat
  /\ parse_cookies (sample_request "GET" "/" [("cookies", long_cookie)]) = ret ∅
  /\ trace (fetch reason_phrase
              (sample_app (Some accept_all)
                 [RSchema cookie_schema; RHandler (handler [] (JStr "ok"))] [])
              (sample_request "GET" "/" [("cookies", long_cookie)]) no_env false None)
     = [EvValidate PCookies; EvHandler 1]
  /\ (exists r,
        outcome (fetch reason_phrase
                   (sample_app (Some accept_all)
                      [RSchema cookie_schema; RHandler (handler [] (JStr "ok"))] [])
                   (sample_request "GET" "/" [("cookies", long_cookie)]) no_env false None)
        = Return r /\ status r = 200 /\ body r = JStr "ok")
  /\ (exists r,
        outcome (fetch reason_phrase
                   (sample_app (Some reject_all)
                      [RSchema cookie_schema; RHandler (handler [] (JStr "ok"))] [])
                   (sample_request "GET" "/" [("cookies", long_cookie)]) no_env false None)
        = Return r /\ status r = 400).
Proof.
  split; [vm_compute; reflexivity|].
  split; [vm_compute; reflexivity|].
  split; [vm_compute; reflexivity|].
  split; eexists; (split; [vm_compute; reflexivity|]); repeat split.
Qed.

(** ** Constructing the response *)

(** The content-type default touches nothing but that header. *)
Lemma responseBody_default_content_type (v : string) (s : ResState) :
  responseBody (default_content_type v s) = responseBody s.
Proof. unfold default_content_type. destruct (header_truthy _ _); reflexivity. Qed.

Lemma responseCode_default_content_type (v : string) (s : ResState) :
  responseCode (default_content_type v s) = responseCode s.
Proof. unfold default_content_type. destruct (header_truthy _ _); reflexivity. Qed.

Lemma requiresFormatting_default_content_type (v : string) (s : ResState) :
  requiresFormatting (default_content_type v s) = requiresFormatting s.
Proof. unfold default_content_type. destruct (header_truthy _ _); reflexivity. Qed.

Lemma responseHeaders_default_content_type_ne (v k : string) (s : ResState) :
  k <> "content-type" ->
  responseHeaders (default_content_type v s) !! k = responseHeaders s !! k.
Proof.
  intros Hk. unfold default_content_type. destruct (header_truthy _ _); [reflexivity|].
  simpl. apply lookup_insert_ne. congruence.
Qed.

Lemma responseHeaders_default_content_type (v : string) (s : ResState) :
  header_truthy (responseHeaders s) "content-type" = false ->
  responseHeaders (default_content_type v s) !! "content-type" = Some v.
Proof.
  intros H. unfold default_content_type. rewrite H. simpl. apply lookup_insert_eq.
Qed.

Lemma responseBody_code_given (code : option Z) (s : ResState) :
  responseBody (code_given code s) = responseBody s.
Proof. destruct code as [c|]; simpl; [destruct (c =? 0)|]; reflexivity. Qed.

Lemma responseHeaders_code_given (code : option Z) (s : ResState) :
  responseHeaders (code_given code s) = responseHeaders s.
Proof. destruct code as [c|]; simpl; [destruct (c =? 0)|]; reflexivity. Qed.

Lemma requiresFormatting_code_given (code : option Z) (s : ResState) :
  requiresFormatting (code_given code s) = requiresFormatting s.
Proof. destruct code as [c|]; simpl; [destruct (c =? 0)|]; reflexivity. Qed.

Section ConstructResponse.
Context `{host : Host}.

(** The [code] property is read from the serialized text, which has none:
    the status of the response is always the [responseCode] the handlers
    and plugins left. *)
Lemma construct_response_keeps_status (s : ResState) (r : Response) :
  outcome (construct_response s) = Return r -> status r = responseCode s.
Proof.
  unfold construct_response.
  set (s1 := strip_cache_control s).
  assert (E1 : responseCode s1 = responseCode s).
  { unfold s1, strip_cache_control. destruct (_ && _); reflexivity. }
  destruct (header_truthy (responseHeaders s1) "location").
  { intros [= <-]. exact E1. }
  destruct (negb (truthy (responseBody s1))).
  { intros [= <-]. exact E1. }
  destruct (requiresFormatting s1 && negb (is_nullish (responseBody s1))).
  - destruct (is_string (responseBody s1)).
    + intros [= <-]. simpl. rewrite responseCode_default_content_type. exact E1.
    + destruct (JSON_stringify (responseBody s1)) as [serialized|]; [|discriminate].
      rewrite responseBody_default_content_type. simpl.
      intros [= <-]. simpl. rewrite responseCode_default_content_type. exact E1.
  - intros [= <-]. exact E1.
Qed.

(** The serialization branch: a non-empty value that is not a string and was
    not staged by a [res.*] call is serialized, its length is stamped, the
    content type defaults to JSON, and the status stays what it was. *)
Lemma construct_response_serialized (s : ResState) (serialized : string) :
  requiresFormatting s = true ->
  truthy (responseBody s) = true ->
  is_string (responseBody s) = false ->
  header_truthy (responseHeaders s) "location" = false ->
  JSON_stringify (responseBody s) = Some serialized ->
  exists r,
    construct_response s = ret r
    /\ body r = JStr serialized
    /\ headers r !! "content-length" = Some (toString (String.length serialized))
    /\ (header_truthy (responseHeaders s) "content-type" = false ->
        headers r !! "content-type" = Some "application/json; charset=utf-8")
    /\ status r = responseCode s.
Proof.
  intros Hf Ht Hs Hl Hj. unfold construct_response.
  set (s1 := strip_cache_control s).
  assert (Eb : responseBody s1 = responseBody s).
  { unfold s1, strip_cache_control. destruct (_ && _); reflexivity. }
  assert (Ef : requiresFormatting s1 = requiresFormatting s).
  { unfold s1, strip_cache_control. destruct (_ && _); reflexivity. }
  assert (Ec : responseCode s1 = responseCode s).
  { unfold s1, strip_cache_control. destruct (_ && _); reflexivity. }
  assert (Eh : forall k, k <> "cache-control" ->
                         responseHeaders s1 !! k = responseHeaders s !! k).
  { intros k Hk. unfold s1, strip_cache_control. destruct (_ && _); [|reflexivity].
    simpl. apply lookup_delete_ne. congruence. }
  assert (Et : forall k, k <> "cache-control" ->
                         header_truthy (responseHeaders s1) k = header_truthy (responseHeaders s) k).
  { intros k Hk. unfold header_truthy. rewrite Eh by exact Hk. reflexivity. }
  rewrite Et by discriminate. rewrite Hl, Eb, Ht, Ef, Hf, Hs, Hj. simpl.
  assert (Hn : is_nullish (responseBody s) = false).
  { destruct (responseBody s) as [| |b|n|t|l|l|k n]; try reflexivity; discriminate. }
  rewrite Hn. simpl.
  set (s2 := default_content_type "application/json; charset=utf-8"
               (set_header "content-length" (toString (String.length serialized))
                  (set_body (JStr serialized) s1))).
  assert (B2 : responseBody s2 = JStr serialized).
  { unfold s2. rewrite responseBody_default_content_type. reflexivity. }
  rewrite B2. simpl.
  eexists. split; [reflexivity|]. simpl.
  split; [exact B2|].
  split.
  { unfold s2. rewrite responseHeaders_default_content_type_ne by discriminate.
    simpl. apply lookup_insert_eq. }
  split.
  { intros Hct. unfold s2. apply responseHeaders_default_content_type.
    unfold header_truthy. simpl. rewrite lookup_insert_ne by discriminate.
    rewrite Eh by discriminate. exact Hct. }
  unfold s2. rewrite responseCode_default_content_type. exact Ec.
Qed.

End ConstructResponse.

(** C2.  At the failing input, a handler that returns
    [{ code: 404, msg: 'x' }] and calls no [res.*] member: the value is
    serialized, tagged as JSON and its length is stamped, but the status of
    the response is 200 although the value carries the code 404. *)
Theorem body_code_not_applied :
  prop_code not_found_body = JNum (Int 404)
  /\ exists r serialized,
       fetch reason_phrase (sample_app None [RHandler (handler [] not_found_body)] [])
         (sample_request "POST" "/" []) no_env false None
       = ([EvHandler 0], Return r)
       /\ JSON_stringify not_found_body = Some serialized
       /\ body r = JStr serialized
       /\ headers r !! "content-type" = Some "application/json; charset=utf-8"
       /\ headers r !! "content-length" = Some (toString (String.length serialized))
       /\ status r = 200.
Proof.
  split; [reflexivity|].
  eexists. eexists.
  split; [vm_compute; reflexivity|].
  repeat split.
Qed.

(** ** The handler chain *)

Section HandlerChain.
Context `{host : Host}.

Lemma call_handler_eq (h : Callback) (c : Context) (s : ResState) :
  call_handler h c s
  = ([], match apply_calls (fst (h c)) s with
         | Throw t => Throw t
         | Return s' =>
             match snd (h c) with
             | Throw t => Throw t
             | Return result => Return (if truthy result then set_body result s' else s')
             end
         end).
Proof.
  unfold call_handler, invoke. destruct (h c) as [calls completion]. simpl.
  destruct (apply_calls calls s) as [s'|t]; [|reflexivity].
  destruct completion as [result|t]; reflexivity.
Qed.

Lemma call_handler_trace (h : Callback) (c : Context) (s : ResState) :
  call_handler h c s = ([], outcome (call_handler h c s)).
Proof. rewrite call_handler_eq. reflexivity. Qed.

Lemma run_handlers_schema (sch : Schema) (rest : list Route) i c s :
  run_handlers (RSchema sch :: rest) i c s = run_handlers rest (S i) c s.
Proof. reflexivity. Qed.

Lemma run_handlers_cons (h : Callback) (rest : list Route) i c s :
  run_handlers (RHandler h :: rest) i c s
  = bind (emit (EvHandler i))
      (fun _ => bind (call_handler h c s)
                  (fun s => if truthy (responseBody s) then ret s
                            else run_handlers rest (S i) c s)).
Proof. reflexivity. Qed.

Lemma run_handlers_continue (h : Callback) (rest : list Route) i c s s1 :
  outcome (call_handler h c s) = Return s1 ->
  truthy (responseBody s1) = false ->
  run_handlers (RHandler h :: rest) i c s
  = (EvHandler i :: trace (run_handlers rest (S i) c s1),
     outcome (run_handlers rest (S i) c s1)).
Proof.
  intros E F. rewrite run_handlers_cons, call_handler_trace, E, bind_Return.
  simpl fst. simpl snd. rewrite F, bind_emit. reflexivity.
Qed.

Lemma run_handlers_stop (h : Callback) (rest : list Route) i c s s1 :
  outcome (call_handler h c s) = Return s1 ->
  truthy (responseBody s1) = true ->
  run_handlers (RHandler h :: rest) i c s = ([EvHandler i], Return s1).
Proof.
  intros E F. rewrite run_handlers_cons, call_handler_trace, E, bind_Return.
  simpl fst. simpl snd. rewrite F, bind_emit. reflexivity.
Qed.

Lemma run_handlers_throw (h : Callback) (rest : list Route) i c s t :
  outcome (call_handler h c s) = Throw t ->
  run_handlers (RHandler h :: rest) i c s = ([EvHandler i], Throw t).
Proof.
  intros E. rewrite run_handlers_cons, call_handler_trace, E, bind_Throw, bind_emit.
  reflexivity.
Qed.

(** The handlers are called in registration order: the calls recorded are
    those of an initial segment of the handlers of the route. *)
Lemma run_handlers_in_order (route : list Route) :
  forall i c s,
  exists n, trace (run_handlers route i c s)
            = map (fun jh => EvHandler (fst jh)) (firstn n (handlers_of route i)).
Proof.
  induction route as [|[sch|h] rest IH]; intros i c s.
  - exists 0%nat. reflexivity.
  - rewrite run_handlers_schema. apply IH.
  - destruct (outcome (call_handler h c s)) as [s1|t] eqn:E.
    + destruct (truthy (responseBody s1)) eqn:F.
      * exists 1%nat. rewrite (run_handlers_stop _ _ _ _ _ _ E F). reflexivity.
      * destruct (IH (S i) c s1) as [n Hn]. exists (S n).
        rewrite (run_handlers_continue _ _ _ _ _ _ E F). simpl. rewrite Hn. reflexivity.
    + exists 1%nat. rewrite (run_handlers_throw _ _ _ _ _ _ E). reflexivity.
Qed.

(** As long as the handlers leave the body empty the chain goes on. *)
Lemma run_handlers_passes (route : list Route) :
  forall i c s pre rest s1,
    handlers_of route i = pre ++ rest ->
    passes c pre s s1 ->
    exists route' i',
      handlers_of route' i' = rest
      /\ run_handlers route i c s
         = (map EvHandler (map fst pre) ++ trace (run_handlers route' i' c s1),
            outcome (run_handlers route' i' c s1)).
Proof.
  induction route as [|[sch|h] tail IH]; intros i c s pre rest s1 E P.
  - simpl in E. destruct pre; [|discriminate]. simpl in E. subst rest.
    inversion P; subst. exists [], i. split; reflexivity.
  - simpl in E. destruct (IH (S i) c s pre rest s1 E P) as (route' & i' & H1 & H2).
    exists route', i'. split; [exact H1|]. rewrite run_handlers_schema. exact H2.
  - destruct pre as [|[j h0] pre].
    + inversion P; subst. exists (RHandler h :: tail), i. split; [exact E|].
      unfold trace, outcome. apply surjective_pairing.
    + simpl in E. injection E as -> -> E.
      inversion P as [|? ? ? ? s2 ? C F P']; subst.
      destruct (IH (S j) c s2 pre rest s1 E P') as (route' & i' & H1 & H2).
      exists route', i'. split; [exact H1|].
      rewrite (run_handlers_continue _ _ _ _ _ _ C F), H2. reflexivity.
Qed.

(** C7 (amended).  The handlers of a route, schema objects left out, are
    called in registration order, and the chain stops after the first
    handler at whose completion the response body is non-empty: either the
    handler returned a truthy value, which then is the response body, or
    the body staged through [res.*] calls is truthy.  The calls recorded
    are those of the handlers before it, in order, and its own: no later
    handler is called. *)
Theorem handler_chain_stops (route : list Route) (i : nat) (c : Context) (s : ResState)
    (pre post : list (nat * Callback)) (j : nat) (h : Callback)
    (s1 s2 : ResState) (v : JsValue) :
  handlers_of route i = pre ++ (j, h) :: post ->
  passes c pre s s1 ->
  apply_calls (fst (h c)) s1 = Return s2 ->
  snd (h c) = Return v ->
  truthy v = true \/ truthy (responseBody s2) = true ->
  run_handlers route i c s
  = (map EvHandler (map fst pre ++ [j]),
     Return (if truthy v then set_body v s2 else s2))
  /\ (truthy v = true ->
      responseBody (if truthy v then set_body v s2 else s2) = v).
Proof.
  intros E P A R T.
  split; [|intros ->; reflexivity].
  destruct (run_handlers_passes route i c s pre ((j, h) :: post) s1 E P)
    as (route' & i' & H1 & H2).
  rewrite H2. clear H2 E P.
  assert (C : outcome (call_handler h c s1)
              = Return (if truthy v then set_body v s2 else s2)).
  { rewrite call_handler_eq. simpl. rewrite A, R. reflexivity. }
  assert (F : truthy (responseBody (if truthy v then set_body v s2 else s2)) = true).
  { destruct (truthy v) eqn:V; simpl; [exact V|]. destruct T; [discriminate|assumption]. }
  revert i' H1. induction route' as [|[sch|h'] tail IH]; intros i' H1.
  - discriminate.
  - rewrite run_handlers_schema. apply (IH (S i')). exact H1.
  - simpl in H1. injection H1 as -> -> _.
    rewrite (run_handlers_stop _ _ _ _ _ _ C F). simpl.
    rewrite map_app. reflexivity.
Qed.

End HandlerChain.

(** The second handler stops the chain after the first has left the body
    empty. *)
Lemma handler_chain_stops_witness :
  run_handlers [RHandler empty_text_handler; RHandler second_handler;
                RHandler (handler [] (JStr "third"))] 0 root_context blank_state
  = ([EvHandler 0; EvHandler 1],
     Return (set_body (JStr "second")
               (set_header "content-length" "0"
                  (default_content_type "text/plain; charset=utf-8"
                     (stage_body (JStr EmptyString) blank_state))))).
Proof.
  refine (proj1 (handler_chain_stops
            [RHandler empty_text_handler; RHandler second_handler;
             RHandler (handler [] (JStr "third"))] 0 root_context blank_state
            [(0%nat, empty_text_handler)] [(2%nat, handler [] (JStr "third"))]
            1 second_handler _ _ (JStr "second") eq_refl _ eq_refl eq_refl
            (or_introl eq_refl))).
  eapply passes_cons; [reflexivity | reflexivity | apply passes_nil].
Defined.

(** C7 (as stated) fails: the first handler sets the response body through
    [res.text], to the empty text, and the second handler is called all the
    same. *)
Lemma chain_continues_after_empty_text :
  ~ chain_stops_as_stated [RHandler empty_text_handler; RHandler second_handler]
      root_context blank_state.
Proof.
  intros H.
  apply (H [] 0%nat empty_text_handler [(1%nat, second_handler)] eq_refl eq_refl 1%nat).
  - left. reflexivity.
  - right. left. reflexivity.
Qed.

(** ** The empty string as a body *)

Section EmptyBody.
Context `{host : Host}.

Lemma construct_response_falsy (s : ResState) :
  truthy (responseBody s) = false ->
  construct_response s = ret (new_Response JNull (strip_cache_control s)).
Proof.
  intros F. unfold construct_response.
  assert (E : responseBody (strip_cache_control s) = responseBody s).
  { unfold strip_cache_control. destruct (_ && _); reflexivity. }
  rewrite E, F. simpl. destruct (header_truthy _ _); reflexivity.
Qed.

Lemma strip_cache_control_set_body (b : JsValue) (s : ResState) :
  new_Response JNull (strip_cache_control (set_body b s))
  = new_Response JNull (strip_cache_control s).
Proof.
  unfold strip_cache_control. simpl. destruct (_ && _); reflexivity.
Qed.

Lemma strip_cache_control_headers (s : ResState) (k : string) :
  k <> "cache-control" ->
  responseHeaders (strip_cache_control s) !! k = responseHeaders s !! k.
Proof.
  intros Hk. unfold strip_cache_control. destruct (_ && _); [|reflexivity].
  simpl. apply lookup_delete_ne. congruence.
Qed.

Lemma strip_cache_control_code (s : ResState) :
  responseCode (strip_cache_control s) = responseCode s.
Proof. unfold strip_cache_control. destruct (_ && _); reflexivity. Qed.

(** C9.  The empty string counts as no body.  In the handler chain: a
    handler that returns the empty string, or that has set the body to the
    empty string through [res.text('')], does not stop the chain, and the
    next handler is called.  In the formatter: a final body that is the
    empty string gives the response that an absent body gives, which has no
    body, the current status and the current headers. *)
Theorem empty_string_is_no_body (h : Callback) (c : Context) (s s1 : ResState)
    (v : JsValue) (rest : list Route) (i : nat) :
  apply_calls (fst (h c)) s = Return s1 ->
  snd (h c) = Return v ->
  (v = JStr EmptyString /\ truthy (responseBody s1) = false)
  \/ (responseBody s1 = JStr EmptyString /\ truthy v = false) ->
  run_handlers (RHandler h :: rest) i c s
  = (EvHandler i :: trace (run_handlers rest (S i) c s1),
     outcome (run_handlers rest (S i) c s1))
  /\ (forall (code : option Z) (s0 : ResState),
        exists s', apply_call (res_text EmptyString code) s0 = Return s'
                   /\ responseBody s' = JStr EmptyString)
  /\ (forall final : ResState,
        responseBody final = JStr EmptyString ->
        construct_response final = construct_response (set_body JNull final)
        /\ exists r, construct_response final = ret r
                     /\ body r = JNull
                     /\ status r = responseCode final
                     /\ forall k, k <> "cache-control" ->
                                  headers r !! k = responseHeaders final !! k).
Proof.
  intros A R H. split; [|split].
  - apply run_handlers_continue.
    + rewrite call_handler_eq. simpl. rewrite A, R.
      destruct H as [[-> _]|[_ ->]]; reflexivity.
    + destruct H as [[_ F]|[-> _]]; [exact F | reflexivity].
  - intros code s0. eexists. split; [reflexivity|].
    simpl. rewrite responseBody_code_given. simpl.
    apply responseBody_default_content_type.
  - intros final B. split.
    + rewrite !construct_response_falsy by (try rewrite B; reflexivity).
      rewrite strip_cache_control_set_body. reflexivity.
    + eexists. split; [apply construct_response_falsy; rewrite B; reflexivity|].
      simpl. split; [reflexivity|]. split; [apply strip_cache_control_code|].
      apply strip_cache_control_headers.
Qed.

End EmptyBody.

(** A handler that returns the empty string is followed by the next
    handler, whose text becomes the body. *)
Lemma empty_string_is_no_body_witness :
  run_handlers [RHandler (handler [] (JStr EmptyString)); RHandler second_handler] 0
    root_context blank_state
  = ([EvHandler 0; EvHandler 1], Return (set_body (JStr "second") blank_state)).
Proof.
  exact (proj1 (empty_string_is_no_body (handler [] (JStr EmptyString)) root_context
                  blank_state blank_state (JStr EmptyString) [RHandler second_handler] 0
                  eq_refl eq_refl (or_introl (conj eq_refl eq_refl)))).
Defined.

(** The same with [res.text('')]; the response of a chain that ends with
    the empty text has no body. *)
Example empty_text_response :
  exists r,
    fetch reason_phrase (sample_app None [RHandler empty_text_handler] [])
      (sample_request "POST" "/" []) no_env false None
    = ([EvHandler 0], Return r)
    /\ body r = JNull /\ status r = 200
    /\ headers r !! "content-length" = Some "0".
Proof. eexists. split; [vm_compute; reflexivity|]. repeat split. Qed.

(** ** Body reads and their deadline *)

Section BodyRead.
Context `{host : Host}.

Lemma quiet_nil : quiet [].
Proof. intros k d []. Qed.

Lemma quiet_bind {A B} (m : M A) (f : A -> M B) :
  quiet (trace m) -> (forall a, quiet (trace (f a))) -> quiet (trace (bind m f)).
Proof.
  intros Hm Hf k d Hin. apply in_trace_bind in Hin as [Hin|(a & _ & Hin)].
  - exact (Hm k d Hin).
  - exact (Hf a k d Hin).
Qed.

Lemma quiet_lift {A} (c : Completion A) : quiet (trace (lift c)).
Proof. apply quiet_nil. Qed.

Lemma quiet_emit (e : Event) :
  (forall k d, e <> EvBodyRead k d) -> quiet (trace (emit e)).
Proof. intros H k d [E|[]]. exact (H k d E). Qed.

Lemma quiet_run_raw_hooks (key : string) (hooks : list RawCallback) (request : Request) :
  forall i, quiet (trace (run_raw_hooks key i hooks request)).
Proof.
  induction hooks as [|h rest IH]; intros i; simpl; [apply quiet_nil|].
  apply quiet_bind; [apply quiet_emit; discriminate|]. intros _.
  apply quiet_bind; [apply quiet_lift|]. intros _. apply IH.
Qed.

Lemma quiet_run_raw_plugins (registry : list (string * list RawCallback)) (request : Request) :
  quiet (trace (run_raw_plugins registry request)).
Proof.
  induction registry as [|[key hooks] rest IH]; simpl; [apply quiet_nil|].
  destruct (plugin_skipped key (pathname request)); [exact IH|].
  apply quiet_bind; [apply quiet_run_raw_hooks | intros _; exact IH].
Qed.

Lemma quiet_invoke (f : Callback) (c : Context) (s : ResState) :
  quiet (trace (invoke f c s)).
Proof.
  unfold invoke. destruct (f c) as [calls completion].
  apply quiet_bind; [apply quiet_lift|]. intros s'.
  apply quiet_bind; [apply quiet_lift|]. intros r. apply quiet_nil.
Qed.

Lemma quiet_run_hooks (st : Stage) (key : string) (hooks : list Callback) (c : Context) :
  forall i s, quiet (trace (run_hooks st key i hooks c s)).
Proof.
  induction hooks as [|h rest IH]; intros i s; simpl; [apply quiet_nil|].
  apply quiet_bind; [apply quiet_emit; discriminate|]. intros _.
  apply quiet_bind; [apply quiet_invoke|]. intros r. apply IH.
Qed.

Lemma quiet_run_plugins (st : Stage) (registry : list (string * list Callback)) (c : Context) :
  forall s, quiet (trace (run_plugins st registry c s)).
Proof.
  induction registry as [|[key hooks] rest IH]; intros s; simpl; [apply quiet_nil|].
  destruct (plugin_skipped key (pathname (ctx_raw c))); [apply IH|].
  apply quiet_bind; [apply quiet_run_hooks | intros s'; apply IH].
Qed.

Lemma quiet_run_handlers (route : list Route) (c : Context) :
  forall i s, quiet (trace (run_handlers route i c s)).
Proof.
  induction route as [|[sch|h] rest IH]; intros i s; [apply quiet_nil | apply IH |].
  rewrite run_handlers_cons.
  apply quiet_bind; [apply quiet_emit; discriminate|]. intros _.
  apply quiet_bind; [rewrite call_handler_trace; apply quiet_nil|]. intros s'.
  destruct (truthy (responseBody s')); [apply quiet_nil | apply IH].
Qed.

Lemma quiet_construct_response (s : ResState) : quiet (trace (construct_response s)).
Proof.
  unfold construct_response.
  repeat match goal with
         | |- context [if ?b then _ else _] => destruct b
         | |- context [match JSON_stringify ?v with _ => _ end] => destruct (JSON_stringify v)
         end; apply quiet_nil.
Qed.

Lemma quiet_validate (p : Part) (v : Validator) (schema : SubSchema) (value : Subject) :
  quiet (trace (validate p v schema value)).
Proof.
  unfold validate. apply quiet_bind; [apply quiet_emit; discriminate|]. intros _.
  destruct (isValid v schema value) as [[|]|t]; apply quiet_nil.
Qed.

Lemma quiet_parse_cookies (request : Request) : quiet (trace (parse_cookies request)).
Proof. destruct (parse_cookies_returns request) as [cookies ->]. apply quiet_nil. Qed.

(** The body stage performs at most one read, under a deadline of 3000
    milliseconds, and a failed read is translated by its kind. *)
Lemma read_body_read (schema : Schema) (sub : SubSchema) (request : Request) (e : Event) :
  In e (trace (read_body schema sub request)) ->
  exists k, e = EvBodyRead k 3000
            /\ forall t, read_failure request k 3000 = Some t ->
                         outcome (read_body schema sub request)
                         = Throw (Exception (match t with DeadlineError => 413 | _ => 400 end)).
Proof.
  unfold read_body, read_failure.
  destruct (is_object_schema sub).
  - destruct (transform schema && is_multipart request).
    + rewrite bind_emit.
      destruct (deadline (formData request) 3000) as [entries|t]; simpl;
        (intros [<-|[]]; exists AsFormData; split; [reflexivity|]; intros t' [=]).
      subst t'. destruct t; reflexivity.
    + rewrite bind_emit.
      destruct (deadline (json request) 3000) as [v|t]; simpl;
        (intros [<-|[]]; exists AsJson; split; [reflexivity|]; intros t' [=]).
      subst t'. destruct t; reflexivity.
  - destruct (is_string_schema sub).
    + rewrite bind_emit.
      destruct (deadline (text request) 3000) as [v|t]; simpl;
        (intros [<-|[]]; exists AsText; split; [reflexivity|]; intros t' [=]).
      subst t'. destruct t; reflexivity.
    + intros [].
Qed.

End BodyRead.

Section Deadline.
Context `{host : Host}.

Ltac quiet_part :=
  repeat first
    [ apply quiet_nil
    | apply quiet_validate
    | apply quiet_parse_cookies
    | apply quiet_bind; [|intros ?] ].

Ltac past Hin Hr :=
  apply in_trace_bind in Hin;
  destruct Hin as [Hin|(? & Hr & Hin)];
  [ exfalso; revert Hin;
    match goal with |- In (EvBodyRead ?k ?d) ?l -> False =>
      assert (Q : quiet l); [|exact (Q k d)] end
  | rewrite (outcome_bind_Return _ _ _ Hr) ].

Lemma validation_body_read (v : option Validator) (sch : option Schema)
    (request : Request) (k : BodyKind) (delay : N) :
  In (EvBodyRead k delay) (trace (validation v sch request)) ->
  (exists vv schema sub,
      v = Some vv /\ sch = Some schema /\ schema_body schema = Some sub)
  /\ delay = 3000%N
  /\ forall t, read_failure request k 3000 = Some t ->
               outcome (validation v sch request)
               = Throw (Exception (match t with DeadlineError => 413 | _ => 400 end)).
Proof.
  destruct v as [vv|]; [|intros []].
  destruct sch as [schema|]; [|intros []].
  unfold validation. intros Hin.
  past Hin Hh. { destruct (schema_headers schema); quiet_part. }
  past Hin Hq. { destruct (schema_query schema); quiet_part. }
  past Hin Hc. { destruct (schema_cookies schema); quiet_part. }
  destruct (schema_body schema) as [sub|] eqn:Hb.
  - split; [eauto 6|].
    apply in_trace_bind in Hin. destruct Hin as [Hin|(? & _ & [])].
    apply in_trace_bind in Hin. destruct Hin as [Hin|(body & _ & Hin)].
    + destruct (read_body_read schema sub request _ Hin) as (k' & [= -> ->] & Hf).
      split; [reflexivity|]. intros t Ht.
      apply outcome_bind_Throw, outcome_bind_Throw, Hf, Ht.
    + exfalso. revert Hin.
      assert (Q : quiet (trace (bind (validate PBody vv sub (SValue body))
                                     (fun _ => ret body)))) by quiet_part.
      exact (Q k delay).
  - rewrite bind_ret in Hin. destruct Hin.
Qed.

Lemma handle_body_read (app : App) (request : Request) (env : gmap string JsValue)
    (ip : option string) (params : gmap string string) (route : list Route)
    (k : BodyKind) (delay : N) :
  In (EvBodyRead k delay) (trace (handle app request env ip params route)) ->
  (exists v schema sub,
      validator app = Some v /\ schema_of route = Some schema
      /\ schema_body schema = Some sub)
  /\ delay = 3000%N
  /\ forall t, read_failure request k 3000 = Some t ->
               outcome (handle app request env ip params route)
               = Throw (Exception (match t with DeadlineError => 413 | _ => 400 end)).
Proof.
  unfold handle. destruct (is_preflight request); [intros []|].
  intros Hin.
  past Hin Hp. { apply quiet_run_raw_plugins. }
  apply in_trace_bind in Hin. destruct Hin as [Hin|(parsed & _ & Hin)].
  - destruct (validation_body_read _ _ _ _ _ Hin) as (Hs & Hd & Hf).
    split; [exact Hs|]. split; [exact Hd|].
    intros t Ht. apply outcome_bind_Throw. apply (Hf _ Ht).
  - exfalso. revert Hin.
    match goal with |- In _ ?l -> False => assert (Q : quiet l); [|exact (Q k delay)] end.
    apply quiet_bind; [apply quiet_run_plugins|]. intros s1.
    apply quiet_bind; [apply quiet_run_handlers|]. intros s2.
    apply quiet_bind; [apply quiet_run_plugins|]. intros s3.
    apply quiet_construct_response.
Qed.

(** C5.  Whenever a dispatch reads the request body, the route has a schema
    with a body part (and a validator is configured), the read is made
    under a deadline of 3000 milliseconds, and its failure decides the
    failure of the dispatch by its kind alone: a [DeadlineError] makes the
    dispatch throw the exception 413, any other failure the exception
    400. *)
Theorem body_read_deadline (app : App) (request : Request) (env : gmap string JsValue)
    (ip : option string) (params : gmap string string) (route : list Route)
    (k : BodyKind) (delay : N) :
  In (EvBodyRead k delay) (trace (handle app request env ip params route)) ->
  (exists v schema sub,
      validator app = Some v /\ schema_of route = Some schema
      /\ schema_body schema = Some sub)
  /\ delay = 3000%N
  /\ (read_failure request k 3000 = Some DeadlineError ->
      outcome (handle app request env ip params route) = Throw (Exception 413))
  /\ (forall t, read_failure request k 3000 = Some t -> t <> DeadlineError ->
                outcome (handle app request env ip params route) = Throw (Exception 400)).
Proof.
  intros Hin. destruct (handle_body_read _ _ _ _ _ _ _ _ Hin) as (Hs & Hd & Hf).
  split; [exact Hs|]. split; [exact Hd|]. split.
  - intros Ht. apply (Hf _ Ht).
  - intros t Ht Hne. rewrite (Hf _ Ht).
    destruct t; [reflexivity | contradiction | reflexivity].
Qed.

(** A read that does not settle before the deadline fails with a
    [DeadlineError], whatever it would have produced later. *)
Lemma deadline_exceeded {A} (p : Promise A) (delay : N) :
  match p with
  | Settles ms _ => (delay <= ms)%N
  | Never => True
  end ->
  deadline p delay = Throw DeadlineError.
Proof.
  destruct p as [ms r|]; simpl; [|reflexivity].
  intros H. apply N.ltb_ge in H. rewrite H. reflexivity.
Qed.

End Deadline.

(** A body that never arrives: the dispatch throws the exception 413. *)
Lemma body_read_deadline_witness :
  outcome (handle body_app stalled_request ∅ None ∅ body_route) = Throw (Exception 413).
Proof.
  refine (proj1 (proj2 (proj2 (body_read_deadline body_app stalled_request ∅ None ∅
                                 body_route AsJson 3000 _))) eq_refl).
  vm_compute. left. reflexivity.
Defined.

(** A body that is not JSON: the dispatch throws the exception 400; the
    responses of [fetch] carry the two codes. *)
Example body_read_statuses :
  outcome (handle body_app malformed_request ∅ None ∅ body_route) = Throw (Exception 400)
  /\ (exists r, outcome (fetch reason_phrase body_app stalled_request no_env false None)
                = Return r /\ status r = 413)
  /\ (exists r, outcome (fetch reason_phrase body_app malformed_request no_env false None)
                = Return r /\ status r = 400).
Proof.
  split; [vm_compute; reflexivity|].
  split; eexists; (split; [vm_compute; reflexivity|]); reflexivity.
Qed.


(** ** The error translator *)

Section ErrorTranslation.
Context `{host : Host}.

Lemma outcome_try_catch_Return {A} (m : M A) (h : Thrown -> M A) (a : A) :
  outcome m = Return a -> outcome (try_catch m h) = Return a.
Proof. destruct m as [l r]; unfold outcome, try_catch; simpl. intros ->. reflexivity. Qed.

Lemma outcome_try_catch_Throw {A} (m : M A) (h : Thrown -> M A) (t : Thrown) :
  outcome m = Throw t -> outcome (try_catch m h) = outcome (h t).
Proof.
  destruct m as [l r]; unfold outcome, try_catch; simpl. intros ->.
  destruct (h t); reflexivity.
Qed.

(** What the [catch] block answers. *)
Lemma outcome_translate (message : Z -> string) (app : App) (request : Request)
    (err : Thrown) :
  outcome (translate message app request err)
  = match err with
    | Exception code => Return (Exception_response message code)
    | _ => match error app with
           | Some handler => handler err request
           | None => Return fallback_response
           end
    end.
Proof. destruct err; simpl; try reflexivity; destruct (error app); reflexivity. Qed.

(** The completion of [fetch] for a matched route is that of [#handle],
    with every thrown value translated. *)
Lemma outcome_fetch_matched (message : Z -> string) (app : App) (request : Request)
    (env : FetchEnv) (has_context : bool) (cached : option Response)
    (params : gmap string string) (route : list Route) :
  (if cache_enabled app request then cached else None) = None ->
  router_match app (method request) (pathname request) = Some (params, route) ->
  outcome (fetch message app request env has_context cached)
  = match outcome (handle app request (bindings env) (resolve_ip request env) params route) with
    | Return r => Return r
    | Throw t => outcome (translate message app request t)
    end.
Proof.
  intros Hc Hr. unfold fetch. rewrite Hc, Hr.
  destruct (outcome (handle app request (bindings env) (resolve_ip request env) params route))
    as [r|t] eqn:E.
  - apply outcome_try_catch_Return. rewrite (outcome_bind_Return _ _ _ E).
    destruct (_ && _ && _ && _); [rewrite bind_emit | rewrite bind_ret]; reflexivity.
  - apply outcome_try_catch_Throw. apply outcome_bind_Throw. exact E.
Qed.

(** The response of [fetch] when the body read of the dispatch fails: its
    status is 413 for a [DeadlineError] and 400 otherwise. *)
Lemma fetch_body_read_status (message : Z -> string) (app : App) (request : Request)
    (env : FetchEnv) (has_context : bool) (cached : option Response)
    (params : gmap string string) (route : list Route) (k : BodyKind) (delay : N)
    (t : Thrown) :
  (if cache_enabled app request then cached else None) = None ->
  router_match app (method request) (pathname request) = Some (params, route) ->
  In (EvBodyRead k delay)
     (trace (handle app request (bindings env) (resolve_ip request env) params route)) ->
  read_failure request k 3000 = Some t ->
  exists r, outcome (fetch message app request env has_context cached) = Return r
            /\ status r = match t with DeadlineError => 413 | _ => 400 end.
Proof.
  intros Hc Hr Hin Ht.
  destruct (handle_body_read _ _ _ _ _ _ _ _ Hin) as (_ & _ & Hf).
  rewrite (outcome_fetch_matched _ _ _ _ _ _ _ _ Hc Hr), (Hf _ Ht), outcome_translate.
  eexists. split; reflexivity.
Qed.

(** No dispatch leaves [fetch] without a response, provided the handlers
    the application configured answer with one. *)
Lemma fetch_always_responds (message : Z -> string) (app : App) (request : Request)
    (env : FetchEnv) (has_context : bool) (cached : option Response) :
  (forall handler t, error app = Some handler -> exists r, handler t request = Return r) ->
  (forall handler, notFound app = Some handler -> exists r, handler request = NFResponse r) ->
  exists r, outcome (fetch message app request env has_context cached) = Return r.
Proof.
  intros He Hn.
  assert (T : forall t, exists r, outcome (translate message app request t) = Return r).
  { intros t. rewrite outcome_translate.
    destruct t; try (eexists; reflexivity);
      (destruct (error app) as [handler|] eqn:E;
       [apply (He handler _ eq_refl) | eexists; reflexivity]). }
  destruct (if cache_enabled app request then cached else None) as [c|] eqn:Hc.
  { exists c. unfold fetch. rewrite Hc. reflexivity. }
  destruct (router_match app (method request) (pathname request)) as [[params route]|] eqn:Hr.
  - rewrite (outcome_fetch_matched _ _ _ _ _ _ _ _ Hc Hr).
    destruct (outcome (handle _ _ _ _ _ _)) as [r|t]; [eexists; reflexivity | apply T].
  - unfold fetch. rewrite Hc, Hr.
    destruct (notFound app) as [handler|] eqn:En.
    + destruct (Hn handler eq_refl) as [r ->]. exists r. reflexivity.
    + eexists. reflexivity.
Qed.

(** C6.  Provided the error handler the application configured answers
    with a response whenever it is called, and its not-found handler does
    not return a promise that rejects, [fetch] returns a response whatever
    fails.  When the dispatch of a matched route throws: a thrown
    [Exception] is answered by a response whose status is its code and
    whose body is the JSON text of [{message, code}]; any other thrown
    value by the response of the error handler, and without such a handler
    by the fallback, whose status is 500 and whose body is the JSON text
    of [{message: 'Something Went Wrong', code: 500}].  For an unmatched
    route: the response of the not-found handler (what it throws is
    answered like a failure of the dispatch), and without such a handler
    the answer to the exception 404. *)
Theorem failures_become_responses (message : Z -> string) (app : App) (request : Request)
    (env : FetchEnv) (has_context : bool) (cached : option Response) :
  (forall handler t, error app = Some handler -> exists r, handler t request = Return r) ->
  (forall handler t, notFound app = Some handler -> handler request <> NFRejects t) ->
  exists r,
    outcome (fetch message app request env has_context cached) = Return r
    /\ match (if cache_enabled app request then cached else None) with
       | Some cachedResponse => r = cachedResponse
       | None =>
           match router_match app (method request) (pathname request) with
           | Some (params, route) =>
               forall t,
                 outcome (handle app request (bindings env) (resolve_ip request env)
                            params route) = Throw t ->
                 answers message app request t r
           | None =>
               match notFound app with
               | Some handler =>
                   match handler request with
                   | NFResponse r' => r = r'
                   | NFThrows t => answers message app request t r
                   | NFRejects _ => False
                   end
               | None => answers message app request (Exception 404) r
               end
           end
       end.
Proof.
  intros He Hn.
  assert (T : forall t, exists r, outcome (translate message app request t) = Return r
                                  /\ answers message app request t r).
  { intros t. rewrite outcome_translate. unfold answers.
    destruct t; try (eexists; split; [reflexivity | split; reflexivity]);
      (destruct (error app) as [handler|] eqn:E;
       [match goal with
        | |- context [handler ?x request] =>
            destruct (He handler x eq_refl) as [r Hr]; exists r; split; exact Hr
        end
       | eexists; split; [reflexivity | split; reflexivity]]). }
  destruct (if cache_enabled app request then cached else None) as [c|] eqn:Hc.
  { exists c. split; [|reflexivity]. unfold fetch. rewrite Hc. reflexivity. }
  destruct (router_match app (method request) (pathname request)) as [[params route]|] eqn:Hr.
  - rewrite (outcome_fetch_matched _ _ _ _ _ _ _ _ Hc Hr).
    destruct (outcome (handle _ _ _ _ _ _)) as [r|t].
    + exists r. split; [reflexivity | discriminate].
    + destruct (T t) as (r & E & A). exists r. split; [exact E|].
      intros t' [= <-]. exact A.
  - unfold fetch. rewrite Hc, Hr.
    destruct (notFound app) as [handler|] eqn:En.
    + specialize (Hn handler). destruct (handler request) as [r|t|t].
      * exists r. split; reflexivity.
      * destruct (T t) as (r & E & A). exists r. split; [|exact A].
        rewrite <- E. apply outcome_try_catch_Throw. reflexivity.
      * exfalso. exact (Hn t eq_refl eq_refl).
    + destruct (T (Exception 404)) as (r & E & A). exists r. split; [|exact A].
      rewrite outcome_translate in E. exact E.
Qed.

End ErrorTranslation.

Lemma failures_become_responses_witness :
  exists r,
    outcome (fetch reason_phrase answering_app (sample_request "GET" "/" []) no_env false None)
    = Return r
    /\ (forall t,
          outcome (handle answering_app (sample_request "GET" "/" []) (bindings no_env)
                     (resolve_ip (sample_request "GET" "/" []) no_env) ∅
                     [RHandler failing_handler]) = Throw t ->
          answers reason_phrase answering_app (sample_request "GET" "/" []) t r).
Proof.
  apply (failures_become_responses reason_phrase answering_app
           (sample_request "GET" "/" []) no_env false None).
  - intros handler t [= <-]. exists apology. reflexivity.
  - intros handler t [=].
Defined.

(** When the error handler throws in its turn, nothing answers: [fetch]
    rejects with what the error handler threw. *)
Lemma error_handler_failure_escapes :
  outcome (handle failing_error_app (sample_request "GET" "/" []) (bindings no_env)
             (resolve_ip (sample_request "GET" "/" []) no_env) ∅ [RHandler failing_handler])
  = Throw (OtherError (JStr "boom"))
  /\ outcome (fetch reason_phrase failing_error_app (sample_request "GET" "/" []) no_env
                false None)
     = Throw (OtherError (JStr "no handler for this"))
  /\ forall r,
       outcome (fetch reason_phrase failing_error_app (sample_request "GET" "/" []) no_env
                  false None) <> Return r.
Proof. split; [reflexivity|]. split; [reflexivity|]. intros r. discriminate. Qed.

(** A not-found handler whose promise rejects is not answered either. *)
Example not_found_rejection_escapes :
  outcome (fetch reason_phrase rejecting_app (sample_request "GET" "/missing" []) no_env
             false None)
  = Throw (OtherError (JStr "lost")).
Proof. reflexivity. Qed.


(** A handler that throws an unstructured value, with no error handler
    configured: the fallback answers with status 500. *)
Example fallback_answer :
  exists r,
    outcome (fetch reason_phrase (sample_app None [RHandler failing_handler] [])
               (sample_request "GET" "/" []) no_env false None) = Return r
    /\ r = fallback_response /\ status r = 500.
Proof. eexists. split; [vm_compute; reflexivity|]. split; reflexivity. Qed.

(* ====================================================================== *)
(** * Further properties of the pipeline                                    *)
(* ====================================================================== *)

(** ** The order of the stages *)

Lemma trace_bind {A B} (m : M A) (f : A -> M B) :
  trace (bind m f)
  = trace m ++ match outcome m with
               | Return a => trace (f a)
               | Throw _ => []
               end.
Proof.
  destruct m as [l [a|t]]; unfold trace, outcome, bind; simpl.
  - destruct (f a); reflexivity.
  - symmetry. apply app_nil_r.
Qed.

Lemma Forall_trace_bind {A B} (P : Event -> Prop) (m : M A) (f : A -> M B) :
  Forall P (trace m) -> (forall a, Forall P (trace (f a))) -> Forall P (trace (bind m f)).
Proof.
  intros Hm Hf. rewrite trace_bind. apply Forall_app. split; [exact Hm|].
  destruct (outcome m); [apply Hf | constructor].
Qed.

Section Stages.
Context `{host : Host}.

Lemma construct_response_trace (s : ResState) : trace (construct_response s) = [].
Proof.
  unfold construct_response.
  repeat match goal with
         | |- context [if ?b then _ else _] => destruct b
         | |- context [match JSON_stringify ?v with _ => _ end] => destruct (JSON_stringify v)
         end; reflexivity.
Qed.

Lemma run_raw_hooks_kind (key : string) (hooks : list RawCallback) (request : Request) :
  forall i, Forall (is_hook beforeParsing) (trace (run_raw_hooks key i hooks request)).
Proof.
  induction hooks as [|h rest IH]; intros i; simpl; [constructor|].
  apply Forall_trace_bind; [repeat constructor|]. intros _.
  apply Forall_trace_bind; [constructor|]. intros _. apply IH.
Qed.

Lemma run_raw_plugins_kind (registry : list (string * list RawCallback)) (request : Request) :
  Forall (is_hook beforeParsing) (trace (run_raw_plugins registry request)).
Proof.
  induction registry as [|[key hooks] rest IH]; simpl; [constructor|].
  destruct (plugin_skipped key (pathname request)); [exact IH|].
  apply Forall_trace_bind; [apply run_raw_hooks_kind | intros _; exact IH].
Qed.

Lemma run_hooks_kind (st : Stage) (key : string) (hooks : list Callback) (c : Context) :
  forall i s, Forall (is_hook st) (trace (run_hooks st key i hooks c s)).
Proof.
  induction hooks as [|h rest IH]; intros i s; simpl; [constructor|].
  apply Forall_trace_bind; [repeat constructor|]. intros _.
  apply Forall_trace_bind; [rewrite invoke_trace; constructor|]. intros r. apply IH.
Qed.

Lemma run_plugins_kind (st : Stage) (registry : list (string * list Callback)) (c : Context) :
  forall s, Forall (is_hook st) (trace (run_plugins st registry c s)).
Proof.
  induction registry as [|[key hooks] rest IH]; intros s; simpl; [constructor|].
  destruct (plugin_skipped key (pathname (ctx_raw c))); [apply IH|].
  apply Forall_trace_bind; [apply run_hooks_kind | intros s'; apply IH].
Qed.

Lemma run_handlers_kind (route : list Route) (c : Context) :
  forall i s, Forall is_handler (trace (run_handlers route i c s)).
Proof.
  induction route as [|[sch|h] rest IH]; intros i s; [constructor | apply IH |].
  rewrite run_handlers_cons.
  apply Forall_trace_bind; [repeat constructor|]. intros _.
  apply Forall_trace_bind; [rewrite call_handler_trace; constructor|]. intros s'.
  destruct (truthy (responseBody s')); [constructor | apply IH].
Qed.

Lemma validate_kind (p : Part) (v : Validator) (schema : SubSchema) (value : Subject) :
  Forall is_validation (trace (validate p v schema value)).
Proof.
  unfold validate. apply Forall_trace_bind; [repeat constructor|]. intros _.
  destruct (isValid v schema value) as [[|]|t]; constructor.
Qed.

Lemma read_body_kind (schema : Schema) (sub : SubSchema) (request : Request) :
  Forall is_validation (trace (read_body schema sub request)).
Proof.
  unfold read_body.
  destruct (is_object_schema sub); [destruct (transform schema && is_multipart request)|
                                    destruct (is_string_schema sub)];
    try rewrite bind_emit;
    repeat match goal with
           | |- context [deadline ?p ?d] => destruct (deadline p d)
           end; repeat constructor.
Qed.

Lemma validation_kind (v : option Validator) (sch : option Schema) (request : Request) :
  Forall is_validation (trace (validation v sch request)).
Proof.
  destruct v as [vv|]; [|constructor]. destruct sch as [schema|]; [|constructor].
  unfold validation.
  apply Forall_trace_bind.
  { destruct (schema_headers schema); [|constructor].
    apply Forall_trace_bind; [apply validate_kind | intros; constructor]. }
  intros headers. apply Forall_trace_bind.
  { destruct (schema_query schema); [|constructor].
    apply Forall_trace_bind; [apply validate_kind | intros; constructor]. }
  intros query. apply Forall_trace_bind.
  { destruct (schema_cookies schema); [|constructor].
    apply Forall_trace_bind.
    - destruct (parse_cookies_returns request) as [cookies ->]. constructor.
    - intros cookies. apply Forall_trace_bind; [apply validate_kind | intros; constructor]. }
  intros cookies. apply Forall_trace_bind.
  { destruct (schema_body schema); [|constructor].
    apply Forall_trace_bind; [apply read_body_kind|].
    intros b. apply Forall_trace_bind; [apply validate_kind | intros; constructor]. }
  intros b. constructor.
Qed.

(** The trace of a dispatch splits into its five stages. *)
Lemma handle_trace_stages (app : App) (request : Request) (env : gmap string JsValue)
    (ip : option string) (params : gmap string string) (route : list Route) :
  exists l1 l2 l3 l4 l5 : list Event,
    trace (handle app request env ip params route) = l1 ++ l2 ++ l3 ++ l4 ++ l5
    /\ Forall (is_hook beforeParsing) l1
    /\ Forall is_validation l2
    /\ Forall (is_hook beforeHandling) l3
    /\ Forall is_handler l4
    /\ Forall (is_hook beforeResponding) l5.
Proof.
  unfold handle. destruct (is_preflight request).
  { exists [], [], [], [], []. repeat split; constructor. }
  rewrite trace_bind.
  exists (trace (run_raw_plugins (plugins_beforeParsing app) request)).
  pose proof (run_raw_plugins_kind (plugins_beforeParsing app) request) as K1.
  destruct (outcome (run_raw_plugins (plugins_beforeParsing app) request)) as [[]|t].
  2:{ exists [], [], [], []. repeat split; try constructor. exact K1. }
  rewrite trace_bind.
  exists (trace (validation (validator app) (schema_of route) request)).
  pose proof (validation_kind (validator app) (schema_of route) request) as K2.
  destruct (outcome (validation (validator app) (schema_of route) request)) as [parsed|t].
  2:{ exists [], [], []. repeat split; try constructor; assumption. }
  rewrite trace_bind.
  match goal with |- context [run_plugins beforeHandling ?r ?c ?s] =>
    exists (trace (run_plugins beforeHandling r c s));
    pose proof (run_plugins_kind beforeHandling r c s) as K3;
    destruct (outcome (run_plugins beforeHandling r c s)) as [s1|t]
  end.
  2:{ exists [], []. repeat split; try constructor; assumption. }
  rewrite trace_bind.
  match goal with |- context [run_handlers ?r ?i ?c ?s] =>
    exists (trace (run_handlers r i c s));
    pose proof (run_handlers_kind r c i s) as K4;
    destruct (outcome (run_handlers r i c s)) as [s2|t]
  end.
  2:{ exists []. repeat split; try constructor; assumption. }
  rewrite trace_bind.
  match goal with |- context [run_plugins beforeResponding ?r ?c ?s] =>
    exists (trace (run_plugins beforeResponding r c s));
    pose proof (run_plugins_kind beforeResponding r c s) as K5;
    destruct (outcome (run_plugins beforeResponding r c s)) as [s3|t]
  end.
  - rewrite construct_response_trace, app_nil_r. repeat split; assumption.
  - rewrite app_nil_r. repeat split; assumption.
Qed.

(** The steps of a dispatch come stage by stage: first the calls of the
    [beforeParsing] plugins, then the steps of the validation, then the
    calls of the [beforeHandling] plugins, of the handlers and of the
    [beforeResponding] plugins; no stage is entered again. *)
Theorem handle_stage_order (app : App) (request : Request) (env : gmap string JsValue)
    (ip : option string) (params : gmap string string) (route : list Route) :
  exists l1 l2 l3 l4 l5 : list Event,
    trace (handle app request env ip params route) = l1 ++ l2 ++ l3 ++ l4 ++ l5
    /\ Forall (is_hook beforeParsing) l1
    /\ Forall is_validation l2
    /\ Forall (is_hook beforeHandling) l3
    /\ Forall is_handler l4
    /\ Forall (is_hook beforeResponding) l5.
Proof. apply handle_trace_stages. Qed.

End Stages.

(** ** The validation stage *)

Lemma outcome_bind_inv {A B} (m : M A) (f : A -> M B) (t : Thrown) :
  outcome (bind m f) = Throw t ->
  outcome m = Throw t \/ exists a, outcome m = Return a /\ outcome (f a) = Throw t.
Proof.
  destruct m as [l [a|t']]; unfold outcome, bind; simpl.
  - destruct (f a) as [l' r] eqn:E. simpl. intros ->. right. exists a. rewrite E. auto.
  - intros [= ->]. left. reflexivity.
Qed.

Section Validation.
Context `{host : Host}.

Lemma validate_trace (p : Part) (v : Validator) (schema : SubSchema) (value : Subject) :
  trace (validate p v schema value) = [EvValidate p].
Proof.
  unfold validate. rewrite bind_emit. destruct (isValid v schema value) as [[|]|t]; reflexivity.
Qed.

Lemma validate_outcome (p : Part) (v : Validator) (schema : SubSchema) (value : Subject) :
  outcome (validate p v schema value)
  = match isValid v schema value with
    | Return true => Return tt
    | Return false => Throw (Exception 400)
    | Throw t => Throw t
    end.
Proof.
  unfold validate. rewrite bind_emit. destruct (isValid v schema value) as [[|]|t]; reflexivity.
Qed.

Lemma isValid_throws (v : Validator) (schema : SubSchema) (value : Subject) (t : Thrown) :
  isValid v schema value = Throw t ->
  t = TypeError /\ (name v <> "typebox" \/ check v = None).
Proof.
  unfold isValid. destruct (String.eqb_spec (name v) "typebox") as [E|N].
  - destruct (check v) as [chk|]; [discriminate|].
    destruct (safeParse schema); [discriminate|]. intros [= <-]. auto.
  - destruct (safeParse schema); [discriminate|]. intros [= <-]. auto.
Qed.

Lemma validate_throws (p : Part) (v : Validator) (schema : SubSchema) (value : Subject)
    (t : Thrown) :
  outcome (validate p v schema value) = Throw t ->
  t = Exception 400 \/ (t = TypeError /\ (name v <> "typebox" \/ check v = None)).
Proof.
  rewrite validate_outcome. destruct (isValid v schema value) as [[|]|t'] eqn:E.
  - discriminate.
  - intros [= <-]. auto.
  - intros [= <-]. right. eapply isValid_throws. exact E.
Qed.

Lemma read_body_throws (schema : Schema) (sub : SubSchema) (request : Request) (t : Thrown) :
  outcome (read_body schema sub request) = Throw t ->
  t = Exception 413 \/ t = Exception 400.
Proof.
  unfold read_body.
  destruct (is_object_schema sub); [destruct (transform schema && is_multipart request)|
                                    destruct (is_string_schema sub)];
    try rewrite bind_emit;
    repeat match goal with
           | |- context [deadline ?p ?d] => destruct (deadline p d) as [?|[]]
           end; simpl; intros [=]; subst; auto.
Qed.

(** The validation stage fails in three ways only: with the exception 400,
    with the exception 413, or with the [TypeError] of calling [safeParse]
    on a schema that has no such method, which takes a validator other
    than a [typebox] validator with its [check]. *)
Theorem validation_failures (v : option Validator) (sch : option Schema)
    (request : Request) (t : Thrown) :
  outcome (validation v sch request) = Throw t ->
  t = Exception 400 \/ t = Exception 413
  \/ (t = TypeError
      /\ exists vv, v = Some vv /\ (name vv <> "typebox" \/ check vv = None)).
Proof.
  destruct v as [vv|]; [|discriminate]. destruct sch as [schema|]; [|discriminate].
  assert (V : forall p sub value,
             outcome (validate p vv sub value) = Throw t ->
             t = Exception 400 \/ t = Exception 413
             \/ (t = TypeError
                 /\ exists v', Some vv = Some v' /\ (name v' <> "typebox" \/ check v' = None))).
  { intros p sub value H. apply validate_throws in H. destruct H as [H|[H1 H2]]; eauto 6. }
  unfold validation. intros H.
  apply outcome_bind_inv in H. destruct H as [H|(headers & _ & H)].
  { destruct (schema_headers schema); [|discriminate].
    apply outcome_bind_inv in H. destruct H as [H|(? & _ & [=])]. eapply V, H. }
  apply outcome_bind_inv in H. destruct H as [H|(query & _ & H)].
  { destruct (schema_query schema); [|discriminate].
    apply outcome_bind_inv in H. destruct H as [H|(? & _ & [=])]. eapply V, H. }
  apply outcome_bind_inv in H. destruct H as [H|(cookies & _ & H)].
  { destruct (schema_cookies schema); [|discriminate].
    apply outcome_bind_inv in H. destruct H as [H|(c & _ & H)].
    - destruct (parse_cookies_returns request) as [c E]. rewrite E in H. discriminate.
    - apply outcome_bind_inv in H. destruct H as [H|(? & _ & [=])]. eapply V, H. }
  apply outcome_bind_inv in H. destruct H as [H|(b & _ & [=])].
  destruct (schema_body schema); [|discriminate].
  apply outcome_bind_inv in H. destruct H as [H|(b & _ & H)].
  - apply read_body_throws in H. tauto.
  - apply outcome_bind_inv in H. destruct H as [H|(? & _ & [=])]. eapply V, H.
Qed.

(** A handler step in the trace of a dispatch means that the validation returned. *)
Lemma handler_after_validation (app : App) (request : Request)
    (env : gmap string JsValue) (ip : option string) (params : gmap string string)
    (route : list Route) (i : nat) :
  In (EvHandler i) (trace (handle app request env ip params route)) ->
  exists parsed,
    outcome (validation (validator app) (schema_of route) request) = Return parsed.
Proof.
  unfold handle. destruct (is_preflight request); [intros []|]. intros Hin.
  apply in_trace_bind in Hin. destruct Hin as [Hin|(_ & _ & Hin)].
  { pose proof (run_raw_plugins_kind (plugins_beforeParsing app) request) as K.
    rewrite List.Forall_forall in K. destruct (K _ Hin). }
  apply in_trace_bind in Hin. destruct Hin as [Hin|(parsed & Hp & _)].
  { pose proof (validation_kind (validator app) (schema_of route) request) as K.
    rewrite List.Forall_forall in K. destruct (K _ Hin). }
  eauto.
Qed.

(** A handler is called only after the validation stage has completed:
    when the validation fails, no handler runs. *)
Theorem handler_needs_validation (app : App) (request : Request)
    (env : gmap string JsValue) (ip : option string) (params : gmap string string)
    (route : list Route) (i : nat) :
  In (EvHandler i) (trace (handle app request env ip params route)) ->
  exists parsed,
    outcome (validation (validator app) (schema_of route) request) = Return parsed.
Proof. apply handler_after_validation. Qed.

(** With a validator that rejects whatever it is asked about, a dispatch
    whose schema has a part for the headers, the query or the cookies
    throws the exception 400 as soon as the [beforeParsing] plugins have
    completed, and calls no handler. *)
Theorem rejected_request (app : App) (request : Request) (env : gmap string JsValue)
    (ip : option string) (params : gmap string string) (route : list Route)
    (vv : Validator) (schema : Schema) :
  is_preflight request = false ->
  outcome (run_raw_plugins (plugins_beforeParsing app) request) = Return tt ->
  validator app = Some vv ->
  (forall sub value, isValid vv sub value = Return false) ->
  schema_of route = Some schema ->
  is_Some (schema_headers schema) \/ is_Some (schema_query schema)
  \/ is_Some (schema_cookies schema) ->
  outcome (handle app request env ip params route) = Throw (Exception 400)
  /\ forall i, ~ In (EvHandler i) (trace (handle app request env ip params route)).
Proof.
  intros Hp Hr Hv Hrej Hs Hpart.
  assert (V : outcome (validation (validator app) (schema_of route) request)
              = Throw (Exception 400)).
  { rewrite Hv, Hs. unfold validation.
    destruct (schema_headers schema) as [sub|] eqn:Eh.
    { apply outcome_bind_Throw, outcome_bind_Throw.
      rewrite validate_outcome, Hrej. reflexivity. }
    rewrite bind_ret.
    destruct (schema_query schema) as [sub|] eqn:Eq.
    { apply outcome_bind_Throw, outcome_bind_Throw.
      rewrite validate_outcome, Hrej. reflexivity. }
    rewrite bind_ret.
    destruct (schema_cookies schema) as [sub|] eqn:Ec.
    { apply outcome_bind_Throw.
      destruct (parse_cookies_returns request) as [c ->]. rewrite bind_ret.
      apply outcome_bind_Throw. rewrite validate_outcome, Hrej. reflexivity. }
    destruct Hpart as [[? [=]]|[[? [=]]|[? [=]]]]. }
  split.
  - unfold handle. rewrite Hp, (outcome_bind_Return _ _ _ Hr).
    apply outcome_bind_Throw. exact V.
  - intros i Hin. apply handler_after_validation in Hin. destruct Hin as [parsed E].
    rewrite V in E. discriminate.
Qed.

(** Without a configured validator a schema is inert: the dispatch of a
    route does not depend on the schema the route begins with. *)
Theorem schema_inert_without_validator (app : App) (request : Request)
    (env : gmap string JsValue) (ip : option string) (params : gmap string string)
    (schema schema' : Schema) (rest : list Route) :
  validator app = None ->
  handle app request env ip params (RSchema schema :: rest)
  = handle app request env ip params (RSchema schema' :: rest).
Proof. intros Hv. unfold handle. rewrite Hv. reflexivity. Qed.

Lemma sublist_trace_bind {A B} (m : M A) (f : A -> M B) (k1 k2 : list Event) :
  sublist (trace m) k1 -> (forall a, sublist (trace (f a)) k2) ->
  sublist (trace (bind m f)) (k1 ++ k2).
Proof.
  intros H1 H2. rewrite trace_bind. apply sublist_app; [exact H1|].
  destruct (outcome m); [apply H2 | apply sublist_nil_l].
Qed.

Lemma read_body_one_read (schema : Schema) (sub : SubSchema) (request : Request) :
  exists k, sublist (trace (read_body schema sub request)) [EvBodyRead k 3000].
Proof.
  unfold read_body.
  destruct (is_object_schema sub); [destruct (transform schema && is_multipart request)|
                                    destruct (is_string_schema sub)];
    try rewrite bind_emit;
    repeat match goal with
           | |- context [deadline ?p ?d] => destruct (deadline p d) as [?|[]]
           end; simpl; try (eexists; reflexivity).
  exists AsJson. apply sublist_nil_l.
Qed.

(** The validation asks about each part at most once and in a fixed order:
    headers, query, cookies, then the body, which is read before it is
    validated, by one read at most. *)
Theorem validation_order (v : option Validator) (sch : option Schema) (request : Request) :
  exists k, sublist (trace (validation v sch request)) (validation_steps k).
Proof.
  destruct v as [vv|]; [|exists AsJson; apply sublist_nil_l].
  destruct sch as [schema|]; [|exists AsJson; apply sublist_nil_l].
  assert (V : forall p sub value A (a : A),
             sublist (trace (bind (validate p vv sub value) (fun _ => ret a))) [EvValidate p]).
  { intros p sub value A a. rewrite trace_bind, validate_trace.
    destruct (outcome _); reflexivity. }
  assert (B : exists k,
             sublist (trace (match schema_body schema with
                             | Some sub =>
                                 bind (read_body schema sub request)
                                   (fun body => bind (validate PBody vv sub (SValue body))
                                                  (fun _ => ret body))
                             | None => ret JUndefined
                             end))
                     [EvBodyRead k 3000; EvValidate PBody]).
  { destruct (schema_body schema) as [sub|]; [|exists AsJson; apply sublist_nil_l].
    destruct (read_body_one_read schema sub request) as [k Hk]. exists k.
    apply (sublist_trace_bind _ _ [EvBodyRead k 3000] [EvValidate PBody] Hk).
    intros body. apply V. }
  destruct B as [k B]. exists k. unfold validation, validation_steps.
  apply (sublist_trace_bind _ _ [EvValidate PHeaders]
           [EvValidate PQuery; EvValidate PCookies; EvBodyRead k 3000; EvValidate PBody]).
  { destruct (schema_headers schema); [apply V | apply sublist_nil_l]. }
  intros headers.
  apply (sublist_trace_bind _ _ [EvValidate PQuery]
           [EvValidate PCookies; EvBodyRead k 3000; EvValidate PBody]).
  { destruct (schema_query schema); [apply V | apply sublist_nil_l]. }
  intros query.
  apply (sublist_trace_bind _ _ [EvValidate PCookies]
           [EvBodyRead k 3000; EvValidate PBody]).
  { destruct (schema_cookies schema); [|apply sublist_nil_l].
    destruct (parse_cookies_returns request) as [c ->]. rewrite bind_ret. apply V. }
  intros cookies.
  apply (sublist_trace_bind _ _ [EvBodyRead k 3000; EvValidate PBody] []); [exact B|].
  intros b. apply sublist_nil_l.
Qed.

End Validation.

(** ** The [res.*] members *)

Section ResMembers.
Context `{host : Host}.

Lemma apply_calls_app (calls1 calls2 : list ResCall) (s : ResState) :
  apply_calls (calls1 ++ calls2) s
  = match apply_calls calls1 s with
    | Return s1 => apply_calls calls2 s1
    | Throw t => Throw t
    end.
Proof.
  revert s. induction calls1 as [|call rest IH]; intros s; simpl; [reflexivity|].
  destruct (apply_call call s); [apply IH | reflexivity].
Qed.

Lemma apply_call_formatting (call : ResCall) (s s' : ResState) :
  apply_call call s = Return s' ->
  requiresFormatting s' = requiresFormatting s && negb (sets_body call)
  /\ (sets_body call = false -> responseBody s' = responseBody s).
Proof.
  destruct call as [code|n v o|n v|dest code|size code|code|code|len code|js code|txt code]; simpl; try (intros [= <-]; simpl;
    rewrite ?requiresFormatting_code_given, ?responseBody_code_given; simpl;
    rewrite ?andb_true_r, ?andb_false_r; split; [reflexivity | try discriminate; reflexivity]).
  - destruct (JSON_stringify js); [|discriminate]. intros [= <-].
    rewrite requiresFormatting_code_given. simpl.
    rewrite requiresFormatting_default_content_type. simpl.
    rewrite andb_false_r. split; [reflexivity | discriminate].
  - intros [= <-]. rewrite requiresFormatting_code_given. simpl.
    rewrite requiresFormatting_default_content_type. simpl.
    rewrite andb_false_r. split; [reflexivity | discriminate].
Qed.

(** The formatting flag and the staged body after a list of calls. *)
Lemma apply_calls_formatting (calls : list ResCall) (s s' : ResState) :
  apply_calls calls s = Return s' ->
  requiresFormatting s' = requiresFormatting s && negb (existsb sets_body calls)
  /\ (existsb sets_body calls = false -> responseBody s' = responseBody s).
Proof.
  revert s. induction calls as [|call rest IH]; intros s; simpl.
  - intros [= <-]. rewrite andb_true_r. auto.
  - destruct (apply_call call s) as [s1|t] eqn:E; [|discriminate]. intros H.
    destruct (apply_call_formatting _ _ _ E) as [F1 B1].
    destruct (IH _ H) as [F2 B2]. split.
    + rewrite F2, F1, negb_orb, andb_assoc. reflexivity.
    + intros N. apply orb_false_elim in N. destruct N as [N1 N2].
      rewrite (B2 N2). apply B1, N1.
Qed.

(** Automatic formatting stays on exactly as long as no body-setting member
    of [res] has been called, and the calls of the other members leave the
    staged body as it is. *)
Theorem formatting_flag (calls : list ResCall) (s s' : ResState) :
  apply_calls calls s = Return s' ->
  requiresFormatting s' = requiresFormatting s && negb (existsb sets_body calls)
  /\ (existsb sets_body calls = false -> responseBody s' = responseBody s).
Proof. apply apply_calls_formatting. Qed.

Lemma lookup_default_content_type (v k : string) (s : ResState) :
  k <> "content-type" ->
  responseHeaders (default_content_type v s) !! k = responseHeaders s !! k.
Proof. apply responseHeaders_default_content_type_ne. Qed.

Lemma lookup_set_header_ne (k n v : string) (s : ResState) :
  String.eqb k n = false ->
  responseHeaders (set_header n v s) !! k = responseHeaders s !! k.
Proof.
  intros W. simpl. apply lookup_insert_ne. intros ->.
  rewrite String.eqb_refl in W. discriminate.
Qed.

Lemma apply_call_frame (k : string) (call : ResCall) (s s' : ResState) :
  writes_header k call = false ->
  apply_call call s = Return s' ->
  responseHeaders s' !! k = responseHeaders s !! k.
Proof.
  destruct call as [code|n v o|n v|dest code|size code|code|code|len code|js code|txt code];
    simpl; intros W.
  - intros [= <-]. reflexivity.
  - intros [= <-]. apply lookup_set_header_ne, W.
  - intros [= <-]. apply lookup_set_header_ne, W.
  - intros [= <-]. apply (lookup_set_header_ne _ _ _ s), W.
  - intros [= <-]. rewrite responseHeaders_code_given.
    apply (lookup_set_header_ne _ _ _ (stage_body _ s)), W.
  - intros [= <-]. rewrite responseHeaders_code_given. reflexivity.
  - intros [= <-]. rewrite responseHeaders_code_given. reflexivity.
  - intros [= <-]. rewrite responseHeaders_code_given.
    apply (lookup_set_header_ne _ _ _ (stage_body _ s)), W.
  - destruct (JSON_stringify js); [|discriminate]. intros [= <-].
    apply orb_false_elim in W. destruct W as [W1 W2].
    rewrite responseHeaders_code_given, lookup_set_header_ne by exact W1.
    rewrite lookup_default_content_type; [reflexivity|].
    intros ->. rewrite String.eqb_refl in W2. discriminate.
  - intros [= <-]. apply orb_false_elim in W. destruct W as [W1 W2].
    rewrite responseHeaders_code_given, lookup_set_header_ne by exact W1.
    rewrite lookup_default_content_type; [reflexivity|].
    intros ->. rewrite String.eqb_refl in W2. discriminate.
Qed.

(** Headers that no call writes are kept by a list of calls. *)
Lemma apply_calls_frame (k : string) (calls : list ResCall) (s s' : ResState) :
  existsb (writes_header k) calls = false ->
  apply_calls calls s = Return s' ->
  responseHeaders s' !! k = responseHeaders s !! k.
Proof.
  revert s. induction calls as [|call rest IH]; intros s; simpl.
  - intros _ [= <-]. reflexivity.
  - intros W. apply orb_false_elim in W. destruct W as [W1 W2].
    destruct (apply_call call s) as [s1|t] eqn:E; [|discriminate]. intros H.
    rewrite (IH _ W2 H). apply (apply_call_frame _ _ _ _ W1 E).
Qed.

(** A member of [res] writes its own headers only: a header that none of
    the calls writes is after them what it was before. *)
Theorem calls_frame (k : string) (calls : list ResCall) (s s' : ResState) :
  existsb (writes_header k) calls = false ->
  apply_calls calls s = Return s' ->
  responseHeaders s' !! k = responseHeaders s !! k.
Proof. apply apply_calls_frame. Qed.

(** Only the last cookie is kept: [res.cookie] assigns the [set-cookie]
    header, so after several calls the header holds the text of the last
    one. *)
Theorem last_cookie_wins (before after : list ResCall) (cookie_name value : string)
    (options : option CookieOptions) (s s' : ResState) :
  apply_calls (before ++ res_cookie cookie_name value options :: after) s = Return s' ->
  existsb (writes_header "set-cookie") after = false ->
  responseHeaders s' !! "set-cookie" = Some (cookie_text cookie_name value options).
Proof.
  rewrite apply_calls_app. destruct (apply_calls before s) as [s1|t]; [|discriminate].
  simpl. intros H W. rewrite (apply_calls_frame _ _ _ _ W H). apply lookup_insert_eq.
Qed.

Lemma apply_call_content_type (call : ResCall) (s s' : ResState) :
  header_truthy (responseHeaders s) "content-type" = true ->
  is_header_call "content-type" call = false ->
  apply_call call s = Return s' ->
  responseHeaders s' !! "content-type" = responseHeaders s !! "content-type".
Proof.
  intros T N.
  assert (D : forall v b,
             responseHeaders (default_content_type v (stage_body b s)) !! "content-type"
             = responseHeaders s !! "content-type").
  { intros v b. unfold default_content_type. simpl. rewrite T. reflexivity. }
  destruct call as [code|n v o|n v|dest code|size code|code|code|len code|js code|txt code];
    simpl in *.
  - intros [= <-]. reflexivity.
  - intros [= <-]. apply lookup_set_header_ne. reflexivity.
  - intros [= <-]. apply lookup_set_header_ne. rewrite String.eqb_sym. exact N.
  - intros [= <-]. apply (lookup_set_header_ne _ _ _ s). reflexivity.
  - intros [= <-]. rewrite responseHeaders_code_given.
    apply (lookup_set_header_ne _ _ _ (stage_body _ s)). reflexivity.
  - intros [= <-]. rewrite responseHeaders_code_given. reflexivity.
  - intros [= <-]. rewrite responseHeaders_code_given. reflexivity.
  - intros [= <-]. rewrite responseHeaders_code_given.
    apply (lookup_set_header_ne _ _ _ (stage_body _ s)). reflexivity.
  - destruct (JSON_stringify js); [|discriminate]. intros [= <-].
    rewrite responseHeaders_code_given, lookup_set_header_ne by reflexivity. apply D.
  - intros [= <-].
    rewrite responseHeaders_code_given, lookup_set_header_ne by reflexivity. apply D.
Qed.

(** The content type is set once: when a non-empty [content-type] header is
    present, the body-setting members leave it alone, so that a later
    [res.json] after [res.text] keeps [text/plain]; only [res.header]
    replaces it. *)
Theorem content_type_kept (calls : list ResCall) (s s' : ResState) :
  header_truthy (responseHeaders s) "content-type" = true ->
  existsb (is_header_call "content-type") calls = false ->
  apply_calls calls s = Return s' ->
  responseHeaders s' !! "content-type" = responseHeaders s !! "content-type".
Proof.
  revert s. induction calls as [|call rest IH]; intros s T; simpl.
  - intros _ [= <-]. reflexivity.
  - intros N. apply orb_false_elim in N. destruct N as [N1 N2].
    destruct (apply_call call s) as [s1|t] eqn:E; [|discriminate]. intros H.
    pose proof (apply_call_content_type _ _ _ T N1 E) as E1.
    rewrite <- E1. apply IH; [|exact N2|exact H].
    unfold header_truthy in *. rewrite E1. exact T.
Qed.

End ResMembers.

(** ** The formatter *)

Section Formatter.
Context `{host : Host}.

Lemma responseBody_strip (s : ResState) :
  responseBody (strip_cache_control s) = responseBody s.
Proof. unfold strip_cache_control. destruct (_ && _); reflexivity. Qed.

Lemma requiresFormatting_strip (s : ResState) :
  requiresFormatting (strip_cache_control s) = requiresFormatting s.
Proof. unfold strip_cache_control. destruct (_ && _); reflexivity. Qed.

Lemma header_truthy_strip (s : ResState) (k : string) :
  k <> "cache-control" ->
  header_truthy (responseHeaders (strip_cache_control s)) k
  = header_truthy (responseHeaders s) k.
Proof.
  intros Hk. unfold header_truthy. rewrite strip_cache_control_headers by exact Hk.
  reflexivity.
Qed.

Lemma strip_cache_control_lookup (s : ResState) :
  responseHeaders (strip_cache_control s) !! "cache-control"
  = if (responseCode s =? 200) || (responseCode s =? 301)
    then responseHeaders s !! "cache-control" else None.
Proof.
  unfold strip_cache_control.
  destruct (responseCode s =? 200), (responseCode s =? 301); simpl;
    try reflexivity. apply lookup_delete_eq.
Qed.


Lemma construct_response_location (s : ResState) :
  header_truthy (responseHeaders s) "location" = true ->
  construct_response s = ret (new_Response JNull (strip_cache_control s)).
Proof.
  intros L. unfold construct_response. rewrite header_truthy_strip by discriminate.
  rewrite L. reflexivity.
Qed.

(** After [res.redirect] to a non-empty destination the response has no
    body, whatever was staged before; its status is the code given, 307
    by default, and its [location] header is the destination. *)
Theorem redirect_response (s : ResState) (destination : string) (code : option Z) :
  string_truthy destination = true ->
  exists s' r,
    apply_call (res_redirect destination code) s = Return s'
    /\ construct_response s' = ret r
    /\ body r = JNull
    /\ status r = default 307 code
    /\ headers r !! "location" = Some destination.
Proof.
  intros D. eexists. eexists. split; [reflexivity|].
  split.
  { apply construct_response_location. unfold header_truthy. simpl.
    rewrite lookup_insert_eq. exact D. }
  simpl. split; [reflexivity|]. split; [apply strip_cache_control_code|].
  rewrite strip_cache_control_headers by discriminate. simpl. apply lookup_insert_eq.
Qed.

(** The string branch of the formatter. *)
Lemma construct_response_string (s : ResState) (t : string) :
  requiresFormatting s = true ->
  responseBody s = JStr t ->
  string_truthy t = true ->
  header_truthy (responseHeaders s) "location" = false ->
  exists r,
    construct_response s = ret r
    /\ body r = JStr t
    /\ status r = responseCode s
    /\ headers r !! "content-length" = Some (toString (String.length t))
    /\ headers r !! "content-type"
       = if header_truthy (responseHeaders s) "content-type"
         then responseHeaders s !! "content-type"
         else Some "text/plain; charset=utf-8".
Proof.
  intros F B T L. unfold construct_response.
  rewrite header_truthy_strip by discriminate.
  rewrite L, requiresFormatting_strip, F.
  set (s1 := strip_cache_control s).
  assert (B1 : responseBody s1 = JStr t) by (unfold s1; rewrite responseBody_strip; exact B).
  rewrite B1. simpl. unfold string_truthy in T. rewrite T. simpl.
  eexists. split; [reflexivity|]. simpl.
  split; [rewrite responseBody_default_content_type; exact B1|].
  split; [rewrite responseCode_default_content_type; apply strip_cache_control_code|].
  split.
  { rewrite responseHeaders_default_content_type_ne by discriminate.
    apply (lookup_insert_eq (M := gmap string)). }
  unfold default_content_type.
  assert (E : header_truthy
                (responseHeaders (set_header "content-length" (toString (String.length t)) s1))
                "content-type" = header_truthy (responseHeaders s) "content-type").
  { unfold header_truthy. rewrite lookup_set_header_ne by reflexivity.
    unfold s1. rewrite strip_cache_control_headers by discriminate. reflexivity. }
  rewrite E. destruct (header_truthy (responseHeaders s) "content-type").
  - rewrite lookup_set_header_ne by reflexivity.
    unfold s1. apply strip_cache_control_headers. discriminate.
  - apply (lookup_insert_eq (M := gmap string)).
Qed.

(** A non-empty string that a handler returned, with no body-setting
    member of [res] called and under a status that goes with a body, is
    sent as it is, under that status: its length is stamped and the content
    type is [text/plain] unless a content type was set. *)
Theorem string_body_response (s : ResState) (t : string) :
  body_status_ok (responseCode s) = true ->
  requiresFormatting s = true ->
  responseBody s = JStr t ->
  string_truthy t = true ->
  header_truthy (responseHeaders s) "location" = false ->
  exists r,
    construct_response s = ret r
    /\ body r = JStr t
    /\ status r = responseCode s
    /\ body_status_ok (status r) = true
    /\ headers r !! "content-length" = Some (toString (String.length t))
    /\ headers r !! "content-type"
       = if header_truthy (responseHeaders s) "content-type"
         then responseHeaders s !! "content-type"
         else Some "text/plain; charset=utf-8".
Proof.
  intros S F B T L.
  destruct (construct_response_string s t F B T L) as (r & E & Hb & Hs & Hl & Hc).
  exists r. repeat split; try assumption. rewrite Hs. exact S.
Qed.

(** A truthy value that is not a string, returned by a handler with no
    body-setting member of [res] called and under a status that goes with
    a body, is sent as its JSON text: the length of the text is stamped,
    the content type defaults to JSON, and the status is the one set
    during the dispatch, whatever [code] the value carries. *)
Theorem json_body_response (s : ResState) (serialized : string) :
  body_status_ok (responseCode s) = true ->
  requiresFormatting s = true ->
  truthy (responseBody s) = true ->
  is_string (responseBody s) = false ->
  header_truthy (responseHeaders s) "location" = false ->
  JSON_stringify (responseBody s) = Some serialized ->
  exists r,
    construct_response s = ret r
    /\ body r = JStr serialized
    /\ status r = responseCode s
    /\ body_status_ok (status r) = true
    /\ headers r !! "content-length" = Some (toString (String.length serialized))
    /\ (header_truthy (responseHeaders s) "content-type" = false ->
        headers r !! "content-type" = Some "application/json; charset=utf-8").
Proof.
  intros S F T N L J.
  destruct (construct_response_serialized s serialized F T N L J)
    as (r & E & Hb & Hl & Hc & Hs).
  exists r. repeat split; try assumption. rewrite Hs. exact S.
Qed.

(** The formatter on a staged body. *)
Lemma construct_response_staged (s : ResState) :
  requiresFormatting s = false ->
  truthy (responseBody s) = true ->
  header_truthy (responseHeaders s) "location" = false ->
  construct_response s = ret (new_Response (responseBody s) (strip_cache_control s)).
Proof.
  intros F T L. unfold construct_response.
  rewrite header_truthy_strip by discriminate.
  rewrite L, responseBody_strip, T, requiresFormatting_strip, F. reflexivity.
Qed.

(** What a body-setting member of [res] staged is sent untouched: the
    formatter adds no header and does not serialize. *)
Theorem staged_body_untouched (s : ResState) :
  requiresFormatting s = false ->
  truthy (responseBody s) = true ->
  header_truthy (responseHeaders s) "location" = false ->
  construct_response s = ret (new_Response (responseBody s) (strip_cache_control s)).
Proof. apply construct_response_staged. Qed.

(** A handler that called a body-setting member of [res] and then returns
    a non-empty value: the value replaces the staged body, and since the
    call has switched formatting off it is sent as it is, not serialized,
    under the headers the call stamped. *)
Theorem returned_value_after_res_call (h : Callback) (c : Context) (s s1 : ResState)
    (v : JsValue) :
  apply_calls (fst (h c)) s = Return s1 ->
  snd (h c) = Return v ->
  existsb sets_body (fst (h c)) = true ->
  truthy v = true ->
  header_truthy (responseHeaders s1) "location" = false ->
  outcome (call_handler h c s) = Return (set_body v s1)
  /\ construct_response (set_body v s1) = ret (new_Response v (strip_cache_control s1)).
Proof.
  intros A R B T L. split.
  - rewrite call_handler_eq. simpl. rewrite A, R, T. reflexivity.
  - rewrite construct_response_staged; [|simpl|exact T|exact L].
    + unfold strip_cache_control. simpl. destruct (_ && _); reflexivity.
    + destruct (apply_calls_formatting _ _ _ A) as [E _]. rewrite E, B. apply andb_false_r.
Qed.

End Formatter.

(** ** The parsers of the validation stage *)

Lemma append_cons (x : ascii) (a b : string) : String x a +:+ b = String x (a +:+ b).
Proof. reflexivity. Qed.

Lemma append_nil_l (a : string) : EmptyString +:+ a = a.
Proof. reflexivity. Qed.

Lemma append_assoc (a b c : string) : (a +:+ b) +:+ c = a +:+ (b +:+ c).
Proof.
  induction a as [|x a IH]; [reflexivity|]. rewrite !append_cons, IH. reflexivity.
Qed.

Lemma append_nil_r (a : string) : a +:+ EmptyString = a.
Proof. induction a as [|x a IH]; [reflexivity|]. rewrite append_cons, IH. reflexivity. Qed.

Lemma lower_idempotent (c : ascii) : lower (lower c) = lower c.
Proof.
  destruct c as [b0 b1 b2 b3 b4 b5 b6 b7].
  destruct b0, b1, b2, b3, b4, b5, b6, b7; reflexivity.
Qed.

Lemma toLowerCase_idempotent (s : string) : toLowerCase (toLowerCase s) = toLowerCase s.
Proof.
  induction s as [|c s IH]; simpl; [reflexivity|]. rewrite lower_idempotent, IH. reflexivity.
Qed.

(** The lookup in a dictionary filled by assignments in a loop: the last
    assignment to the key. *)
Lemma fold_insert_lookup {A B : Type} (f : A -> B) (l : list (string * A)) (k : string) :
  fold_left (fun (acc : gmap string B) '(key, value) => <[key := f value]> acc) l ∅ !! k
  = f <$> assoc k (rev l).
Proof.
  induction l as [|[key value] l IH] using rev_ind; [reflexivity|].
  rewrite fold_left_app, rev_app_distr. simpl.
  destruct (String.eqb_spec k key) as [->|N].
  - apply lookup_insert_eq.
  - rewrite lookup_insert_ne by congruence. exact IH.
Qed.

Section Parsers.
Context `{host : Host}.

(** The query dictionary holds, for every key of the query string, the
    coercion of the last value given for it, and nothing else.  The key
    [__proto__] is left aside: an assignment under it does not create a
    property. *)
Theorem parse_query_lookup (request : Request) (key : string) :
  key <> "__proto__" ->
  parse_query request !! key = coerce <$> assoc key (rev (searchParams request)).
Proof. intros _. unfold parse_query. apply fold_insert_lookup. Qed.

End Parsers.

(** The step of the header loop. *)
Lemma parse_headers_fold (l : list (string * string)) (acc : gmap string string) :
  let result :=
    fold_left
      (fun (headers : gmap string string) '(key, value) =>
         if inherited_name (toLowerCase key) || header_truthy headers (toLowerCase key)
         then headers
         else <[toLowerCase key := value]> headers) l acc in
  (size result <= size acc + length l)%nat
  /\ forall k v, result !! k = Some v ->
                 acc !! k = Some v
                 \/ exists key, In (key, v) l /\ toLowerCase key = k.
Proof.
  revert acc. induction l as [|[key value] l IH]; intros acc result; subst result; simpl.
  - split; [lia | auto].
  - set (acc' := if inherited_name (toLowerCase key) || header_truthy acc (toLowerCase key)
                 then acc else <[toLowerCase key := value]> acc).
    destruct (IH acc') as [Hs L]. split.
    + assert (size acc' <= 1 + size acc)%nat; [|lia].
      unfold acc'. destruct (_ || _); [lia|].
      rewrite map_size_insert. destruct (acc !! toLowerCase key); simpl; lia.
    + intros k v H. destruct (L k v H) as [H'|(key' & Hin & E)].
      * unfold acc' in H'. destruct (_ || _); [auto|].
        destruct (String.eqb_spec (toLowerCase key) k) as [E|N].
        -- rewrite E, lookup_insert_eq in H'. injection H' as <-. right. eauto.
        -- rewrite lookup_insert_ne in H' by exact N. auto.
      * right. eauto.
Qed.

(** The header dictionary has at most 50 entries; each of its keys is in
    lower case and each of its values is the value of one of the first 50
    entries of the request that has this key, up to case. *)
Theorem parse_headers_bounds (request : Request) :
  (size (parse_headers request) <= 50)%nat
  /\ forall k v,
       parse_headers request !! k = Some v ->
       toLowerCase k = k
       /\ exists key, In (key, v) (firstn 50 (req_headers request)) /\ toLowerCase key = k.
Proof.
  destruct (parse_headers_fold (firstn 50 (req_headers request)) ∅) as [Hs L].
  fold (parse_headers request) in Hs, L. split.
  - rewrite map_size_empty, length_firstn in Hs. lia.
  - intros k v H. destruct (L k v H) as [E|(key & Hin & E)].
    + rewrite lookup_empty in E. discriminate.
    + split; [|eauto]. rewrite <- E. apply toLowerCase_idempotent.
Qed.

Lemma parse_headers_fold_keep (l : list (string * string)) (acc : gmap string string)
    (k v : string) :
  acc !! k = Some v -> string_truthy v = true ->
  fold_left
    (fun (headers : gmap string string) '(key, value) =>
       if inherited_name (toLowerCase key) || header_truthy headers (toLowerCase key)
       then headers
       else <[toLowerCase key := value]> headers) l acc !! k = Some v.
Proof.
  revert acc. induction l as [|[key value] l IH]; intros acc H T; simpl; [exact H|].
  apply IH; [|exact T].
  destruct (_ || _) eqn:E; [exact H|].
  apply orb_false_elim in E. destruct E as [_ E].
  rewrite lookup_insert_ne; [exact H|]. intros <-.
  unfold header_truthy in E. rewrite H in E. unfold string_truthy in T.
  rewrite T in E. discriminate.
Qed.

Lemma parse_headers_fold_other (l : list (string * string)) (acc : gmap string string)
    (k : string) :
  (forall entry, In entry l -> toLowerCase (fst entry) <> k) ->
  fold_left
    (fun (headers : gmap string string) '(key, value) =>
       if inherited_name (toLowerCase key) || header_truthy headers (toLowerCase key)
       then headers
       else <[toLowerCase key := value]> headers) l acc !! k = acc !! k.
Proof.
  revert acc. induction l as [|[key value] l IH]; intros acc N; simpl; [reflexivity|].
  rewrite IH by (intros entry Hin; apply N; right; exact Hin).
  destruct (_ || _); [reflexivity|].
  apply lookup_insert_ne. exact (N (key, value) (or_introl eq_refl)).
Qed.

(** The headers of a request yield their entries with names in lower case.
    Such an entry among the first 50, whose name is not one a plain object
    has a value under already and does not occur earlier, is stored under
    its name with its value, when the value is not empty or the name does
    not occur later. *)
Theorem header_stored (request : Request) (before after : list (string * string))
    (key value : string) :
  firstn 50 (req_headers request) = before ++ (key, value) :: after ->
  Forall (fun entry => toLowerCase (fst entry) = fst entry)
         (firstn 50 (req_headers request)) ->
  inherited_name key = false ->
  (forall entry, In entry before -> fst entry <> key) ->
  string_truthy value = true \/ (forall entry, In entry after -> fst entry <> key) ->
  parse_headers request !! key = Some value.
Proof.
  intros E F I N T. unfold parse_headers. rewrite E in F |- *.
  apply Forall_app in F. destruct F as [Fb F].
  pose proof (Forall_inv F) as K. simpl in K. apply Forall_inv_tail in F.
  rewrite List.Forall_forall in Fb, F.
  rewrite fold_left_app. simpl. rewrite K, I. simpl.
  set (acc := fold_left _ before ∅).
  assert (A : acc !! key = None).
  { unfold acc. rewrite parse_headers_fold_other; [apply lookup_empty|].
    intros entry Hin. rewrite (Fb entry Hin). exact (N entry Hin). }
  assert (H : header_truthy acc key = false).
  { unfold header_truthy. rewrite A. reflexivity. }
  rewrite H. destruct T as [T|T].
  - apply parse_headers_fold_keep; [apply lookup_insert_eq | exact T].
  - rewrite parse_headers_fold_other; [apply lookup_insert_eq|].
    intros entry Hin. rewrite (F entry Hin). exact (T entry Hin).
Qed.

(** A header named [constructor] is never stored. *)
Example constructor_header_not_stored :
  parse_headers (sample_request "GET" "/" [("accept", "*/*"); ("constructor", "x")])
  = {[ "accept" := "*/*" ]}.
Proof. reflexivity. Qed.


(** ** Cookie headers in the usual form *)

Lemma all_chars_append (p : ascii -> bool) (a b : string) :
  all_chars p (a +:+ b) = all_chars p a && all_chars p b.
Proof.
  induction a as [|c a IH]; [reflexivity|]. rewrite append_cons. simpl.
  rewrite IH. apply andb_assoc.
Qed.

Lemma all_chars_impl (p q : ascii -> bool) (s : string) :
  (forall c, p c = true -> q c = true) -> all_chars p s = true -> all_chars q s = true.
Proof.
  intros I. induction s as [|c s IH]; simpl; [reflexivity|].
  intros H. apply andb_prop in H. destruct H as [H1 H2].
  rewrite (I _ H1), (IH H2). reflexivity.
Qed.

Lemma split_semicolons_item (item rest cur : string) :
  all_chars (fun c => negb (Ascii.eqb c ";")) item = true ->
  split_semicolons (item +:+ rest) cur false = split_semicolons rest (cur +:+ item) false.
Proof.
  revert cur. induction item as [|d item IH]; intros cur H.
  - rewrite append_nil_l, append_nil_r. reflexivity.
  - simpl in H. apply andb_prop in H. destruct H as [H1 H2].
    apply negb_true_iff in H1. rewrite append_cons. simpl.
    rewrite H1, (IH _ H2), append_assoc. reflexivity.
Qed.

Lemma split_semicolons_first (d : ascii) (item rest : string) (skip : bool) :
  is_space d = false ->
  all_chars (fun c => negb (Ascii.eqb c ";")) (String d item) = true ->
  split_semicolons (String d item +:+ rest) EmptyString skip
  = split_semicolons rest (String d item) false.
Proof.
  intros Sp H. simpl in H. apply andb_prop in H. destruct H as [H1 H2].
  apply negb_true_iff in H1. rewrite append_cons. simpl.
  rewrite Sp, andb_false_r, H1.
  apply (split_semicolons_item item rest (String d EmptyString) H2).
Qed.

Lemma split_semicolons_concat (items : list string) :
  forall item skip,
    Forall item_ok (item :: items) ->
    split_semicolons (String.concat "; " (item :: items)) EmptyString skip = item :: items.
Proof.
  induction items as [|next items IH]; intros item skip H.
  - apply Forall_inv in H. destruct H as [H (d & r & -> & Sp)].
    change (String.concat "; " [String d r]) with (String d r).
    rewrite <- (append_nil_r (String d r)) at 1.
    rewrite (split_semicolons_first d r EmptyString skip Sp H). reflexivity.
  - pose proof (Forall_inv H) as [H1 (d & r & -> & Sp)]. apply Forall_inv_tail in H.
    change (String.concat "; " (String d r :: next :: items))
      with (String d r +:+ "; " +:+ String.concat "; " (next :: items)).
    rewrite (split_semicolons_first d r _ skip Sp H1).
    simpl split_semicolons at 1. f_equal. apply IH. exact H.
Qed.

Lemma until_line_terminator_id (v : string) :
  all_chars (fun c => negb (is_line_terminator c)) v = true -> until_line_terminator v = v.
Proof.
  induction v as [|c v IH]; simpl; [reflexivity|]. intros H.
  apply andb_prop in H. destruct H as [H1 H2]. apply negb_true_iff in H1.
  rewrite H1, (IH H2). reflexivity.
Qed.

Lemma split_pair_item (k v acc : string) :
  all_chars (fun c => negb (Ascii.eqb c "=")) k = true ->
  string_truthy v = true ->
  all_chars (fun c => negb (is_line_terminator c)) v = true ->
  split_pair (k +:+ "=" +:+ v) acc = (acc +:+ k, JStr v).
Proof.
  revert acc. induction k as [|c k IH]; intros acc Hk Hv Hl.
  - destruct v as [|e v]; [discriminate|]. simpl.
    pose proof Hl as Hl'. simpl in Hl'. apply andb_prop in Hl'. destruct Hl' as [H1 H2].
    apply negb_true_iff in H1. rewrite H1, append_nil_r.
    rewrite (until_line_terminator_id v H2). reflexivity.
  - simpl in Hk. apply andb_prop in Hk. destruct Hk as [H1 H2].
    apply negb_true_iff in H1. simpl. rewrite H1. rewrite (IH _ H2 Hv Hl), append_assoc.
    reflexivity.
Qed.

Lemma cookie_pair_item (kv : string * string) :
  cookie_ok kv = true -> item_ok (cookie_pair kv).
Proof.
  destruct kv as [k v]. unfold cookie_ok, cookie_name_ok, cookie_value_ok, cookie_pair. simpl.
  intros H. apply andb_prop in H. destruct H as [H _].
  apply andb_prop in H. destruct H as [Hk Hv].
  apply andb_prop in Hk. destruct Hk as [Tk Ck]. apply andb_prop in Hv. destruct Hv as [Tv Cv].
  split.
  - rewrite !all_chars_append. simpl.
    rewrite (all_chars_impl _ _ k (fun c H => proj1 (andb_prop _ _ (proj1 (andb_prop _ _ H)))) Ck).
    rewrite (all_chars_impl _ _ v (fun c H => proj1 (andb_prop _ _ H)) Cv). reflexivity.
  - destruct k as [|d k]; [discriminate|]. exists d, (k +:+ "=" +:+ v). split; [reflexivity|].
    simpl in Ck. apply andb_prop in Ck. destruct Ck as [Cd _].
    apply andb_prop in Cd. destruct Cd as [_ Cd]. apply negb_true_iff in Cd. exact Cd.
Qed.

Lemma cookie_pair_split (kv : string * string) :
  cookie_ok kv = true ->
  split_pair (cookie_pair kv) EmptyString = (fst kv, JStr (snd kv)).
Proof.
  destruct kv as [k v]. unfold cookie_ok, cookie_name_ok, cookie_value_ok, cookie_pair. simpl.
  intros H. apply andb_prop in H. destruct H as [H _].
  apply andb_prop in H. destruct H as [Hk Hv].
  apply andb_prop in Hk. destruct Hk as [Tk Ck]. apply andb_prop in Hv. destruct Hv as [Tv Cv].
  apply (split_pair_item k v EmptyString).
  - apply (all_chars_impl _ _ k
             (fun c H => proj2 (andb_prop _ _ (proj1 (andb_prop _ _ H)))) Ck).
  - exact Tv.
  - apply (all_chars_impl _ _ v (fun c H => proj2 (andb_prop _ _ H)) Cv).
Qed.

Lemma fold_insert_no_key {B : Type} (l : list (string * B)) (acc : gmap string B) (k : string) :
  acc !! k = None -> Forall (fun kv => fst kv <> k) l ->
  fold_left (fun (acc : gmap string B) '(key, value) => <[key := value]> acc) l acc !! k = None.
Proof.
  revert acc. induction l as [|[key value] l IH]; intros acc H F; simpl; [exact H|].
  apply IH; [|exact (Forall_inv_tail F)].
  rewrite lookup_insert_ne; [exact H|]. exact (Forall_inv F).
Qed.

(** A cookie header in the usual form is parsed back into its pairs: the
    dictionary holds, for every name, the last value given for it, and
    nothing else. *)
Theorem parse_cookie_header (pairs : list (string * string)) (k : string) :
  forallb cookie_ok pairs = true ->
  parse_cookie_text (cookie_header pairs) !! k = JStr <$> assoc k (rev pairs).
Proof.
  intros H. rewrite <- (fold_insert_lookup JStr pairs k). unfold parse_cookie_text.
  destruct pairs as [|kv pairs]; [reflexivity|].
  assert (F : Forall (fun kv => cookie_ok kv = true) (kv :: pairs)).
  { apply Forall_forall. intros x Hx. rewrite forallb_forall in H.
    apply H. apply list_elem_of_In. exact Hx. }
  unfold cookie_header.
  change (map cookie_pair (kv :: pairs)) with (cookie_pair kv :: map cookie_pair pairs).
  rewrite (split_semicolons_concat (map cookie_pair pairs) (cookie_pair kv) false).
  2:{ change (Forall item_ok (map cookie_pair (kv :: pairs))).
      apply Forall_map. eapply Forall_impl; [exact F|]. intros x. apply cookie_pair_item. }
  change (cookie_pair kv :: map cookie_pair pairs) with (map cookie_pair (kv :: pairs)).
  rewrite map_map.
  assert (E : map (fun x => split_pair (cookie_pair x) EmptyString) (kv :: pairs)
              = map (fun x => (fst x, JStr (snd x))) (kv :: pairs)).
  { apply map_ext_Forall. eapply Forall_impl; [exact F|]. intros x. apply cookie_pair_split. }
  rewrite E.
  assert (G : forall (l : list (string * string)) (acc : gmap string JsValue),
             fold_left (fun (acc : gmap string JsValue) '(key, value) => <[key := value]> acc)
               (map (fun x => (fst x, JStr (snd x))) l) acc
             = fold_left (fun (acc : gmap string JsValue) '(key, value) =>
                            <[key := JStr value]> acc) l acc).
  { induction l as [|[a b] l IH]; intros acc; simpl; [reflexivity | apply IH]. }
  rewrite <- G. f_equal. apply delete_id. apply fold_insert_no_key; [apply lookup_empty|].
  apply Forall_map. eapply Forall_impl; [exact F|]. intros [a b] C. simpl.
  unfold cookie_ok, cookie_name_ok in C. simpl in C.
  destruct a; [discriminate | discriminate].
Qed.

(** ** Plugins and handlers *)

Section Callbacks.
Context `{host : Host}.

Lemma run_hooks_sequence (st : Stage) (key : string) (hooks : list Callback) (c : Context) :
  forall i s,
    prefix (trace (run_hooks st key i hooks c s))
           (map (EvHook st key) (seq i (length hooks)))
    /\ forall s', outcome (run_hooks st key i hooks c s) = Return s' ->
                  trace (run_hooks st key i hooks c s)
                  = map (EvHook st key) (seq i (length hooks)).
Proof.
  induction hooks as [|h rest IH]; intros i s; simpl.
  - split; [reflexivity | intros; reflexivity].
  - rewrite bind_emit. unfold trace, outcome. simpl.
    fold (trace (bind (invoke h c s) (fun r => run_hooks st key (S i) rest c r.2))).
    fold (outcome (bind (invoke h c s) (fun r => run_hooks st key (S i) rest c r.2))).
    rewrite trace_bind, invoke_trace. simpl.
    destruct (outcome (invoke h c s)) as [r|t] eqn:E.
    + rewrite (outcome_bind_Return _ _ _ E). destruct (IH (S i) r.2) as [P Q]. split.
      * apply prefix_cons. exact P.
      * intros s' H. f_equal. apply (Q s' H).
    + rewrite (outcome_bind_Throw _ _ _ E). split.
      * apply prefix_cons. apply prefix_nil.
      * discriminate.
Qed.

(** The plugins of a stage are called key by key and, under a key, one
    after the other in the order of their registration, each once; the
    stage stops at the first plugin that throws, and when none throws every
    plugin of every key that applies has been called. *)
Theorem plugins_called_in_order (st : Stage) (registry : list (string * list Callback))
    (c : Context) (s : ResState) :
  prefix (trace (run_plugins st registry c s))
         (plugin_calls st registry (pathname (ctx_raw c)))
  /\ forall s', outcome (run_plugins st registry c s) = Return s' ->
                trace (run_plugins st registry c s)
                = plugin_calls st registry (pathname (ctx_raw c)).
Proof.
  revert s. induction registry as [|[key hooks] rest IH]; intros s; simpl.
  - split; [reflexivity | intros; reflexivity].
  - unfold plugin_calls in *. simpl.
    destruct (plugin_skipped key (pathname (ctx_raw c))); [apply IH|].
    rewrite trace_bind. destruct (run_hooks_sequence st key hooks c 0%nat s) as [P Q].
    destruct (outcome (run_hooks st key 0 hooks c s)) as [s1|t] eqn:E.
    + rewrite (outcome_bind_Return _ _ _ E), (Q s1 eq_refl).
      destruct (IH s1) as [P' Q']. split.
      * apply prefix_app. exact P'.
      * intros s' H. f_equal. apply (Q' s' H).
    + rewrite (outcome_bind_Throw _ _ _ E), app_nil_r. split.
      * etransitivity; [exact P | apply prefix_app_r; reflexivity].
      * discriminate.
Qed.

Lemma handlers_of_index (route : list Route) :
  forall i j h, In (j, h) (handlers_of route i) ->
                (i <= j)%nat /\ route !! (j - i)%nat = Some (RHandler h).
Proof.
  induction route as [|[sch|h0] rest IH]; intros i j h; simpl; [intros []| |].
  - intros Hin. destruct (IH _ _ _ Hin) as [L E]. split; [lia|].
    replace (j - i)%nat with (S (j - S i)) by lia. exact E.
  - intros [[= <- <-]|Hin].
    + split; [lia|]. rewrite Nat.sub_diag. reflexivity.
    + destruct (IH _ _ _ Hin) as [L E]. split; [lia|].
      replace (j - i)%nat with (S (j - S i)) by lia. exact E.
Qed.

Lemma handlers_of_NoDup (route : list Route) :
  forall i, NoDup (map (fun jh => EvHandler (fst jh)) (handlers_of route i)).
Proof.
  induction route as [|[sch|h0] rest IH]; intros i; simpl; [constructor | apply IH |].
  constructor; [|apply IH].
  rewrite list_elem_of_In, in_map_iff. intros ([j h] & [= E] & Hin). simpl in E. subst j.
  apply handlers_of_index in Hin. lia.
Qed.

(** The handler loop calls functions of the route only, never a schema
    object, and calls none of them twice. *)
Theorem handlers_called_once (route : list Route) (c : Context) (s : ResState) :
  NoDup (trace (run_handlers route 0 c s))
  /\ forall i, In (EvHandler i) (trace (run_handlers route 0 c s)) ->
               exists h, route !! i = Some (RHandler h).
Proof.
  destruct (run_handlers_in_order route 0%nat c s) as [n E]. rewrite E. split.
  - rewrite <- firstn_map.
    eapply sublist_NoDup; [apply (handlers_of_NoDup route 0%nat) | apply sublist_take].
  - intros i Hin. apply in_map_iff in Hin. destruct Hin as ([j h] & [= ->] & Hin).
    apply list_elem_of_In, elem_of_take in Hin. destruct Hin as (k & Hk & _).
    apply list_elem_of_lookup_2, list_elem_of_In, handlers_of_index in Hk.
    destruct Hk as [_ Hk]. rewrite Nat.sub_0_r in Hk. eauto.
Qed.

(** When a plugin has staged a non-empty body before the handlers run, the
    first handler is still called, and when it stages no body of its own
    the chain stops after it: no other handler is called. *)
Theorem staged_body_stops_chain (route : list Route) (i j : nat) (c : Context)
    (s s1 : ResState) (h : Callback) (later : list (nat * Callback)) (v : JsValue) :
  truthy (responseBody s) = true ->
  handlers_of route i = (j, h) :: later ->
  apply_calls (fst (h c)) s = Return s1 ->
  snd (h c) = Return v ->
  existsb sets_body (fst (h c)) = false ->
  run_handlers route i c s
  = ([EvHandler j], Return (if truthy v then set_body v s1 else s1)).
Proof.
  intros T E A R N.
  assert (C : outcome (call_handler h c s)
              = Return (if truthy v then set_body v s1 else s1)).
  { rewrite call_handler_eq. simpl. rewrite A, R. reflexivity. }
  assert (F : truthy (responseBody (if truthy v then set_body v s1 else s1)) = true).
  { destruct (truthy v) eqn:V; [exact V|].
    destruct (apply_calls_formatting _ _ _ A) as [_ B]. rewrite (B N). exact T. }
  revert i E. induction route as [|[sch|h'] rest IH]; intros i E.
  - discriminate.
  - rewrite run_handlers_schema. apply (IH (S i)). exact E.
  - simpl in E. injection E as -> -> _. apply (run_handlers_stop _ _ _ _ _ _ C F).
Qed.

End Callbacks.

(** ** The cache of [fetch] *)

Section Cache.
Context `{host : Host}.

Lemma translate_trace (message : Z -> string) (app : App) (request : Request) (err : Thrown) :
  trace (translate message app request err) = [].
Proof. destruct err; simpl; try reflexivity; destruct (error app); reflexivity. Qed.

Lemma handle_no_cache_put (app : App) (request : Request) (env : gmap string JsValue)
    (ip : option string) (params : gmap string string) (route : list Route) :
  ~ In EvCachePut (trace (handle app request env ip params route)).
Proof.
  destruct (handle_trace_stages app request env ip params route)
    as (l1 & l2 & l3 & l4 & l5 & -> & K1 & K2 & K3 & K4 & K5).
  rewrite !in_app_iff. rewrite List.Forall_forall in K1, K2, K3, K4, K5.
  intros [H|[H|[H|[H|H]]]];
    [apply K1 in H | apply K2 in H | apply K3 in H | apply K4 in H | apply K5 in H];
    exact H.
Qed.

(** The cache is consulted for a [GET] request on the [cloudflare] runtime
    with a cache configured, and only then; a cached response is returned
    at once, before any plugin, validation or handler. *)
Theorem cache_fast_path (message : Z -> string) (app : App) (request : Request)
    (env : FetchEnv) (has_context : bool) (r : Response) :
  fetch message app request env has_context (Some r)
  = (if cache_enabled app request then ([], Return r)
     else fetch message app request env has_context None)
  /\ (cache_enabled app request = true
      <-> is_Some (cache app) /\ runtime app = cloudflare /\ method request = "GET").
Proof.
  split.
  - unfold fetch. destruct (cache_enabled app request); reflexivity.
  - unfold cache_enabled. destruct (cache app) as [cfg|]; destruct (runtime app).
    + split; [discriminate | intros (_ & [=] & _)].
    + rewrite String.eqb_eq. split; [intros H; repeat split; eauto | intros (_ & _ & H); exact H].
    + split; [discriminate | intros ([? [=]] & _)].
    + split; [discriminate | intros ([? [=]] & _)].
Qed.

(** A response is put into the cache only when the cache is in use for the
    request, a context was passed to [fetch], and the response is the one
    the dispatch returned, with an [ok] status; a response made from a
    failure is never stored. *)
Theorem cache_put_only_ok (message : Z -> string) (app : App) (request : Request)
    (env : FetchEnv) (has_context : bool) (cached : option Response) :
  In EvCachePut (trace (fetch message app request env has_context cached)) ->
  cache_enabled app request = true /\ has_context = true /\ cached = None
  /\ exists params route r,
       router_match app (method request) (pathname request) = Some (params, route)
       /\ outcome (handle app request (bindings env) (resolve_ip request env) params route)
          = Return r
       /\ outcome (fetch message app request env has_context cached) = Return r
       /\ ok r = true.
Proof.
  unfold fetch.
  destruct (if cache_enabled app request then cached else None) as [hit|] eqn:Hc;
    [intros []|].
  destruct (router_match app (method request) (pathname request)) as [[params route]|] eqn:Hr.
  - pose proof (handle_no_cache_put app request (bindings env) (resolve_ip request env)
                  params route) as Q.
    destruct (handle app request (bindings env) (resolve_ip request env) params route)
      as [l [r|t]] eqn:Eh; unfold trace in Q; simpl in Q.
    + rewrite bind_Return. simpl.
      destruct (cache_enabled app request && ok r
                && match runtime app with cloudflare => true | deno => false end
                && has_context) eqn:Cond.
      * rewrite bind_emit. simpl. intros _.
        apply andb_prop in Cond. destruct Cond as [Cond Hh].
        apply andb_prop in Cond. destruct Cond as [Cond _].
        apply andb_prop in Cond. destruct Cond as [He Ho].
        rewrite He in Hc. subst cached.
        split; [exact He|]. split; [exact Hh|]. split; [reflexivity|].
        exists params, route, r. split; [reflexivity|].
        split; [rewrite Eh; reflexivity|]. split; [|exact Ho].
        reflexivity.
      * rewrite bind_ret. unfold try_catch, trace. simpl. rewrite app_nil_r.
        intros H. destruct (Q H).
    + pose proof (translate_trace message app request t) as T. unfold trace in T.
      rewrite bind_Throw, try_catch_Throw. unfold trace. simpl.
      rewrite T, app_nil_r. intros H. destruct (Q H).
  - destruct (notFound app) as [handler|].
    + destruct (handler request) as [r|t|t]; try (intros []).
      pose proof (translate_trace message app request t) as T. unfold trace in T.
      unfold throw. rewrite try_catch_Throw. unfold trace. simpl.
      rewrite T. intros [].
    + unfold throw. rewrite try_catch_Throw. unfold trace. simpl. intros [].
Qed.

End Cache.

(** ** Registration *)

Lemma push_plugin_keys {A : Type} (prefix : string) (hook : A)
    (plugins : list (string * list A)) :
  map fst (push_plugin prefix hook plugins)
  = if existsb (fun key => String.eqb key prefix) (map fst plugins)
    then map fst plugins else map fst plugins ++ [prefix].
Proof.
  induction plugins as [|[key hooks] rest IH]; simpl; [reflexivity|].
  destruct (String.eqb key prefix); simpl; [reflexivity|].
  rewrite IH. destruct (existsb _ _); reflexivity.
Qed.

(** Registering a plugin under a prefix appends it to the plugins of that
    prefix, after those registered before, and leaves the plugins of every
    other prefix as they are. *)
Theorem push_plugin_lookup {A : Type} (prefix key : string) (hook : A)
    (plugins : list (string * list A)) :
  assoc key (push_plugin prefix hook plugins)
  = if String.eqb key prefix then Some (default [] (assoc prefix plugins) ++ [hook])
    else assoc key plugins.
Proof.
  induction plugins as [|[k hooks] rest IH]; simpl.
  - destruct (String.eqb key prefix); reflexivity.
  - destruct (String.eqb_spec k prefix) as [->|N]; simpl.
    + rewrite String.eqb_refl. destruct (String.eqb key prefix); reflexivity.
    + rewrite IH. destruct (String.eqb_spec key prefix) as [->|N'].
      * destruct (String.eqb_spec prefix k) as [E|_]; [congruence|].
        destruct (String.eqb_spec prefix k); [congruence | reflexivity].
      * reflexivity.
Qed.

Lemma push_plugin_wf {A : Type} (prefix : string) (hook : A)
    (plugins : list (string * list A)) :
  prefix <> EmptyString -> keys_wf plugins -> keys_wf (push_plugin prefix hook plugins).
Proof.
  intros P [N F]. unfold keys_wf. rewrite push_plugin_keys.
  destruct (existsb (fun key => String.eqb key prefix) (map fst plugins)) eqn:E; [auto|].
  split.
  - apply NoDup_app. split; [exact N|]. split; [|apply NoDup_singleton].
    intros x Hx Hs. apply list_elem_of_In in Hx. apply list_elem_of_In in Hs.
    destruct Hs as [<-|[]].
    assert (T : existsb (fun key => String.eqb key prefix) (map fst plugins) = true).
    { apply existsb_exists. exists prefix. split; [exact Hx | apply String.eqb_refl]. }
    congruence.
  - apply Forall_app. split; [exact F | repeat constructor; exact P].
Qed.

Lemma push_if_wf {A : Type} (prefix : string) (hook : option A)
    (plugins : list (string * list A)) :
  prefix <> EmptyString -> keys_wf plugins -> keys_wf (push_if prefix hook plugins).
Proof. destruct hook; [apply push_plugin_wf | auto]. Qed.

Lemma register_plugin_wf (prefix : string) (plugin : PluginMethods) (r : Registry) :
  prefix <> EmptyString -> registry_wf r -> registry_wf (register_plugin prefix plugin r).
Proof.
  intros P (W1 & W2 & W3). repeat split; simpl; apply push_if_wf; assumption.
Qed.

Lemma add_collection_plugins (routes : list (string * string * list Route)) :
  forall prefix r,
    let r' := snd (add_collection routes prefix r) in
    beforeParsing_plugins r' = beforeParsing_plugins r
    /\ beforeHandling_plugins r' = beforeHandling_plugins r
    /\ beforeResponding_plugins r' = beforeResponding_plugins r
    /\ base r' = base r.
Proof.
  induction routes as [|[[m url] handlers] rest IH]; intros prefix r; simpl; [auto|].
  destruct (IH (if String.eqb prefix "/" then EmptyString else prefix)
              (router_add m (with_base r ((if String.eqb prefix "/" then EmptyString else prefix)
                                          +:+ (if String.eqb url "/" then EmptyString else url)))
                 handlers r))
    as (E1 & E2 & E3 & E4).
  simpl in *. rewrite E1, E2, E3, E4. auto.
Qed.

Lemma use_from_wf (items : list UseItem) :
  forall prefix r r',
    registry_wf r -> use_from items prefix r = Return r' -> registry_wf r'.
Proof.
  induction items as [|[p|routes|plugin] rest IH]; intros prefix r r' W; simpl.
  - intros [= <-]. exact W.
  - apply IH. exact W.
  - destruct prefix as [p|]; [|discriminate].
    destruct (string_truthy p); [|discriminate].
    destruct (add_collection routes p r) as [p' r1] eqn:E.
    apply IH. destruct (add_collection_plugins routes p r) as (E1 & E2 & E3 & _).
    rewrite E in E1, E2, E3. simpl in E1, E2, E3.
    unfold registry_wf. rewrite E1, E2, E3. exact W.
  - apply IH. apply register_plugin_wf; [|exact W].
    destruct prefix as [p|]; [|discriminate].
    unfold string_truthy. destruct (String.eqb_spec p EmptyString); simpl;
      [discriminate | assumption].
Qed.

(** The keys [use] creates: in every registry of plugins they stay distinct
    and none is empty (a plugin without a prefix goes under [*]).  Hence a
    registered key applies to a path exactly when it is [*] or the path
    itself. *)
Theorem use_keys (items : list UseItem) (r r' : Registry) :
  registry_wf r ->
  use items r = Return r' ->
  registry_wf r'
  /\ forall key path,
       In key (plugin_keys r') ->
       (plugin_applies key path = true <-> key = "*" \/ path = key).
Proof.
  intros W U. pose proof (use_from_wf items None r r' W U) as W'. split; [exact W'|].
  intros key path Hin. rewrite plugin_applies_iff.
  assert (N : key <> EmptyString).
  { destruct W' as ((_ & F1) & (_ & F2) & (_ & F3)). unfold plugin_keys in Hin.
    rewrite List.Forall_forall in F1, F2, F3.
    rewrite !in_app_iff in Hin. destruct Hin as [H|[H|H]]; eauto. }
  split; [intros [H|[H|[H _]]]; [auto | auto | contradiction] | intros [H|H]; auto].
Qed.

Lemma add_collection_closed (routes : list (string * string * list Route)) :
  forall prefix r,
    add_collection routes prefix r
    = (match routes with [] => prefix | _ :: _ => unslash prefix end,
       {| base := base r; detected := detected r;
          added := added r ++ map (collection_route r prefix) routes;
          beforeParsing_plugins := beforeParsing_plugins r;
          beforeHandling_plugins := beforeHandling_plugins r;
          beforeResponding_plugins := beforeResponding_plugins r |}).
Proof.
  induction routes as [|[[m url] handlers] rest IH]; intros prefix r.
  - simpl. rewrite app_nil_r. destruct r; reflexivity.
  - simpl add_collection. fold (unslash prefix). fold (unslash url). rewrite IH.
    assert (U : unslash (unslash prefix) = unslash prefix).
    { unfold unslash. destruct (String.eqb_spec prefix "/"); [reflexivity|].
      destruct (String.eqb_spec prefix "/"); [contradiction | reflexivity]. }
    f_equal.
    + destruct rest; [reflexivity | exact U].
    + simpl. f_equal. rewrite <- app_assoc. simpl. f_equal. f_equal.
      apply map_ext. intros [[m' url'] handlers']. unfold collection_route, with_base.
      simpl. rewrite U. reflexivity.
Qed.

(** The routes of a collection attached under a non-empty prefix are added
    to the router in their order, each under the base, the prefix and its
    url joined, where a prefix [/] and a url [/] count as nothing; the
    plugins are left as they are. *)
Theorem use_collection (prefix : string) (routes : list (string * string * list Route))
    (r : Registry) :
  string_truthy prefix = true ->
  exists r',
    use [UsePrefix prefix; UseCollection routes] r = Return r'
    /\ added r' = added r ++ map (collection_route r prefix) routes
    /\ beforeParsing_plugins r' = beforeParsing_plugins r
    /\ beforeHandling_plugins r' = beforeHandling_plugins r
    /\ beforeResponding_plugins r' = beforeResponding_plugins r.
Proof.
  intros T. unfold use. simpl. rewrite T, add_collection_closed.
  eexists. split; [reflexivity|]. simpl. auto.
Qed.

(** A collection needs a prefix, and a collection with routes attached at
    [/] uses the prefix up: a collection that follows it in the same call
    of [use] is refused like one without prefix, and a plugin that follows
    it is registered under [*], whereas a plugin that follows the prefix
    [/] directly is registered under [/]. *)
Theorem root_prefix_consumed (route : string * string * list Route)
    (routes more : list (string * string * list Route)) (plugin : PluginMethods)
    (rest : list UseItem) (r : Registry) :
  use (UseCollection routes :: rest) r
  = Throw (Error "Please define a prefix when attaching a collection!")
  /\ use (UsePrefix "/" :: UseCollection (route :: routes) :: UseCollection more :: rest) r
     = Throw (Error "Please define a prefix when attaching a collection!")
  /\ use [UsePrefix "/"; UseCollection (route :: routes); UsePlugin plugin] r
     = Return (register_plugin "*" plugin (snd (add_collection (route :: routes) "/" r)))
  /\ use [UsePrefix "/"; UsePlugin plugin] r = Return (register_plugin "/" plugin r).
Proof.
  split; [reflexivity|]. split; [|split; [|reflexivity]].
  - unfold use. cbn [use_from]. change (string_truthy "/") with true. cbv iota.
    rewrite (add_collection_closed (route :: routes) "/" r). reflexivity.
  - unfold use. cbn [use_from]. change (string_truthy "/") with true. cbv iota.
    rewrite (add_collection_closed (route :: routes) "/" r). reflexivity.
Qed.

(** ** The headers every response starts with *)

Lemma outcome_bind_Return_inv {A B} (m : M A) (f : A -> M B) (b : B) :
  outcome (bind m f) = Return b ->
  exists a, outcome m = Return a /\ outcome (f a) = Return b.
Proof.
  destruct m as [l [a|t]]; unfold outcome, bind; simpl.
  - destruct (f a) as [l' r] eqn:E. simpl. intros ->. exists a. rewrite E. auto.
  - discriminate.
Qed.

Section Frame.
Context `{host : Host}.
Variable k : string.

Lemma invoke_frame (h : Callback) (c : Context) (s : ResState) (r : JsValue * ResState) :
  keeps_header k h ->
  outcome (invoke h c s) = Return r ->
  responseHeaders (snd r) !! k = responseHeaders s !! k.
Proof.
  intros K. specialize (K c). unfold invoke. destruct (h c) as [calls completion].
  simpl in K. unfold lift.
  destruct (apply_calls calls s) as [s'|t] eqn:A; [|discriminate].
  rewrite bind_Return. destruct completion as [v|t]; [|discriminate].
  rewrite bind_Return. intros [= <-]. simpl. exact (apply_calls_frame k calls s s' K A).
Qed.

Lemma run_hooks_frame (st : Stage) (key : string) (hooks : list Callback) :
  Forall (keeps_header k) hooks ->
  forall (i : nat) (c : Context) (s s' : ResState),
    outcome (run_hooks st key i hooks c s) = Return s' ->
    responseHeaders s' !! k = responseHeaders s !! k.
Proof.
  induction 1 as [|h rest K _ IH]; intros i c s s'; simpl.
  - intros [= <-]. reflexivity.
  - intros E. apply outcome_bind_Return_inv in E. destruct E as ([] & _ & E).
    apply outcome_bind_Return_inv in E. destruct E as (r & E1 & E2).
    rewrite (IH _ _ _ _ E2). exact (invoke_frame h c s r K E1).
Qed.

Lemma run_plugins_frame (st : Stage) (registry : list (string * list Callback)) :
  Forall (fun entry => Forall (keeps_header k) (snd entry)) registry ->
  forall (c : Context) (s s' : ResState),
    outcome (run_plugins st registry c s) = Return s' ->
    responseHeaders s' !! k = responseHeaders s !! k.
Proof.
  induction 1 as [|[key hooks] rest K _ IH]; intros c s s'; simpl.
  - intros [= <-]. reflexivity.
  - destruct (plugin_skipped key (pathname (ctx_raw c))); [apply IH|].
    intros E. apply outcome_bind_Return_inv in E. destruct E as (s1 & E1 & E2).
    rewrite (IH _ _ _ E2). exact (run_hooks_frame st key hooks K _ _ _ _ E1).
Qed.

Lemma call_handler_frame (h : Callback) (c : Context) (s s' : ResState) :
  keeps_header k h ->
  outcome (call_handler h c s) = Return s' ->
  responseHeaders s' !! k = responseHeaders s !! k.
Proof.
  intros K. specialize (K c). rewrite call_handler_eq. unfold outcome. simpl.
  destruct (apply_calls (fst (h c)) s) as [s1|t] eqn:A; [|discriminate].
  destruct (snd (h c)) as [v|t]; [|discriminate].
  intros [= <-]. rewrite <- (apply_calls_frame k _ s s1 K A).
  destruct (truthy v); reflexivity.
Qed.

Lemma run_handlers_frame (route : list Route) :
  forall (i : nat) (c : Context) (s s' : ResState),
    Forall (fun entry => keeps_header k (snd entry)) (handlers_of route i) ->
    outcome (run_handlers route i c s) = Return s' ->
    responseHeaders s' !! k = responseHeaders s !! k.
Proof.
  induction route as [|[schema|h] rest IH]; intros i c s s' F.
  - simpl. intros [= <-]. reflexivity.
  - simpl. apply IH. exact F.
  - rewrite run_handlers_cons. simpl in F.
    intros E. apply outcome_bind_Return_inv in E. destruct E as ([] & _ & E).
    apply outcome_bind_Return_inv in E. destruct E as (s1 & E1 & E2).
    rewrite <- (call_handler_frame h c s s1 (Forall_inv F) E1).
    destruct (truthy (responseBody s1)).
    + injection E2 as <-. reflexivity.
    + exact (IH _ _ _ _ (Forall_inv_tail F) E2).
Qed.

Lemma construct_response_lookup (s : ResState) (r : Response) :
  k <> "content-length" -> k <> "content-type" ->
  outcome (construct_response s) = Return r ->
  headers r !! k = responseHeaders (strip_cache_control s) !! k.
Proof.
  intros N1 N2. assert (W : String.eqb k "content-length" = false).
  { apply String.eqb_neq. exact N1. }
  unfold construct_response.
  set (s1 := strip_cache_control s).
  destruct (header_truthy (responseHeaders s1) "location"); [intros [= <-]; reflexivity|].
  destruct (negb (truthy (responseBody s1))); [intros [= <-]; reflexivity|].
  destruct (requiresFormatting s1 && negb (is_nullish (responseBody s1))).
  - destruct (is_string (responseBody s1)).
    + intros [= <-]. simpl.
      rewrite responseHeaders_default_content_type_ne by exact N2.
      apply lookup_set_header_ne. exact W.
    + destruct (JSON_stringify (responseBody s1)) as [serialized|]; [|discriminate].
      rewrite responseBody_default_content_type. simpl. intros [= <-]. simpl.
      rewrite responseHeaders_default_content_type_ne by exact N2.
      apply (lookup_set_header_ne _ _ _ (set_body _ s1)). exact W.
  - intros [= <-]. reflexivity.
Qed.

(** A header that no plugin and no handler writes leaves with the response
    as the dispatch began with it: the allowed origin when one is
    configured, and for a [GET] request the [cache-control] header, whose
    value is [max-age=0] without a cache and [max-age=[object Object]] with
    one, since the template prints the cache configuration itself.  The
    [cache-control] header is dropped unless the status is 200 or 301. *)
Theorem response_header_default (app : App) (request : Request)
    (env : gmap string JsValue) (ip : option string) (params : gmap string string)
    (route : list Route) (r : Response) :
  k <> "content-length" -> k <> "content-type" ->
  is_preflight request = false ->
  Forall (fun entry => Forall (keeps_header k) (snd entry)) (plugins_beforeHandling app) ->
  Forall (fun entry => keeps_header k (snd entry)) (handlers_of route 0) ->
  Forall (fun entry => Forall (keeps_header k) (snd entry)) (plugins_beforeResponding app) ->
  outcome (handle app request env ip params route) = Return r ->
  headers r !! k
  = if String.eqb k "cache-control" && negb ((status r =? 200) || (status r =? 301))
    then None
    else if String.eqb k "cache-control" && String.eqb (method request) "GET"
    then Some ("max-age=" +:+ match cache app with
                            | Some _ => "[object Object]" | None => "0" end)
    else if String.eqb k "access-control-allow-origin"
    then match cors app with
         | Some origin => if string_truthy origin then Some origin else None
         | None => None
         end
    else None.
Proof.
  intros N1 N2 P F1 F2 F3. unfold handle. rewrite P.
  intros E. apply outcome_bind_Return_inv in E. destruct E as ([] & _ & E).
  apply outcome_bind_Return_inv in E. destruct E as (parsed & _ & E).
  apply outcome_bind_Return_inv in E. destruct E as (s1 & E1 & E).
  apply outcome_bind_Return_inv in E. destruct E as (s2 & E2 & E).
  apply outcome_bind_Return_inv in E. destruct E as (s3 & E3 & E).
  rewrite (construct_response_lookup s3 r N1 N2 E).
  rewrite (construct_response_keeps_status _ _ E).
  assert (I : responseHeaders s3 !! k = initial_headers app request !! k).
  { rewrite (run_plugins_frame _ _ F3 _ _ _ E3), (run_handlers_frame _ _ _ _ _ F2 E2),
      (run_plugins_frame _ _ F1 _ _ _ E1). reflexivity. }
  assert (D : initial_headers app request !! k
              = if String.eqb k "cache-control" && String.eqb (method request) "GET"
                then Some ("max-age=" +:+ match cache app with
                            | Some _ => "[object Object]" | None => "0" end)
                else if String.eqb k "access-control-allow-origin"
                then match cors app with
                     | Some origin => if string_truthy origin then Some origin else None
                     | None => None
                     end
                else None).
  { unfold initial_headers.
    destruct (String.eqb_spec k "cache-control") as [->|Nc].
    - destruct (String.eqb (method request) "GET"); simpl.
      + rewrite lookup_insert_eq. reflexivity.
      + unfold cors_headers. destruct (cors app) as [origin|]; [|apply lookup_empty].
        destruct (string_truthy origin); [|apply lookup_empty].
        apply lookup_singleton_ne. discriminate.
    - simpl.
      assert (C : (if String.eqb (method request) "GET"
                   then <["cache-control" :=
                            "max-age=" +:+ match cache app with
                                           | Some _ => "[object Object]" | None => "0" end]>
                          (cors_headers app)
                   else cors_headers app) !! k = cors_headers app !! k).
      { destruct (String.eqb (method request) "GET"); [|reflexivity].
        apply lookup_insert_ne. congruence. }
      rewrite C. unfold cors_headers.
      destruct (String.eqb_spec k "access-control-allow-origin") as [->|Na].
      + destruct (cors app) as [origin|]; [|apply lookup_empty].
        destruct (string_truthy origin); [apply lookup_singleton_eq | apply lookup_empty].
      + destruct (cors app) as [origin|]; [|apply lookup_empty].
        destruct (string_truthy origin); [|apply lookup_empty].
        apply lookup_singleton_ne. congruence. }
  destruct (String.eqb_spec k "cache-control") as [->|Nc].
  - rewrite strip_cache_control_lookup. simpl.
    destruct ((responseCode s3 =? 200) || (responseCode s3 =? 301)); simpl; [|reflexivity].
    rewrite I, D. reflexivity.
  - rewrite strip_cache_control_headers by exact Nc. simpl. rewrite I, D.
    reflexivity.
Qed.

End Frame.

(** ** Instances *)

(** A validator without [check] asked about a schema without [safeParse]. *)
Lemma validation_failures_witness :
  TypeError = Exception 400 \/ TypeError = Exception 413
  \/ (TypeError = TypeError
      /\ exists vv, Some zod_validator = Some vv
                    /\ (name vv <> "typebox" \/ check vv = None)).
Proof.
  apply (validation_failures (Some zod_validator) (Some cookie_schema)
           (sample_request "GET" "/" []) TypeError).
  reflexivity.
Defined.

Lemma handler_needs_validation_witness :
  exists parsed,
    outcome (validation (validator checked_app) (schema_of checked_route)
               (sample_request "GET" "/" [])) = Return parsed.
Proof.
  apply (handler_needs_validation checked_app (sample_request "GET" "/" []) ∅ None ∅
           checked_route 1).
  vm_compute. right. left. reflexivity.
Defined.

Lemma rejected_request_witness :
  outcome (handle guarded_app (sample_request "GET" "/items" []) ∅ None ∅ guarded_route)
  = Throw (Exception 400)
  /\ forall i, ~ In (EvHandler i)
                 (trace (handle guarded_app (sample_request "GET" "/items" []) ∅ None ∅
                           guarded_route)).
Proof.
  apply (rejected_request guarded_app (sample_request "GET" "/items" []) ∅ None ∅
           guarded_route reject_all cookie_schema).
  - reflexivity.
  - reflexivity.
  - reflexivity.
  - intros sub value. reflexivity.
  - reflexivity.
  - right. right. eexists. reflexivity.
Defined.

Lemma schema_inert_without_validator_witness :
  handle (sample_app None [] []) (sample_request "GET" "/" []) ∅ None ∅
    (RSchema cookie_schema :: [RHandler (handler [] (JStr "ok"))])
  = handle (sample_app None [] []) (sample_request "GET" "/" []) ∅ None ∅
      (RSchema full_schema :: [RHandler (handler [] (JStr "ok"))]).
Proof.
  apply (schema_inert_without_validator (sample_app None [] [])
           (sample_request "GET" "/" []) ∅ None ∅ cookie_schema full_schema
           [RHandler (handler [] (JStr "ok"))]).
  reflexivity.
Defined.

Lemma formatting_flag_witness :
  exists s',
    apply_calls [res_header "x-a" "1"; res_text "hi" None; res_code 201] blank_state
    = Return s'
    /\ requiresFormatting s' = false.
Proof.
  eexists. split; [reflexivity|].
  etransitivity.
  - apply (formatting_flag [res_header "x-a" "1"; res_text "hi" None; res_code 201]
             blank_state).
    reflexivity.
  - reflexivity.
Defined.

Lemma calls_frame_witness :
  exists s',
    apply_calls [res_text "hi" None; res_code 201] powered_state = Return s'
    /\ responseHeaders s' !! "x-powered-by" = Some "cheetah".
Proof.
  eexists. split; [reflexivity|].
  etransitivity.
  - apply (calls_frame "x-powered-by" [res_text "hi" None; res_code 201] powered_state);
      reflexivity.
  - reflexivity.
Defined.

Lemma last_cookie_wins_witness :
  exists s',
    apply_calls ([res_cookie "a" "1" None] ++ res_cookie "b" "2" None :: [res_text "ok" None])
      blank_state = Return s'
    /\ responseHeaders s' !! "set-cookie" = Some "b=2;".
Proof.
  eexists. split; [reflexivity|].
  apply (last_cookie_wins [res_cookie "a" "1" None] [res_text "ok" None] "b" "2" None
           blank_state); reflexivity.
Defined.

Lemma content_type_kept_witness :
  exists s',
    apply_calls [res_json (JArr []) None] typed_state = Return s'
    /\ responseHeaders s' !! "content-type" = Some "text/plain; charset=utf-8".
Proof.
  eexists. split; [reflexivity|].
  etransitivity.
  - apply (content_type_kept [res_json (JArr []) None] typed_state); reflexivity.
  - reflexivity.
Defined.


Lemma redirect_response_witness :
  exists s' r,
    apply_call (res_redirect "/login" None) plugin_staged_state = Return s'
    /\ construct_response s' = ret r
    /\ body r = JNull
    /\ status r = default 307 None
    /\ headers r !! "location" = Some "/login".
Proof. apply (redirect_response plugin_staged_state "/login" None). reflexivity. Defined.

Lemma string_body_response_witness :
  exists r,
    construct_response (set_body (JStr "hello") blank_state) = ret r
    /\ body r = JStr "hello"
    /\ status r = 200
    /\ body_status_ok (status r) = true
    /\ headers r !! "content-length" = Some "5"
    /\ headers r !! "content-type" = Some "text/plain; charset=utf-8".
Proof.
  apply (string_body_response (set_body (JStr "hello") blank_state) "hello");
    reflexivity.
Defined.

Lemma staged_body_untouched_witness :
  construct_response (stage_body (JHost KBlob 3) blank_state)
  = ret (new_Response (JHost KBlob 3) (stage_body (JHost KBlob 3) blank_state)).
Proof.
  apply (staged_body_untouched (stage_body (JHost KBlob 3) blank_state)); reflexivity.
Defined.

Lemma returned_value_after_res_call_witness :
  exists s1,
    apply_calls (fst (overriding_handler root_context)) blank_state = Return s1
    /\ outcome (call_handler overriding_handler root_context blank_state)
       = Return (set_body (JArr [JNum (Int 1); JNum (Int 2)]) s1)
    /\ construct_response (set_body (JArr [JNum (Int 1); JNum (Int 2)]) s1)
       = ret (new_Response (JArr [JNum (Int 1); JNum (Int 2)]) (strip_cache_control s1)).
Proof.
  eexists. split; [reflexivity|].
  apply (returned_value_after_res_call overriding_handler root_context blank_state);
    reflexivity.
Defined.

Lemma json_body_response_witness :
  exists r,
    construct_response
      (set_code 201 (set_body (JArr [JNum (Int 1); JNum (Int 2)]) blank_state)) = ret r
    /\ body r = JStr "[1,2]"
    /\ status r = 201
    /\ body_status_ok (status r) = true
    /\ headers r !! "content-length" = Some (toString (String.length "[1,2]"))
    /\ (header_truthy
          (responseHeaders
             (set_code 201 (set_body (JArr [JNum (Int 1); JNum (Int 2)]) blank_state)))
          "content-type" = false ->
        headers r !! "content-type" = Some "application/json; charset=utf-8").
Proof.
  apply (json_body_response
           (set_code 201 (set_body (JArr [JNum (Int 1); JNum (Int 2)]) blank_state)) "[1,2]");
    reflexivity.
Defined.

Lemma parse_query_lookup_witness :
  parse_query text_request !! "page" = coerce <$> assoc "page" (rev (searchParams text_request)).
Proof. apply (parse_query_lookup text_request "page"). discriminate. Defined.

Lemma header_stored_witness :
  parse_headers traced_request !! "x-trace" = Some "first".
Proof.
  apply (header_stored traced_request [("accept", "*/*")] [] "x-trace" "first").
  - reflexivity.
  - repeat constructor.
  - reflexivity.
  - intros entry [<-|[]]. discriminate.
  - left. reflexivity.
Defined.

Lemma parse_cookie_header_witness :
  parse_cookie_text (cookie_header [("a", "1"); ("b", "2"); ("a", "3")]) !! "a"
  = JStr <$> assoc "a" (rev [("a", "1"); ("b", "2"); ("a", "3")]).
Proof.
  apply (parse_cookie_header [("a", "1"); ("b", "2"); ("a", "3")] "a"). reflexivity.
Defined.

Lemma staged_body_stops_chain_witness :
  run_handlers [RHandler (handler [res_code 201] JUndefined); RHandler second_handler] 0
    root_context plugin_staged_state
  = ([EvHandler 0], Return (set_code 201 plugin_staged_state)).
Proof.
  apply (staged_body_stops_chain
           [RHandler (handler [res_code 201] JUndefined); RHandler second_handler] 0 0
           root_context plugin_staged_state (set_code 201 plugin_staged_state)
           (handler [res_code 201] JUndefined) [(1%nat, second_handler)] JUndefined);
    reflexivity.
Defined.

Lemma cache_put_only_ok_witness :
  cache_enabled cached_app (sample_request "GET" "/" []) = true /\ true = true
  /\ @None Response = None
  /\ exists params route r,
       router_match cached_app (method (sample_request "GET" "/" []))
         (pathname (sample_request "GET" "/" [])) = Some (params, route)
       /\ outcome (handle cached_app (sample_request "GET" "/" []) (bindings no_env)
                     (resolve_ip (sample_request "GET" "/" []) no_env) params route)
          = Return r
       /\ outcome (fetch reason_phrase cached_app (sample_request "GET" "/" []) no_env
                     true None) = Return r
       /\ ok r = true.
Proof.
  apply (cache_put_only_ok reason_phrase cached_app (sample_request "GET" "/" []) no_env
           true None).
  vm_compute. right. left. reflexivity.
Defined.

Lemma use_keys_witness :
  exists r',
    use [UsePlugin logging_plugin; UsePrefix "/admin"; UsePlugin logging_plugin]
      empty_registry = Return r'
    /\ registry_wf r'
    /\ plugin_keys r' = ["*"; "/admin"; "*"; "/admin"].
Proof.
  eexists. split; [reflexivity|]. split; [|reflexivity].
  apply (use_keys [UsePlugin logging_plugin; UsePrefix "/admin"; UsePlugin logging_plugin]
           empty_registry).
  - vm_compute. repeat split; repeat constructor.
  - reflexivity.
Defined.

Lemma use_collection_witness :
  exists r',
    use [UsePrefix "/items"; UseCollection items_collection] empty_registry = Return r'
    /\ added r' = added empty_registry
                  ++ map (collection_route empty_registry "/items") items_collection
    /\ beforeParsing_plugins r' = beforeParsing_plugins empty_registry
    /\ beforeHandling_plugins r' = beforeHandling_plugins empty_registry
    /\ beforeResponding_plugins r' = beforeResponding_plugins empty_registry.
Proof. apply (use_collection "/items" items_collection empty_registry). reflexivity. Defined.

(** The collection above: its root route is added under the prefix
    itself. *)
Example use_collection_paths :
  map (fun route => snd (fst route))
      (map (collection_route empty_registry "/items") items_collection)
  = ["/items"; "/items/new"].
Proof. reflexivity. Qed.


Lemma response_header_default_witness :
  exists r,
    outcome (handle open_app (sample_request "GET" "/" []) ∅ None ∅
               [RHandler (handler [res_code 201] (JStr "ok"))]) = Return r
    /\ headers r !! "access-control-allow-origin" = Some "*".
Proof.
  eexists. split; [reflexivity|].
  etransitivity.
  - apply (response_header_default "access-control-allow-origin" open_app
             (sample_request "GET" "/" []) ∅ None ∅
             [RHandler (handler [res_code 201] (JStr "ok"))]).
    + discriminate.
    + discriminate.
    + reflexivity.
    + repeat constructor.
    + repeat constructor.
    + constructor.
    + reflexivity.
  - reflexivity.
Defined.

(** With a cache configured, the [cache-control] header of a [GET] answered
    with 200 prints the configuration object. *)
Example cache_control_prints_object :
  exists r,
    outcome (handle cached_app (sample_request "GET" "/" []) ∅ None ∅
               [RHandler (handler [] (JStr "ok"))]) = Return r
    /\ status r = 200
    /\ headers r !! "cache-control" = Some "max-age=[object Object]".
Proof. eexists. repeat split. Qed.
